(** * Receipt OCR core: orchestrator and receipt parser

    A shallow embedding of the receipt-processing core of the repository.

    - [PyStr] holds the few Python string primitives the code relies on
      ([str.split], [len], [str.lower], [str.title]).
    - [Ocr] embeds the engine orchestrator of [enhanced_ocr_service.py]
      as quoted in [OCR_HYBRID_MODE_DOCUMENTATION.md]:
      [_try_multiple_ocr_methods] and [_compare_ocr_results].
    - [Binary64] holds Python's floats and their rounded operations;
      [Ocr64] embeds the same two functions over them.
    - [Parser] models [intelligent_receipt_parser.py], whose body is not part
      of the sources at hand; every definition there says what it follows.
    - [Re] holds the part of the regular-expression syntax the code's
      patterns use, with a matcher; [Tesseract] and [ParserSource] embed
      further fragments of the Python services that the documents quote.
    - [Js], [QRCodeService], [FamilyService], [FamilyMealService],
      [StatusRoute] and [FamilyRoute] embed the TypeScript family
      services and two of their routes; a call runs in a world made of
      the host's clock and random numbers and the service's static maps.

    Numbers: in [Ocr64] a Python float is a binary64 number and every
    operation rounds as Python's does; what is proved of the comparison of
    two scores is proved there.  Elsewhere numbers are read as exact
    rationals ([Q]), rounding left out: that serves for the order of the
    engine calls, the threshold test on a given confidence and the bounds
    of a score.  Text is a [string] whose characters are code points
    below 256. *)

From Stdlib Require Import List String Ascii QArith Qminmax Qabs ZArith NArith Bool Lia Lqa.
From Stdlib Require Import SpecFloat.
Import ListNotations.

Open Scope string_scope.

(* ================================================================== *)
(** * Python string primitives                                         *)
(* ================================================================== *)

Module PyStr.

(** [str.isspace] on one character (code points below 256): TAB..CR,
    FS..US, SPACE, NEL and NBSP. *)
Definition isspace (c : ascii) : bool :=
  let n := N_of_ascii c in
  (((9 <=? n) && (n <=? 13)) || ((28 <=? n) && (n <=? 32))
   || (n =? 133) || (n =? 160))%N.

Definition isdigit (c : ascii) : bool :=
  let n := N_of_ascii c in ((48 <=? n) && (n <=? 57))%N.

Definition isupper (c : ascii) : bool :=
  let n := N_of_ascii c in ((65 <=? n) && (n <=? 90))%N.

Definition islower (c : ascii) : bool :=
  let n := N_of_ascii c in ((97 <=? n) && (n <=? 122))%N.

Definition isalpha (c : ascii) : bool := isupper c || islower c.

Definition isalnum (c : ascii) : bool := isalpha c || isdigit c.

Definition to_lower (c : ascii) : ascii :=
  if isupper c then ascii_of_N (N_of_ascii c + 32) else c.

Definition to_upper (c : ascii) : ascii :=
  if islower c then ascii_of_N (N_of_ascii c - 32) else c.

(** [s.lower()] *)
Fixpoint lower (s : string) : string :=
  match s with
  | EmptyString => EmptyString
  | String c s' => String (to_lower c) (lower s')
  end.

(** [s.title()] on ASCII text: a letter is upper-cased when the character
    before it is not a letter and lower-cased otherwise; other characters
    are kept.  Only the letters A to Z and a to z count as letters here
    (Python also cases the accented letters).  [prev] tells whether the
    previous character was a letter. *)
Fixpoint title_from (prev : bool) (s : string) : string :=
  match s with
  | EmptyString => EmptyString
  | String c s' =>
      if isalpha c
      then String (if prev then to_lower c else to_upper c) (title_from true s')
      else String c (title_from false s')
  end.

Definition title (s : string) : string := title_from false s.

(** [s.split()] with no argument: maximal runs of non-whitespace
    characters, in order.  [cur] is the word being read. *)
Fixpoint split_from (cur : string) (s : string) : list string :=
  match s with
  | EmptyString =>
      match cur with EmptyString => [] | _ => [cur] end
  | String c s' =>
      if isspace c
      then match cur with
           | EmptyString => split_from EmptyString s'
           | _ => cur :: split_from EmptyString s'
           end
      else split_from (cur ++ String c EmptyString) s'
  end.

Definition split (s : string) : list string := split_from EmptyString s.

(** [" ".join(ws)] *)
Fixpoint join (ws : list string) : string :=
  match ws with
  | [] => EmptyString
  | [w] => w
  | w :: ws' => w ++ String " " (join ws')
  end.

(** [all(p(c) for c in s)] *)
Fixpoint forall_chars (p : ascii -> bool) (s : string) : bool :=
  match s with
  | EmptyString => true
  | String c s' => p c && forall_chars p s'
  end.

Fixpoint exists_chars (p : ascii -> bool) (s : string) : bool :=
  match s with
  | EmptyString => false
  | String c s' => p c || exists_chars p s'
  end.

(** [s.startswith(p)] *)
Fixpoint startswith (p s : string) : bool :=
  match p, s with
  | EmptyString, _ => true
  | String a p', String b s' => Ascii.eqb a b && startswith p' s'
  | String _ _, EmptyString => false
  end.

(** [here] holds of some suffix of [s] ([re.search] for a pattern
    recognised at a position by [here]). *)
Fixpoint search (here : string -> bool) (s : string) : bool :=
  here s
  || match s with
     | EmptyString => false
     | String _ s' => search here s'
     end.

(** [p in s] *)
Definition contains (p s : string) : bool := search (startswith p) s.

(** [s] after its prefix [p], when it has it. *)
Fixpoint after_prefix (p s : string) : option string :=
  match p, s with
  | EmptyString, _ => Some s
  | String a p', String b s' =>
      if Ascii.eqb a b then after_prefix p' s' else None
  | String _ _, EmptyString => None
  end.

(** The first character of [s] satisfies [p]. *)
Definition next_is (p : ascii -> bool) (s : string) : bool :=
  match s with
  | String c _ => p c
  | EmptyString => false
  end.

(** Number of leading characters satisfying [p]. *)
Fixpoint count_leading (p : ascii -> bool) (s : string) : nat :=
  match s with
  | String c s' => if p c then S (count_leading p s') else 0
  | EmptyString => 0
  end.

(** [s] without its characters satisfying [p] ([s.replace(ch, "")]). *)
Fixpoint remove_chars (p : ascii -> bool) (s : string) : string :=
  match s with
  | EmptyString => EmptyString
  | String c s' =>
      if p c then remove_chars p s' else String c (remove_chars p s')
  end.

End PyStr.

(* ================================================================== *)
(** * The OCR orchestrator ([enhanced_ocr_service.py])                  *)
(* ================================================================== *)

Module Ocr.

Import PyStr.
Open Scope Q_scope.

(** The result dictionary an engine adapter returns and the orchestrator
    passes on.  Keys read with [.get(key, default)] are optional;
    ['success'] is read with [.get('success')] and tested for truth, so
    a missing key counts as [false]; ['ocr_engine'] is read by subscript
    and is always present. *)
Record OcrResult : Type := mkOcrResult {
  success : bool;
  text : option string;
  confidence : option Q;
  ocr_engine : string;
  hybrid_mode : option bool;
  comparison_score : option Q
}.

(** [d.get(key, default)] *)
Definition get {A : Type} (field : option A) (default : A) : A :=
  match field with Some v => v | None => default end.

(** [QUALITY_THRESHOLD = 70.0] *)
Definition QUALITY_THRESHOLD : Q := 70.0.

(** Comparisons on numbers, as booleans. *)
Definition Qltb (x y : Q) : bool := negb (Qle_bool y x).
Definition Qgeb (x y : Q) : bool := Qle_bool y x.

(** Python's [min(a, b)]: [b] when [b < a], else [a]. *)
Definition py_min (a b : Q) : Q := if Qltb b a then b else a.

(** [len(s)] as a number. *)
Definition len (s : string) : Q := inject_Z (Z.of_nat (String.length s)).

(** [len([w for w in text.split() if len(w) > 2])] *)
Definition valid_words (txt : string) : nat :=
  List.length (filter (fun w => (2 <? String.length w)%nat) (split txt)).

(** The score [_compare_ocr_results] computes for one result:
<<
    text = result.get('text', '')
    confidence = result.get('confidence', 0)
    words = len([w for w in text.split() if len(w) > 2])
    score = (confidence * 0.40 +
             min(100, (len(text) / 500) * 100) * 0.30 +
             min(100, (words / 50) * 100) * 0.30)
>>
    in exact arithmetic; [Ocr64.score_of] is the same expression with
    Python's rounding. *)
Definition score_of (result : OcrResult) : Q :=
  let txt := get (text result) "" in
  let conf := get (confidence result) 0 in
  let words := inject_Z (Z.of_nat (valid_words txt)) in
  conf * 0.40
  + py_min 100 ((len txt / 500) * 100) * 0.30
  + py_min 100 ((words / 50) * 100) * 0.30.

(** [result['hybrid_mode'] = True; result['comparison_score'] = score] *)
Definition mark_hybrid (result : OcrResult) (sc : Q) : OcrResult :=
  {| success := success result;
     text := text result;
     confidence := confidence result;
     ocr_engine := ocr_engine result;
     hybrid_mode := Some true;
     comparison_score := Some sc |}.

(** [_compare_ocr_results(self, ocr_result, tesseract_result)], on the
    exact scores; which of two nearly equal scores wins is settled by
    [Ocr64._compare_ocr_results]. *)
Definition _compare_ocr_results (ocr_result tesseract_result : OcrResult)
  : OcrResult :=
  let ocr_score := score_of ocr_result in
  let tesseract_score := score_of tesseract_result in
  if Qgeb ocr_score tesseract_score
  then mark_hybrid ocr_result ocr_score
  else mark_hybrid tesseract_result tesseract_score.

(** ** Engine calls as effects

    The two adapters are collaborators of the orchestrator.  A run of the
    orchestrator threads the list of engine calls issued so far, oldest
    first. *)
Inductive EngineCall : Type := CallOcrSpace | CallTesseract | CallManual.

Definition M (A : Type) : Type := list EngineCall -> A * list EngineCall.

Definition ret {A : Type} (a : A) : M A := fun calls => (a, calls).

Definition bind {A B : Type} (m : M A) (k : A -> M B) : M B :=
  fun calls => let '(a, calls') := m calls in k a calls'.

Notation "x <- m ;; k" := (bind m (fun x => k))
  (at level 61, m at next level, right associativity).

(** How a call of the orchestrator ends: it returns a dictionary, or an
    exception leaves it. *)
Inductive OcrError : Type := OcrUnavailable.

Inductive Outcome : Type :=
| Returned (result : OcrResult)
| Raised (e : OcrError).

Section Orchestrator.

Variable Image : Type.

(** [self._try_ocrspace_with_fallback(processed_image, language)] and
    [self._try_tesseract_ocr(processed_image, language)]: what each
    adapter answers. *)
Variable ocrspace_answer : Image -> string -> OcrResult.
Variable tesseract_answer : Image -> string -> OcrResult.

Definition _try_ocrspace_with_fallback (img : Image) (language : string)
  : M OcrResult :=
  fun calls => (ocrspace_answer img language, (calls ++ [CallOcrSpace])%list).

Definition _try_tesseract_ocr (img : Image) (language : string)
  : M OcrResult :=
  fun calls => (tesseract_answer img language, (calls ++ [CallTesseract])%list).

(** [_try_multiple_ocr_methods(self, processed_image, language, text_regions)]
    (the logger calls are left out). *)
Definition _try_multiple_ocr_methods (processed_image : Image)
  (language : string) : M Outcome :=
  ocr_result <- _try_ocrspace_with_fallback processed_image language ;;
  if success ocr_result then
    let ocr_confidence := get (confidence ocr_result) 100 in
    if Qltb ocr_confidence QUALITY_THRESHOLD then
      tesseract_result <- _try_tesseract_ocr processed_image language ;;
      if success tesseract_result then
        let best_result := _compare_ocr_results ocr_result tesseract_result in
        ret (Returned best_result)
      else ret (Returned ocr_result)
    else ret (Returned ocr_result)
  else
    tesseract_result <- _try_tesseract_ocr processed_image language ;;
    ret (Returned tesseract_result).

(** The earlier snapshot of the same method, quoted in the comprehensive
    enhancement summary: Tesseract first, OCR.space as fallback, manual
    extraction as the last resort.
<<
    tesseract_result = self._try_tesseract_ocr(processed_image, language)
    if tesseract_result.get('success'):
        return tesseract_result
    ocrspace_result = self._try_ocrspace_with_fallback(processed_image, language)
    if ocrspace_result.get('success'):
        return ocrspace_result
    return self._fallback_text_extraction(processed_image)
>> *)
Variable manual_answer : Image -> OcrResult.

Definition _fallback_text_extraction (img : Image) : M OcrResult :=
  fun calls => (manual_answer img, (calls ++ [CallManual])%list).

Definition _try_multiple_ocr_methods_v1 (processed_image : Image)
  (language : string) : M Outcome :=
  tesseract_result <- _try_tesseract_ocr processed_image language ;;
  if success tesseract_result then ret (Returned tesseract_result)
  else
    ocrspace_result <- _try_ocrspace_with_fallback processed_image language ;;
    if success ocrspace_result then ret (Returned ocrspace_result)
    else
      manual_result <- _fallback_text_extraction processed_image ;;
      ret (Returned manual_result).

(** A run from the empty call list. *)
Definition run (processed_image : Image) (language : string)
  : Outcome * list EngineCall :=
  _try_multiple_ocr_methods processed_image language [].

End Orchestrator.

Arguments _try_ocrspace_with_fallback {Image} ocrspace_answer img language.
Arguments _try_tesseract_ocr {Image} tesseract_answer img language.
Arguments _try_multiple_ocr_methods {Image} ocrspace_answer tesseract_answer
  processed_image language.
Arguments run {Image} ocrspace_answer tesseract_answer processed_image language.
Arguments _try_multiple_ocr_methods_v1 {Image} ocrspace_answer tesseract_answer
  manual_answer processed_image language.

(** ** The word count as the specification words it *)

(** Number of whitespace-separated tokens longer than two characters;
    [run_len] is the length of the token being read. *)
Fixpoint wordCount_from (run_len : nat) (s : string) : nat :=
  match s with
  | EmptyString => if (2 <? run_len)%nat then 1 else 0
  | String c s' =>
      if isspace c
      then (if (2 <? run_len)%nat then 1 else 0) + wordCount_from 0 s'
      else wordCount_from (S run_len) s'
  end.

Definition wordCount (s : string) : nat := wordCount_from 0 s.

End Ocr.

(* ================================================================== *)
(** * Binary floating point ([float] in Python)                         *)
(* ================================================================== *)

Module Binary64.

(** A Python [float] is an IEEE 754 binary64 number: 53 bits of
    precision, exponents below 1024.  A number is a signed zero, a signed
    infinity, NaN, or a sign, a mantissa and a binary exponent; the
    operations are the standard library's specification of IEEE
    arithmetic, rounding to nearest with ties to even. *)
Definition float : Type := spec_float.

Definition prec : Z := 53.
Definition emax : Z := 1024.

(** [x + y], [x * y], [x / y] on floats. *)
Definition add : float -> float -> float := SFadd prec emax.
Definition mul : float -> float -> float := SFmul prec emax.
Definition div : float -> float -> float := SFdiv prec emax.

(** [x < y], [x <= y], [x == y] and [x >= y]; each is [False] when one
    side is NaN. *)
Definition ltb : float -> float -> bool := SFltb.
Definition leb : float -> float -> bool := SFleb.
Definition eqb : float -> float -> bool := SFeqb.
Definition geb (x y : float) : bool := leb y x.

(** An integer as it stands, before any rounding. *)
Definition unrounded (n : Z) : float :=
  match n with
  | Z0 => S754_zero false
  | Zpos p => S754_finite false p 0
  | Zneg p => S754_finite true p 0
  end.

(** The quotient [n / d] of two integers, rounded once.  It is what
    Python computes for [n / d] on two ints, what a decimal literal with
    the digits [n] over the power of ten [d] denotes ([0.40] is
    [ratio 40 100]), and, with [d = 1], the float an int [n] is
    converted to. *)
Definition ratio (n : Z) (d : positive) : float :=
  div (unrounded n) (unrounded (Zpos d)).

Definition of_Z (n : Z) : float := ratio n 1.

Declare Scope f64_scope.
Delimit Scope f64_scope with f64.
Infix "+" := add : f64_scope.
Infix "*" := mul : f64_scope.
Infix "/" := div : f64_scope.
Infix "<?" := ltb : f64_scope.
Infix "<=?" := leb : f64_scope.
Infix "=?" := eqb : f64_scope.
Infix ">=?" := geb (at level 70) : f64_scope.

End Binary64.

(* ================================================================== *)
(** * The score comparison in binary floating point                     *)
(* ================================================================== *)

(** [_compare_ocr_results] and [_try_multiple_ocr_methods] once more, with
    the numbers of the result dictionaries as the binary64 floats Python
    holds and the score computed operation by operation, each one
    rounded.  An int under ['confidence'] stands for the float of the same
    value (the two behave alike in the products and comparisons below,
    for ints below 2^53). *)
Module Ocr64.

Import PyStr Binary64.
Local Open Scope f64_scope.

Record OcrResult : Type := mkOcrResult {
  success : bool;
  text : option string;
  confidence : option float;
  ocr_engine : string;
  hybrid_mode : option bool;
  comparison_score : option float
}.

(** [QUALITY_THRESHOLD = 70.0] *)
Definition QUALITY_THRESHOLD : float := ratio 700 10.

(** Python's [min(a, b)]: [b] when [b < a], else [a]. *)
Definition py_min (a b : float) : float := if b <? a then b else a.

(** The score [_compare_ocr_results] computes for one result:
<<
    text = result.get('text', '')
    confidence = result.get('confidence', 0)
    words = len([w for w in text.split() if len(w) > 2])
    score = (confidence * 0.40 +
             min(100, (len(text) / 500) * 100) * 0.30 +
             min(100, (words / 50) * 100) * 0.30)
>>
    [len(text) / 500] and [words / 50] divide two ints; the ints [0] and
    [100] meet floats and are converted. *)
Definition score_of (result : OcrResult) : float :=
  let txt := Ocr.get (text result) "" in
  let conf := Ocr.get (confidence result) (of_Z 0) in
  let words := Ocr.valid_words txt in
  conf * ratio 40 100
  + py_min (of_Z 100)
      (ratio (Z.of_nat (String.length txt)) 500 * of_Z 100) * ratio 30 100
  + py_min (of_Z 100)
      (ratio (Z.of_nat words) 50 * of_Z 100) * ratio 30 100.

(** [result['hybrid_mode'] = True; result['comparison_score'] = score] *)
Definition mark_hybrid (result : OcrResult) (sc : float) : OcrResult :=
  {| success := success result;
     text := text result;
     confidence := confidence result;
     ocr_engine := ocr_engine result;
     hybrid_mode := Some true;
     comparison_score := Some sc |}.

(** [_compare_ocr_results(self, ocr_result, tesseract_result)]:
<<
    if ocr_score >= tesseract_score:
        ocr_result['hybrid_mode'] = True
        ocr_result['comparison_score'] = ocr_score
        return ocr_result
    else:
        tesseract_result['hybrid_mode'] = True
        tesseract_result['comparison_score'] = tesseract_score
        return tesseract_result
>> *)
Definition _compare_ocr_results (ocr_result tesseract_result : OcrResult)
  : OcrResult :=
  let ocr_score := score_of ocr_result in
  let tesseract_score := score_of tesseract_result in
  if ocr_score >=? tesseract_score
  then mark_hybrid ocr_result ocr_score
  else mark_hybrid tesseract_result tesseract_score.

Inductive Outcome : Type :=
| Returned (result : OcrResult)
| Raised (e : Ocr.OcrError).

Local Notation "x <- m ;; k" := (Ocr.bind m (fun x => k))
  (at level 61, m at next level, right associativity).

Section Orchestrator.

Variable Image : Type.
Variable ocrspace_answer : Image -> string -> OcrResult.
Variable tesseract_answer : Image -> string -> OcrResult.

Definition _try_ocrspace_with_fallback (img : Image) (language : string)
  : Ocr.M OcrResult :=
  fun calls =>
    (ocrspace_answer img language, (calls ++ [Ocr.CallOcrSpace])%list).

Definition _try_tesseract_ocr (img : Image) (language : string)
  : Ocr.M OcrResult :=
  fun calls =>
    (tesseract_answer img language, (calls ++ [Ocr.CallTesseract])%list).

(** [_try_multiple_ocr_methods(self, processed_image, language, text_regions)]
    (the logger calls are left out):
<<
    ocr_result = self._try_ocrspace_with_fallback(...)
    if ocr_result.get('success'):
        ocr_confidence = ocr_result.get('confidence', 100)
        if ocr_confidence < QUALITY_THRESHOLD:
            tesseract_result = self._try_tesseract_ocr(...)
            if tesseract_result.get('success'):
                best_result = self._compare_ocr_results(ocr_result, tesseract_result)
                return best_result
        return ocr_result
    return self._try_tesseract_ocr(...)
>> *)
Definition _try_multiple_ocr_methods (processed_image : Image)
  (language : string) : Ocr.M Outcome :=
  ocr_result <- _try_ocrspace_with_fallback processed_image language ;;
  if success ocr_result then
    let ocr_confidence := Ocr.get (confidence ocr_result) (of_Z 100) in
    if ocr_confidence <? QUALITY_THRESHOLD then
      tesseract_result <- _try_tesseract_ocr processed_image language ;;
      if success tesseract_result then
        let best_result := _compare_ocr_results ocr_result tesseract_result in
        Ocr.ret (Returned best_result)
      else Ocr.ret (Returned ocr_result)
    else Ocr.ret (Returned ocr_result)
  else
    tesseract_result <- _try_tesseract_ocr processed_image language ;;
    Ocr.ret (Returned tesseract_result).

(** A run from the empty call list. *)
Definition run (processed_image : Image) (language : string)
  : Outcome * list Ocr.EngineCall :=
  _try_multiple_ocr_methods processed_image language [].

End Orchestrator.

Arguments _try_multiple_ocr_methods {Image} ocrspace_answer tesseract_answer
  processed_image language.
Arguments run {Image} ocrspace_answer tesseract_answer processed_image language.

(** ** The scoring rule as the specification words it *)

(** [0.40*confidence + 0.30*min(100, len(text)/500*100)
     + 0.30*min(100, wordCount(text)/50*100)], each operation rounded. *)
Definition spec_score (conf : float) (txt : string) : float :=
  ratio 40 100 * conf
  + ratio 30 100
    * py_min (of_Z 100) (ratio (Z.of_nat (String.length txt)) 500 * of_Z 100)
  + ratio 30 100
    * py_min (of_Z 100) (ratio (Z.of_nat (Ocr.wordCount txt)) 50 * of_Z 100).

End Ocr64.

(* ================================================================== *)
(** * Regular expressions ([re] in Python, [RegExp] in JavaScript)      *)
(* ================================================================== *)

Module Re.

Import PyStr.

(** The part of the pattern syntax the code uses: character classes,
    concatenation, alternation and repetition.  A literal character is
    a class of one element. *)
Inductive regex : Type :=
| Void
| Eps
| Class (p : ascii -> bool)
| Cat (r1 r2 : regex)
| Alt (r1 r2 : regex)
| Star (r : regex).

(** [r] matches the empty string. *)
Fixpoint nullable (r : regex) : bool :=
  match r with
  | Void => false
  | Eps => true
  | Class _ => false
  | Cat r1 r2 => nullable r1 && nullable r2
  | Alt r1 r2 => nullable r1 || nullable r2
  | Star _ => true
  end.

(** What is left of [r] to match once the character [c] is read. *)
Fixpoint deriv (c : ascii) (r : regex) : regex :=
  match r with
  | Void => Void
  | Eps => Void
  | Class p => if p c then Eps else Void
  | Cat r1 r2 =>
      if nullable r1
      then Alt (Cat (deriv c r1) r2) (deriv c r2)
      else Cat (deriv c r1) r2
  | Alt r1 r2 => Alt (deriv c r1) (deriv c r2)
  | Star r1 => Cat (deriv c r1) (Star r1)
  end.

(** [re.fullmatch(r, s) is not None] *)
Fixpoint fullmatch (r : regex) (s : string) : bool :=
  match s with
  | EmptyString => nullable r
  | String c s' => fullmatch (deriv c r) s'
  end.

(** Pattern syntax. *)
Definition any_char : regex := Class (fun _ => true).
Definition is_newline (c : ascii) : bool := Ascii.eqb c "010".
(** [.] *)
Definition dot : regex := Class (fun c => negb (is_newline c)).
(** [\d], [\s] *)
Definition digit : regex := Class isdigit.
Definition space : regex := Class isspace.
(** One literal character; with [re.IGNORECASE], in either case. *)
Definition chr (a : ascii) : regex := Class (Ascii.eqb a).
Definition chr_i (a : ascii) : regex :=
  Class (fun c => Ascii.eqb (to_lower a) (to_lower c)).
(** A literal word under [re.IGNORECASE]. *)
Fixpoint lit_i (w : string) : regex :=
  match w with
  | EmptyString => Eps
  | String a w' => Cat (chr_i a) (lit_i w')
  end.
(** [r?], [r+], [r{n}] *)
Definition opt (r : regex) : regex := Alt Eps r.
Definition plus (r : regex) : regex := Cat r (Star r).
Fixpoint times (n : nat) (r : regex) : regex :=
  match n with
  | O => Eps
  | S n' => Cat r (times n' r)
  end.

(** [re.search(r, s) is not None]: some part of [s] matches. *)
Definition search (r : regex) (s : string) : bool :=
  fullmatch (Cat (Star any_char) (Cat r (Star any_char))) s.

(** [re.match(r + '$', s) is not None]: Python's [$] stands at the end
    of the string or before a newline that ends it. *)
Definition match_to_end (r : regex) (s : string) : bool :=
  fullmatch (Cat r (opt (Class is_newline))) s.

(** [/^r$/.test(s)] in JavaScript (no flags): the whole of [s]. *)
Definition test_anchored (r : regex) (s : string) : bool := fullmatch r s.

(** The strings a pattern stands for. *)
Inductive lang : regex -> string -> Prop :=
| lang_eps : lang Eps EmptyString
| lang_class p c : p c = true -> lang (Class p) (String c EmptyString)
| lang_cat r1 r2 s1 s2 :
    lang r1 s1 -> lang r2 s2 -> lang (Cat r1 r2) (s1 ++ s2)
| lang_alt_l r1 r2 s : lang r1 s -> lang (Alt r1 r2) s
| lang_alt_r r1 r2 s : lang r2 s -> lang (Alt r1 r2) s
| lang_star_nil r : lang (Star r) EmptyString
| lang_star_cons r s1 s2 :
    lang r s1 -> lang (Star r) s2 -> lang (Star r) (s1 ++ s2).

End Re.

(* ================================================================== *)
(** * Fragments of the receipt parser quoted in the documents           *)
(* ================================================================== *)

Module ParserSource.

Import PyStr.

(** [r'\$?\d+\.\d{2}'] *)
Definition price_pattern : Re.regex :=
  Re.Cat (Re.opt (Re.chr "$"))
    (Re.Cat (Re.plus Re.digit)
       (Re.Cat (Re.chr ".") (Re.times 2 Re.digit))).

(** [sub_has_price = bool(re.search(r'\$?\d+\.\d{2}', next_stripped))] *)
Definition sub_has_price (next_stripped : string) : bool :=
  Re.search price_pattern next_stripped.

Section SubItem.

(** A price is a number or [None]; the three methods are the parser's
    own. *)
Variable Price : Type.
Variable extract_price_and_quantity : string -> Q * Price * string.
Variables clean_item_name _clean_sub_item_name : string -> string.

(** The name and price of a sub-item line under a parent priced [price]:
<<
    if sub_has_price:
        sub_quantity, sub_price, sub_item_name_raw = \
            self.extract_price_and_quantity(next_stripped)
        item_name = self.clean_item_name(sub_item_name_raw)
    else:
        item_name = self._clean_sub_item_name(next_stripped)
        sub_price = price
>> *)
Definition sub_item_name_and_price (price : Price) (next_stripped : string)
  : string * Price :=
  if sub_has_price next_stripped then
    let '(sub_quantity, sub_price, sub_item_name_raw) :=
      extract_price_and_quantity next_stripped in
    (clean_item_name sub_item_name_raw, sub_price)
  else
    (_clean_sub_item_name next_stripped, price).

End SubItem.

Arguments sub_item_name_and_price {Price} extract_price_and_quantity
  clean_item_name _clean_sub_item_name price next_stripped.

(** A digit, a full stop and two digits start [s]. *)
Definition decimals_here (s : string) : bool :=
  match s with
  | String a (String b (String c (String d _))) =>
      isdigit a && Ascii.eqb b "." && isdigit c && isdigit d
  | _ => false
  end.

(** [(?:one|two|\d+)] under [re.IGNORECASE] *)
Definition count_word : Re.regex :=
  Re.Alt (Re.lit_i "one") (Re.Alt (Re.lit_i "two") (Re.plus Re.digit)).

(** [[,\s;]] *)
Definition separator : Re.regex :=
  Re.Class (fun c => Ascii.eqb c "," || isspace c || Ascii.eqb c ";").

(** The promotional pattern, without its closing [$]:
<<
    r'^.*?buy\s+(?:one|two|\d+)[,\s;]*(?:get|receive)\s+(?:one|two|\d+).*$'
>> *)
Definition promo_pattern : Re.regex :=
  Re.Cat (Re.Star Re.dot)
    (Re.Cat (Re.lit_i "buy")
       (Re.Cat (Re.plus Re.space)
          (Re.Cat count_word
             (Re.Cat (Re.Star separator)
                (Re.Cat (Re.Alt (Re.lit_i "get") (Re.lit_i "receive"))
                   (Re.Cat (Re.plus Re.space)
                      (Re.Cat count_word (Re.Star Re.dot)))))))).

(** [re.match(pattern, line, re.IGNORECASE)]: the line is skipped. *)
Definition is_promo_line (line : string) : bool :=
  Re.match_to_end promo_pattern line.

End ParserSource.

(* ================================================================== *)
(** * The receipt parser ([intelligent_receipt_parser.py])              *)
(* ================================================================== *)

(** Modelled from the spec: the whole of this module.
    [intelligent_receipt_parser.py] is not among the sources; the
    enhancement summaries quote its blacklist and keyword tables, the step
    comments and patterns of [clean_item_name] and one fragment of
    [_parse_hierarchical_format].  The parser is therefore modelled from
    the specification (sections 3 and 4.3 to 4.6), with those quoted
    tables and that fragment where they exist.  The names of the parser's
    methods are kept. *)
Module Parser.

Import PyStr.
Open Scope Q_scope.

(** ** Data model *)

(** Modelled from the spec: the unit enumeration of a parsed item
    ([count, kg, g, lb, oz, l, ml]); the parser source is not at hand. *)
Inductive UnitOfMeasure : Type := Count | Kg | G | Lb | Oz | L | Ml.


(** Modelled from the spec: [ReceiptLine {rawText, indentLevel, hasPrice,
    lineNumber}], derived once from the winning text. *)
Record ReceiptLine : Type := mkLine {
  rawText : string;
  indentLevel : nat;
  hasPrice : bool;
  lineNumber : nat
}.


(** Modelled from the spec: the five line roles of the Line Classifier. *)
Inductive Role : Type :=
| Noise
| GroupHeader
| StandaloneItem
| SubItemOwnPrice
| SubItemInherited.

(** ** Numbers in text *)

(** Value of a string of decimal digits, most significant first. *)
Fixpoint digits_value (acc : N) (s : string) : N :=
  match s with
  | EmptyString => acc
  | String c s' => digits_value (10 * acc + (N_of_ascii c - 48)) s'
  end.

Fixpoint take_while (p : ascii -> bool) (s : string) : string :=
  match s with
  | String c s' => if p c then String c (take_while p s') else EmptyString
  | EmptyString => EmptyString
  end.

Fixpoint drop_while (p : ascii -> bool) (s : string) : string :=
  match s with
  | String c s' => if p c then drop_while p s' else s
  | EmptyString => EmptyString
  end.

Definition nonempty (s : string) : bool :=
  match s with EmptyString => false | _ => true end.

Definition N2Q (n : N) : Q := inject_Z (Z.of_N n).

(** All of [s] is decimal digits, at least one. *)
Definition is_int (s : string) : bool := nonempty s && forall_chars isdigit s.

Definition parse_int (s : string) : option N :=
  if is_int s then Some (digits_value 0 s) else None.

(** Modelled from the spec: numeric parsing of a token whose commas were
    stripped, as [float(s)] does for plain decimals: digits, at most one
    point, at least one digit. *)
Definition parse_decimal (s : string) : option Q :=
  let ip := take_while isdigit s in
  match drop_while isdigit s with
  | EmptyString =>
      if nonempty ip then Some (N2Q (digits_value 0 ip)) else None
  | String "." fp =>
      if forall_chars isdigit fp && (nonempty ip || nonempty fp)
      then Some (N2Q (digits_value 0 ip)
                 + N2Q (digits_value 0 fp)
                   / N2Q (10 ^ N.of_nat (String.length fp)))
      else None
  | _ => None
  end.

Definition is_comma (c : ascii) : bool := Ascii.eqb c ",".
Definition is_point (c : ascii) : bool := Ascii.eqb c ".".

(** Modelled from the spec: "strip thousands-separator commas before
    parsing numerically". *)
Definition strip_commas (s : string) : string := remove_chars is_comma s.

Definition strip_dollar (t : string) : string :=
  match t with
  | String "$" body => body
  | _ => t
  end.

Definition has_dollar (t : string) : bool :=
  match t with
  | String "$" _ => true
  | _ => false
  end.

Definition is_price_char (c : ascii) : bool :=
  isdigit c || is_comma c || is_point c.

(** A token shaped like a number: digits with separators, possibly after
    a currency sign. *)
Definition numeric_shaped (t : string) : bool :=
  let body := strip_dollar t in
  forall_chars is_price_char body && exists_chars isdigit body.

(** Modelled from the spec: a "currency-shaped decimal token": shaped like
    a number and carrying a currency sign or a decimal point. *)
Definition currency_shaped (t : string) : bool :=
  numeric_shaped t
  && (has_dollar t || exists_chars is_point (strip_dollar t)).

(** The number a price or amount token denotes, if it parses. *)
Definition parse_price (t : string) : option Q :=
  parse_decimal (strip_commas (strip_dollar t)).

(** The last element of [xs] satisfying [p]. *)
Fixpoint find_last {A : Type} (p : A -> bool) (xs : list A) : option A :=
  match xs with
  | [] => None
  | x :: xs' =>
      match find_last p xs' with
      | Some y => Some y
      | None => if p x then Some x else None
      end
  end.

(** [xs] without the last element satisfying [p]. *)
Fixpoint remove_last {A : Type} (p : A -> bool) (xs : list A) : list A :=
  match xs with
  | [] => []
  | x :: xs' =>
      if existsb p xs' then x :: remove_last p xs'
      else if p x then xs' else x :: xs'
  end.

(** Modelled from the spec: "Price: rightmost currency-shaped decimal token
    on the line". *)
Definition price_token (tokens : list string) : option string :=
  find_last currency_shaped tokens.

Definition line_has_price (raw : string) : bool :=
  existsb currency_shaped (split raw).

(** ** From text to lines *)

Definition is_newline (c : ascii) : bool := (N_of_ascii c =? 10)%N.

(** [text.split("\n")]; [cur] is the line being read. *)
Fixpoint lines_from (cur : string) (s : string) : list string :=
  match s with
  | EmptyString => [cur]
  | String c s' =>
      if is_newline c then cur :: lines_from EmptyString s'
      else lines_from (cur ++ String c EmptyString) s'
  end.

Definition splitlines (s : string) : list string := lines_from EmptyString s.

Definition is_blank (s : string) : bool := forall_chars isspace s.

(** Modelled from the spec: the [ReceiptLine]s of a text: one per
    non-blank line, numbered from 1 by position in the text, with the
    number of leading whitespace characters as indent level. *)
Fixpoint number_lines (n : nat) (raws : list string) : list ReceiptLine :=
  match raws with
  | [] => []
  | raw :: raws' =>
      if is_blank raw then number_lines (S n) raws'
      else mkLine raw (count_leading isspace raw) (line_has_price raw) n
           :: number_lines (S n) raws'
  end.

Definition receipt_lines (text : string) : list ReceiptLine :=
  number_lines 1 (splitlines text).

(** ** Name Cleaner *)

Fixpoint last_char (s : string) : option ascii :=
  match s with
  | EmptyString => None
  | String c EmptyString => Some c
  | String _ s' => last_char s'
  end.

(** [s[:-1]] *)
Fixpoint init (s : string) : string :=
  match s with
  | EmptyString => EmptyString
  | String _ EmptyString => EmptyString
  | String c s' => String c (init s')
  end.

(** [s.rstrip(chars)] for the characters satisfying [p]. *)
Fixpoint rstrip (p : ascii -> bool) (s : string) : string :=
  match s with
  | EmptyString => EmptyString
  | String c s' =>
      match rstrip p s' with
      | EmptyString => if p c then EmptyString else String c EmptyString
      | r => String c r
      end
  end.

(** Number of positions at which two words of equal length differ;
    [None] when the lengths differ. *)
Fixpoint mismatches (a b : string) : option nat :=
  match a, b with
  | EmptyString, EmptyString => Some 0%nat
  | String x a', String y b' =>
      match mismatches a' b' with
      | Some n => Some (if Ascii.eqb x y then n else S n)
      | None => None
      end
  | _, _ => None
  end.

(** Modelled from the spec: matching "tolerant of OCR letter-substitution
    errors via edit-distance": [w] is the canonical word up to one
    substituted letter (as in the documented "Duy Ona, Gel One"). *)
Definition near (canon w : string) : bool :=
  match mismatches canon w with
  | Some n => (n <=? 1)%nat
  | None => false
  end.

Definition is_sep_punct (c : ascii) : bool := is_comma c || Ascii.eqb c ";".

Definition promo_word (w : string) : string := lower (rstrip is_sep_punct w).

Definition is_buy (w : string) : bool := near "buy" (promo_word w).

Definition is_get (w : string) : bool :=
  near "get" (promo_word w) || near "receive" (promo_word w).

Definition is_count_word (w : string) : bool :=
  let v := promo_word w in near "one" v || near "two" v || is_int v.

(** Modelled from the spec: the canonical phrase grammar of "buy N get M"
    promotional phrasing: buy, a count, get or receive, a count. *)
Definition promo_at (a b c d : string) : bool :=
  is_buy a && is_count_word b && is_get c && is_count_word d.

(** Modelled from the spec: cleaning step (1), "strip generalized
    buy N get M promotional phrasing".  The step comment quotes the
    pattern [buy\s+(?:one|two|\d+)[,\s;]*(?:get|receive)\s+(?:one|two|\d+)],
    matched ignoring case. *)
Fixpoint strip_promo (ts : list string) : list string :=
  match ts with
  | a :: ts' =>
      match ts' with
      | b :: c :: d :: rest =>
          if promo_at a b c d then strip_promo rest else a :: strip_promo ts'
      | _ => ts
      end
  | [] => []
  end.

(** "Line" and the OCR variants the cleaning summary documents
    ("Une 1", "Lne 4"). *)
Definition is_line_word (w : string) : bool :=
  let v := lower w in
  String.eqb v "line" || String.eqb v "une" || String.eqb v "lne".

(** Modelled from the spec: cleaning step (2), "strip Line <n> references
    and its OCR variants", trailing or embedded.  The step comment quotes
    the pattern [\s*line\s+\d+\s*]. *)
Fixpoint strip_line_refs (ts : list string) : list string :=
  match ts with
  | a :: ts' =>
      match ts' with
      | b :: rest =>
          if is_line_word a && is_int b then strip_line_refs rest
          else a :: strip_line_refs ts'
      | [] => ts
      end
  | [] => []
  end.

Definition is_colon (c : ascii) : bool := Ascii.eqb c ":".

Definition drop_colon_suffix (t : string) : string :=
  match last_char t with
  | Some c => if is_colon c then init t else t
  | None => t
  end.

(** A 3 to 6 digit item code, optionally colon-suffixed. *)
Definition is_item_code (t : string) : bool :=
  let d := drop_colon_suffix t in
  forall_chars isdigit d
  && (3 <=? String.length d)%nat && (String.length d <=? 6)%nat.

(** Modelled from the spec: cleaning step (3), "strip leading 3-6-digit
    item codes (optionally colon-suffixed)".  The step comment quotes the
    pattern [^\d{3,6}[:\s]+]. *)
Fixpoint strip_codes (ts : list string) : list string :=
  match ts with
  | t :: rest => if is_item_code t then strip_codes rest else ts
  | [] => []
  end.

(** ASCII punctuation. *)
Definition is_punct (c : ascii) : bool :=
  let n := N_of_ascii c in
  (((33 <=? n) && (n <=? 47)) || ((58 <=? n) && (n <=? 64))
   || ((91 <=? n) && (n <=? 96)) || ((123 <=? n) && (n <=? 126)))%N.

Definition same_as (prev : option ascii) (c : ascii) : bool :=
  match prev with
  | Some p => Ascii.eqb p c
  | None => false
  end.

(** A run of one repeated punctuation character becomes a single one;
    [prev] is the character last kept. *)
Fixpoint collapse_from (prev : option ascii) (s : string) : string :=
  match s with
  | EmptyString => EmptyString
  | String c s' =>
      if is_punct c && same_as prev c then collapse_from prev s'
      else String c (collapse_from (Some c) s')
  end.

Definition collapse (t : string) : string := collapse_from None t.

(** Modelled from the spec: cleaning step (4), "collapse OCR punctuation
    artifacts and normalize whitespace"; whitespace is normalised by
    working on the whitespace-separated tokens and joining them with
    single spaces at the end. *)
Definition collapse_artifacts (ts : list string) : list string :=
  map collapse ts.

Definition is_word_char (c : ascii) : bool := isalnum c || Ascii.eqb c "_".

(** A parenthesised word such as [(500g)]. *)
Definition is_parenthetical (t : string) : bool :=
  match t with
  | String "(" r =>
      match last_char r with
      | Some c =>
          Ascii.eqb c ")"
          && nonempty (init r) && forall_chars is_word_char (init r)
      | None => false
      end
  | _ => false
  end.

Definition parse_unit (s : string) : option UnitOfMeasure :=
  let u := lower s in
  if String.eqb u "kg" then Some Kg
  else if String.eqb u "g" then Some G
  else if String.eqb u "lb" then Some Lb
  else if String.eqb u "oz" then Some Oz
  else if String.eqb u "l" then Some L
  else if String.eqb u "ml" then Some Ml
  else None.

Definition is_some {A : Type} (o : option A) : bool :=
  match o with Some _ => true | None => false end.

Definition not_slash (c : ascii) : bool := negb (Ascii.eqb c "/").

(** A unit-price token such as [$5.99/kg]. *)
Definition is_unit_price (t : string) : bool :=
  match drop_while not_slash t with
  | String _ u =>
      is_some (parse_price (take_while not_slash t)) && is_some (parse_unit u)
  | EmptyString => false
  end.

(** Trailing annotations dropped from the reversed token list. *)
Fixpoint strip_trailing_rev (rts : list string) : list string :=
  match rts with
  | t :: rest =>
      if is_parenthetical t then strip_trailing_rev rest
      else match rest with
           | a :: rest' =>
               if is_unit_price t && String.eqb a "@"
               then strip_trailing_rev rest' else rts
           | [] => rts
           end
  | [] => []
  end.

(** Modelled from the spec: cleaning step (5), "strip trailing
    measurement/unit-price annotations such as parenthetical weights or
    @ $x/kg".  The step comment quotes the pattern
    [\s*\(\s*\w+\s*\)\s*$] for the parenthetical. *)
Definition strip_trailing (ts : list string) : list string :=
  rev (strip_trailing_rev (rev ts)).

(** Modelled from the spec: cleaning step (6), "reject (mark invalid) any
    result shorter than 3 characters; otherwise title-case".  The rejected
    name is the empty string. *)
Definition finish (ts : list string) : string :=
  let s := join ts in
  if (String.length s <? 3)%nat then EmptyString else title s.

(** Modelled from the spec: the Name Cleaner, the ordered six-step
    pipeline of section 4.5 ([clean_item_name] in the parser; its body is
    missing, the sources only quote its step comments). *)
Definition clean_item_name (name : string) : string :=
  finish
    (strip_trailing
       (collapse_artifacts
          (strip_codes (strip_line_refs (strip_promo (split name)))))).

(** ** Item Extractor *)

(** What the extractor reads off one line. *)
Record Extracted : Type := mkExtracted {
  e_quantity : Q;
  e_unit : UnitOfMeasure;
  e_price : option Q;
  e_name : string
}.

(** A quantity rule looks at the tokens of a line (price token removed)
    and, when it matches, gives the quantity, the unit and the tokens
    left for the name. *)
Definition QuantityRule : Type :=
  list string -> option (Q * UnitOfMeasure * list string).

Definition starts_with_letter (t : string) : bool :=
  match t with
  | String c _ => isalpha c
  | EmptyString => false
  end.

(** Modelled from the spec: quantity rule (1), a leading multiplier
    embedded in the name text ("2 Burritos"). *)
Definition leading_multiplier : QuantityRule := fun ts =>
  match ts with
  | n :: rest =>
      match rest with
      | w :: _ =>
          match parse_int n with
          | Some q =>
              if (0 <? q)%N && starts_with_letter w
              then Some (N2Q q, Count, rest) else None
          | None => None
          end
      | [] => None
      end
  | [] => None
  end.

(** Modelled from the spec: quantity rule (2), a leading integer followed
    by a second token of three or more digits is a line/item-code pair;
    the integer is a discarded sequence number, not a quantity. *)
Definition line_code_pair : QuantityRule := fun ts =>
  match ts with
  | n :: c :: rest =>
      if is_int n && is_int c && (3 <=? String.length c)%nat
      then Some (1, Count, rest) else None
  | _ => None
  end.

Definition is_weight_char (c : ascii) : bool := isdigit c || is_point c.

(** [<decimal><unit>] in one token. *)
Definition parse_weight (t : string) : option (Q * UnitOfMeasure) :=
  match parse_decimal (take_while is_weight_char t),
        parse_unit (drop_while is_weight_char t) with
  | Some q, Some u => if Ocr.Qltb 0 q then Some (q, u) else None
  | _, _ => None
  end.

(** Modelled from the spec: quantity rule (3), the weight pattern
    [<decimal><unit> NET]. *)
Fixpoint weight_net (ts : list string)
  : option (Q * UnitOfMeasure * list string) :=
  match ts with
  | w :: ts' =>
      match ts' with
      | n :: rest =>
          match (if String.eqb (lower n) "net" then parse_weight w else None)
          with
          | Some (q, u) => Some (q, u, rest)
          | None =>
              match weight_net ts' with
              | Some (q, u, r) => Some (q, u, w :: r)
              | None => None
              end
          end
      | [] => None
      end
  | [] => None
  end.

(** The multiplication sign of a "qty x price" token: x, X, * or the
    times sign (code point 215). *)
Definition is_times (c : ascii) : bool :=
  Ascii.eqb c "x" || Ascii.eqb c "X" || Ascii.eqb c "*"
  || (N_of_ascii c =? 215)%N.

Definition parse_qty_times_price (t : string) : option N :=
  match drop_while isdigit t with
  | String c p =>
      if is_times c then
        match parse_int (take_while isdigit t), parse_price p with
        | Some n, Some _ => if (0 <? n)%N then Some n else None
        | _, _ => None
        end
      else None
  | EmptyString => None
  end.

(** Modelled from the spec: quantity rule (4), an explicit "qty x price"
    column token. *)
Fixpoint qty_times_price (ts : list string)
  : option (Q * UnitOfMeasure * list string) :=
  match ts with
  | t :: rest =>
      match parse_qty_times_price t with
      | Some n => Some (N2Q n, Count, rest)
      | None =>
          match qty_times_price rest with
          | Some (q, u, r) => Some (q, u, t :: r)
          | None => None
          end
      end
  | [] => None
  end.

(** The first rule of [rules] that matches decides. *)
Fixpoint first_match (rules : list QuantityRule) (ts : list string)
  : option (Q * UnitOfMeasure * list string) :=
  match rules with
  | [] => None
  | r :: rules' =>
      match r ts with
      | Some x => Some x
      | None => first_match rules' ts
      end
  end.

(** Modelled from the spec: "Quantity precedence (first match wins)",
    rules (1) to (4) in order. *)
Definition quantity_rules : list QuantityRule :=
  [leading_multiplier; line_code_pair; weight_net; qty_times_price].

(** Rule (5): the default quantity 1.0. *)
Definition extract_quantity (ts : list string)
  : Q * UnitOfMeasure * list string :=
  match first_match quantity_rules ts with
  | Some x => x
  | None => (1, Count, ts)
  end.

(** Modelled from the spec: the Item Extractor on one line
    ([extract_price_and_quantity] in the parser, which is missing from
    the sources): the price is the
    rightmost currency-shaped token parsed as a number, the quantity comes
    from the rules above, the name is the remaining text. *)
Definition extract_price_and_quantity (line : string) : Extracted :=
  let tokens := split line in
  let line_price :=
    match price_token tokens with
    | Some t => parse_price t
    | None => None
    end in
  let '(q, u, name_tokens) :=
    extract_quantity (remove_last currency_shaped tokens) in
  {| e_quantity := q; e_unit := u; e_price := line_price;
     e_name := join name_tokens |}.

(** ** Line Classifier *)

(** The exact-match blacklist: the terms the enhancement summaries list
    (financial, tax, payment, promotional, loyalty), with the financial
    terms the Totals Extractor keys on. *)
Definition blacklisted_terms : list string :=
  [ "take-out total"; "change"; "gst"; "tax"; "tip"; "subtotal"; "total";
    "credit card"; "cash"; "payment"; "buy one get one"; "bogo"; "discount";
    "special offer"; "survey"; "receipt"; "thank you"; "visit us";
    "loyalty"; "loyalty points"; "points"; "rewards"; "member savings";
    "loyalty discount"; "member discount"; "club discount";
    "m subtotal"; "l subtotal"; "s subtotal"; "xl subtotal";
    "special"; "grand total"; "balance due" ].

(** Blacklisted terms that are also plausible item names on their own
    ("SPECIAL  $0.99"). *)
Definition plausible_item_names : list string := [ "special" ].

(** The food keywords the enhancement summary lists. *)
Definition food_keywords : list string :=
  [ "burrito"; "pizza"; "taco"; "sandwich"; "nuggets"; "fries";
    "chicken"; "beef"; "pork"; "fish"; "bacon"; "sausage";
    "coffee"; "tea"; "juice"; "soda"; "cola"; "water";
    "lettuce"; "tomato"; "potato"; "onion"; "pepper";
    "milk"; "cheese"; "butter"; "yogurt"; "cream";
    "bread"; "rice"; "pasta"; "bagel"; "muffin" ].

Definition is_numeric_token (t : string) : bool := is_some (parse_price t).

(** The non-numeric content of a line, lower-cased, tokens joined by one
    space, without a trailing colon. *)
Definition label (raw : string) : string :=
  rstrip is_colon
    (join (filter (fun t => negb (is_numeric_token t)) (split (lower raw)))).

Definition is_colon_or_space (c : ascii) : bool := is_colon c || isspace c.
Definition is_space_or_dash (c : ascii) : bool := isspace c || Ascii.eqb c "-".
Definition is_dollar (c : ascii) : bool := Ascii.eqb c "$".

(** [^total[:\s]] *)
Definition pat_total_start (low : string) : bool :=
  match after_prefix "total" (drop_while isspace low) with
  | Some r => next_is is_colon_or_space r
  | None => false
  end.

(** [sub[\s-]*total] recognised at the start of [s]. *)
Definition sub_total_here (s : string) : bool :=
  match after_prefix "sub" s with
  | Some r => startswith "total" (drop_while is_space_or_dash r)
  | None => false
  end.

(** [^sub[\s-]*total] *)
Definition pat_subtotal_start (low : string) : bool :=
  sub_total_here (drop_while isspace low).

(** [change[:\s]*\$] *)
Definition pat_change (low : string) : bool :=
  search (fun s =>
            match after_prefix "change" s with
            | Some r => next_is is_dollar (drop_while is_colon_or_space r)
            | None => false
            end) low.

(** [payment[:\s]] *)
Definition pat_payment (low : string) : bool :=
  search (fun s =>
            match after_prefix "payment" s with
            | Some r => next_is is_colon_or_space r
            | None => false
            end) low.

(** Some four consecutive tokens are a "buy N get M" phrase. *)
Fixpoint has_promo (ts : list string) : bool :=
  match ts with
  | a :: ts' =>
      match ts' with
      | b :: c :: d :: _ => promo_at a b c d || has_promo ts'
      | _ => false
      end
  | [] => false
  end.

Definition exact_blacklisted (raw : string) : bool :=
  existsb (String.eqb (label raw)) blacklisted_terms.

(** The blacklist patterns the enhancement summary quotes. *)
Definition pattern_blacklisted (raw : string) : bool :=
  let low := lower raw in
  pat_total_start low || pat_subtotal_start low || pat_change low
  || pat_payment low || has_promo (split raw).

(** A bare plausible item word followed only by a price. *)
Definition bare_item_exception (raw : string) : bool :=
  match split raw with
  | [w; p] =>
      existsb (String.eqb (lower w)) plausible_item_names && currency_shaped p
  | _ => false
  end.

(** Modelled from the spec: the blacklist test ([is_blacklisted] in the
    parser, not quoted): an exact term or a pattern matches. *)
Definition is_blacklisted (raw : string) : bool :=
  exact_blacklisted raw || pattern_blacklisted raw.

(** Modelled from the spec: the food-keyword whitelist test
    ([is_likely_food_item] in the parser, not quoted). *)
Definition is_likely_food_item (low : string) : bool :=
  existsb (fun k => contains k low) food_keywords.

(** Blacklist membership is ambiguous when only a pattern matched, no
    exact term. *)
Definition ambiguous_blacklisting (raw : string) : bool :=
  negb (exact_blacklisted raw).

(** Modelled from the spec: the Noise test of section 4.3.  A line is
    noise when it matches the blacklist, unless it is a bare plausible
    item word with a price; a food keyword breaks the tie when the
    blacklist membership is ambiguous. *)
Definition is_noise (raw : string) : bool :=
  is_blacklisted raw
  && negb (bare_item_exception raw)
  && negb (ambiguous_blacklisting raw && is_likely_food_item (lower raw)).

Definition next_indented (next : option ReceiptLine) : bool :=
  match next with
  | Some n => (0 <? indentLevel n)%nat
  | None => false
  end.

(** Modelled from the spec: the Line Classifier of section 4.3 (the role
    decisions of the missing parser), as a function of the line and the
    line after it.  A line whose role is
    uncertain (not indented, no price, nothing indented after it) defaults
    to Noise. *)
Definition classify (line : ReceiptLine) (next : option ReceiptLine) : Role :=
  if is_noise (rawText line) then Noise
  else if (indentLevel line =? 0)%nat then
    if hasPrice line then StandaloneItem
    else if next_indented next then GroupHeader
    else Noise
  else if hasPrice line then SubItemOwnPrice
  else SubItemInherited.

(** Every line with its role, in document order. *)
Fixpoint classify_lines (ls : list ReceiptLine) : list (ReceiptLine * Role) :=
  match ls with
  | [] => []
  | l :: ls' => (l, classify l (hd_error ls')) :: classify_lines ls'
  end.

(** ** Items of a hierarchical receipt *)





(** Modelled from the spec: the name of a sub-item that has no price of
    its own ([_clean_sub_item_name] in the parser, not quoted): the
    extractor's name, cleaned. *)
Definition _clean_sub_item_name (next_stripped : string) : string :=
  clean_item_name (e_name (extract_price_and_quantity next_stripped)).






Section Items.

(** Continuation merging is opt-in per format. *)
Variable merge_continuations : bool.




End Items.

(** ** Totals Extractor *)

Inductive TotalKeyword : Type := KTotal | KSubtotal | KBalanceDue.

(** Some "total" of the line is prefixed by "sub". *)
Definition has_subtotal (low : string) : bool := search sub_total_here low.

(** Modelled from the spec: the keyword of a line, by priority: "total" or
    "grand total" not prefixed by "sub", then "subtotal", then
    "balance due". *)
Definition keyword_of (raw : string) : option TotalKeyword :=
  let low := lower raw in
  if contains "total" low && negb (has_subtotal low) then Some KTotal
  else if has_subtotal low then Some KSubtotal
  else if contains "balance due" low then Some KBalanceDue
  else None.

(** Modelled from the spec: "parse the matched numeric token after
    stripping thousands-separator commas": the value of the rightmost
    numeric token of the line. *)
Definition amount_of (raw : string) : option Q :=
  match find_last is_numeric_token (split raw) with
  | Some t => parse_price t
  | None => None
  end.

Record Totals : Type := mkTotals {
  t_total : option Q;
  t_subtotal : option Q;
  t_balance_due : option Q
}.

Definition set_total (k : TotalKeyword) (v : Q) (t : Totals) : Totals :=
  match k with
  | KTotal => mkTotals (Some v) (t_subtotal t) (t_balance_due t)
  | KSubtotal => mkTotals (t_total t) (Some v) (t_balance_due t)
  | KBalanceDue => mkTotals (t_total t) (t_subtotal t) (Some v)
  end.

(** What a classified line contributes: only Noise lines are scanned. *)
Definition total_entry (lr : ReceiptLine * Role) : option (TotalKeyword * Q) :=
  match snd lr with
  | Noise =>
      match keyword_of (rawText (fst lr)), amount_of (rawText (fst lr)) with
      | Some k, Some v => Some (k, v)
      | _, _ => None
      end
  | _ => None
  end.

Definition record_total (t : Totals) (lr : ReceiptLine * Role) : Totals :=
  match total_entry lr with
  | Some (k, v) => set_total k v t
  | None => t
  end.

(** Modelled from the spec: the Totals Extractor of section 4.6 (the
    totals code of the parser is missing); a later line overrides an
    earlier one of the same keyword. *)
Definition extract_totals (cls : list (ReceiptLine * Role)) : Totals :=
  fold_left record_total cls (mkTotals None None None).

(** No line of [cls] qualifies as a total line. *)
Definition no_total_line (cls : list (ReceiptLine * Role)) : Prop :=
  forall lr v, In lr cls -> total_entry lr <> Some (KTotal, v).

End Parser.

From Stdlib Require Import Qround DecimalString.

(* ================================================================== *)
(** * Tesseract variant selection ([enhanced_ocr_service.py])           *)
(* ================================================================== *)

Module Tesseract.

Open Scope Q_scope.

(** The score of one preprocessing variant:
<<
    score = (avg_confidence * 0.7) + (min(text_length / 10, 30) * 0.3)
>> *)
Definition variant_score (avg_confidence : Q) (text_length : nat) : Q :=
  (avg_confidence * 0.7)
  + (Ocr.py_min (inject_Z (Z.of_nat text_length) / 10) 30 * 0.3).

(** The result kept for the best variant. *)
Record BestResult : Type := mkBest {
  text : string;
  confidence : Q;
  variant_used : string
}.

(** One selection step:
<<
    if score > best_score and text_length > 20:
        best_result = {'text': extracted_text,
                       'confidence': avg_confidence,
                       'variant_used': variant_name}
>> *)
Definition select_variant (best_score : Q) (best_result : option BestResult)
  (extracted_text : string) (avg_confidence : Q) (text_length : nat)
  (variant_name : string) : option BestResult :=
  let score := variant_score avg_confidence text_length in
  if Ocr.Qltb best_score score && (20 <? text_length)%nat
  then Some (mkBest extracted_text avg_confidence variant_name)
  else best_result.

End Tesseract.

(* ================================================================== *)
(** * JavaScript: maps, dates and effects                               *)
(* ================================================================== *)

Module Js.

(** ** [Map<string, V>]

    The entries in insertion order.  [set] on a key that is present
    replaces its value where it stands; a new key goes to the end. *)
Definition Map (V : Type) : Type := list (string * V).

Fixpoint get {V : Type} (m : Map V) (key : string) : option V :=
  match m with
  | [] => None
  | (k, v) :: m' => if String.eqb k key then Some v else get m' key
  end.

Fixpoint set {V : Type} (m : Map V) (key : string) (value : V) : Map V :=
  match m with
  | [] => [(key, value)]
  | (k, v) :: m' =>
      if String.eqb k key then (k, value) :: m'
      else (k, v) :: set m' key value
  end.

(** [m.values()] *)
Definition values {V : Type} (m : Map V) : list V := List.map snd m.

(** ** Arrays *)

(** [xs.push(x)] *)
Definition push {A : Type} (xs : list A) (x : A) : list A := (xs ++ [x])%list.

(** [xs.includes(x)] on strings *)
Definition includes (xs : list string) (x : string) : bool :=
  existsb (String.eqb x) xs.

(** ** Strings *)

(** [s.charAt(pos)]: the empty string outside the string. *)
Definition charAt (s : string) (pos : Z) : string :=
  if (pos <? 0)%Z then EmptyString
  else match String.get (Z.to_nat pos) s with
       | Some c => String c EmptyString
       | None => EmptyString
       end.

(** [s.substring(from, to)] for [from <= to] *)
Definition substring (from to : nat) (s : string) : string :=
  String.substring from (to - from) s.

(** An integer in a template literal. *)
Definition string_of_int (n : Z) : string :=
  NilZero.string_of_int (Z.to_int n).

(** A string in a condition: the empty string is false. *)
Definition truthy (s : string) : bool := negb (String.eqb s EmptyString).

(** ** Dates

    A [Date] is its time value in milliseconds; [None] is the
    Invalid Date, whose time value is [NaN]. *)
Definition Date : Type := option Z.

(** [a > b] on dates: false when either is invalid. *)
Definition date_gt (a b : Date) : bool :=
  match a, b with
  | Some x, Some y => (y <? x)%Z
  | _, _ => false
  end.

(** ** The host

    What the host answers to [Date.now()] / [new Date()] and to
    [Math.random()], reading after reading. *)
Record Host : Type := mkHost {
  clock : nat -> Z;
  clock_reads : nat;
  random : nat -> Q;
  random_draws : nat
}.

(** ** JSON values

    What [JSON.parse] returns.  An object is the table of its
    properties, one per key. *)
#[warnings="-register-all"] Inductive Json : Type :=
| JNull
| JBool (b : bool)
| JNum (n : Q)
| JStr (s : string)
| JArr (items : list Json)
| JObj (fields : list (string * Json)).

(** A value in a condition; [None] is [undefined]. *)
Definition truthy_value (v : option Json) : bool :=
  match v with
  | None => false
  | Some JNull => false
  | Some (JBool b) => b
  | Some (JNum n) => negb (Qeq_bool n 0)
  | Some (JStr s) => truthy s
  | Some (JArr _) => true
  | Some (JObj _) => true
  end.

(** Conversions the runtime provides:
    [new Date(ms).toISOString()], [new Date(text)], [new Date(v)] for an
    array or object [v], [x.toString(36)], [JSON.stringify] of an object
    of string fields, and [JSON.parse], where [None] stands for the
    [SyntaxError] it throws. *)
Record Runtime : Type := mkRuntime {
  toISOString : Z -> string;
  Date_parse : string -> Date;
  Date_of_object : Json -> Date;
  toString36 : Q -> string;
  JSON_stringify : list (string * string) -> string;
  JSON_parse : string -> option Json
}.

(** [new Date(n)] for a number: the time value is [n] without its
    fraction, when it is within 8.64e15 milliseconds of the epoch. *)
Definition time_clip (n : Q) : Date :=
  if Qle_bool (Qabs n) 8640000000000000
  then Some (if Qle_bool 0 n then Qfloor n else Qceiling n)
  else None.

(** [new Date(v)]; [None] is [undefined]. *)
Definition new_Date (rt : Runtime) (v : option Json) : Date :=
  match v with
  | None => None
  | Some JNull => Some 0%Z
  | Some (JBool b) => Some (if b then 1 else 0)%Z
  | Some (JNum n) => time_clip n
  | Some (JStr s) => Date_parse rt s
  | Some (JArr items) => Date_of_object rt (JArr items)
  | Some (JObj fields) => Date_of_object rt (JObj fields)
  end.

(** ** Effects

    A call runs in a world made of the host and the service's static
    maps; it returns a value or throws an [Error] with a message.  What
    was written before a throw stays written. *)
Record World (St : Type) : Type := mkWorld {
  host : Host;
  store : St
}.

Arguments mkWorld {St} host store.
Arguments host {St} w.
Arguments store {St} w.

Inductive Completion (A : Type) : Type :=
| Return (a : A)
| Throw (message : string).

Arguments Return {A} a.
Arguments Throw {A} message.

Definition Eff (St A : Type) : Type := World St -> Completion A * World St.

Definition ret {St A : Type} (a : A) : Eff St A := fun w => (Return a, w).

Definition throw {St A : Type} (message : string) : Eff St A :=
  fun w => (Throw message, w).

Definition bind {St A B : Type} (m : Eff St A) (k : A -> Eff St B)
  : Eff St B :=
  fun w =>
    match m w with
    | (Return a, w') => k a w'
    | (Throw message, w') => (Throw message, w')
    end.

Notation "x <- m ;; k" := (bind m (fun x => k))
  (at level 61, m at next level, right associativity).

(** [try { m } catch (error) { handler(error.message) }] *)
Definition try_catch {St A : Type} (m : Eff St A)
  (handler : string -> Eff St A) : Eff St A :=
  fun w =>
    match m w with
    | (Return a, w') => (Return a, w')
    | (Throw message, w') => handler message w'
    end.

(** [JSON.parse(text)] *)
Definition parse {St : Type} (rt : Runtime) (text : string) : Eff St Json :=
  match JSON_parse rt text with
  | Some v => ret v
  | None => throw "SyntaxError"
  end.

(** [v.key]: a [TypeError] on [null], [undefined] where [v] has no such
    property. *)
Definition property {St : Type} (v : Json) (key : string)
  : Eff St (option Json) :=
  match v with
  | JNull => throw "TypeError"
  | JObj fields => ret (get fields key)
  | _ => ret None
  end.

(** The host after one reading of the clock, or one random number. *)
Definition tick (h : Host) : Host :=
  mkHost (clock h) (S (clock_reads h)) (random h) (random_draws h).

Definition draw (h : Host) : Host :=
  mkHost (clock h) (clock_reads h) (random h) (S (random_draws h)).

(** What the clock shows next. *)
Definition now (h : Host) : Z := clock h (clock_reads h).

(** [Date.now()], and the time value of [new Date()] *)
Definition Date_now {St : Type} : Eff St Z :=
  fun w => (Return (now (host w)), mkWorld (tick (host w)) (store w)).

(** [Math.random()] *)
Definition Math_random {St : Type} : Eff St Q :=
  fun w =>
    (Return (random (host w) (random_draws (host w))),
     mkWorld (draw (host w)) (store w)).

(** Reading and writing the static maps. *)
Definition read {St : Type} : Eff St St := fun w => (Return (store w), w).

Definition write {St : Type} (s : St) : Eff St unit :=
  fun w => (Return tt, mkWorld (host w) s).

End Js.

(* ================================================================== *)
(** * Family types ([types.ts])                                         *)
(* ================================================================== *)

Module FamilyMember.

Inductive Role : Type := admin | member.

Record t : Type := mk {
  id : string;
  familyId : string;
  userId : string;
  name : string;
  email : string;
  role : Role;
  joinedAt : string;
  isActive : bool;
  avatar : option string
}.

End FamilyMember.

Module Family.

Record t : Type := mk {
  id : string;
  name : string;
  createdBy : string;
  createdAt : string;
  inviteCode : string;
  qrCode : string;
  members : list FamilyMember.t;
  isActive : bool
}.

(** [family.members = ms] *)
Definition set_members (family : t) (ms : list FamilyMember.t) : t :=
  mk (id family) (name family) (createdBy family) (createdAt family)
     (inviteCode family) (qrCode family) ms (isActive family).

End Family.

Module FamilyInvite.

Record t : Type := mk {
  id : string;
  familyId : string;
  inviteCode : string;
  qrCode : string;
  createdBy : string;
  expiresAt : string;
  maxUses : option nat;
  usedCount : nat;
  isActive : bool
}.

(** [invite.usedCount++] *)
Definition use (invite : t) : t :=
  mk (id invite) (familyId invite) (inviteCode invite) (qrCode invite)
     (createdBy invite) (expiresAt invite) (maxUses invite)
     (S (usedCount invite)) (isActive invite).

End FamilyInvite.

(* ================================================================== *)
(** * Invite codes ([qr-service.ts])                                    *)
(* ================================================================== *)

Module QRCodeService.

Import Js.

Definition chars : string := "ABCDEFGHIJKLMNOPQRSTUVWXYZ0123456789".

(** [chars.charAt(Math.floor(r * chars.length))] *)
Definition pick (r : Q) : string :=
  charAt chars (Qfloor (r * inject_Z (Z.of_nat (String.length chars)))).

(** The loop of [generateInviteCode], with [n] rounds to go. *)
Fixpoint generate_from {St : Type} (n : nat) (result : string)
  : Eff St string :=
  match n with
  | O => ret result
  | S n' =>
      r <- Math_random ;;
      generate_from n' (result ++ pick r)
  end.

(** [generateInviteCode()] *)
Definition generateInviteCode {St : Type} : Eff St string :=
  generate_from 6 EmptyString.

(** [generateQRCode(familyId, inviteCode, expiresAt)] *)
Definition generateQRCode (rt : Runtime)
  (familyId inviteCode expiresAt : string) : string :=
  JSON_stringify rt
    [("type", "family_invite"); ("familyId", familyId);
     ("inviteCode", inviteCode); ("expiresAt", expiresAt)].

(** What [parseQRCode] returns when it does not return [null]. *)
Record QRData : Type := mkQRData {
  familyId : option Json;
  inviteCode : option Json;
  expiresAt : option Json
}.

(** [v !== 'family_invite'] *)
Definition is_not_family_invite (v : option Json) : bool :=
  match v with
  | Some (JStr s) => negb (String.eqb s "family_invite")
  | _ => true
  end.

(** [parseQRCode(qrData)] *)
Definition parseQRCode {St : Type} (rt : Runtime) (qrData : string)
  : Eff St (option QRData) :=
  try_catch
    (parsed <- parse rt qrData ;;
     type <- property parsed "type" ;;
     if is_not_family_invite type then ret None
     else
       now <- Date_now ;;
       expires <- property parsed "expiresAt" ;;
       let expiresAt := new_Date rt expires in
       if date_gt (Some now) expiresAt then ret None
       else
         familyId <- property parsed "familyId" ;;
         inviteCode <- property parsed "inviteCode" ;;
         expiresAt <- property parsed "expiresAt" ;;
         ret (Some (mkQRData familyId inviteCode expiresAt)))
    (fun error => ret None).

(** [[A-Z0-9]] *)
Definition code_char (c : ascii) : bool := PyStr.isupper c || PyStr.isdigit c.

(** [validateInviteCode(code)]: [/^[A-Z0-9]{6}$/.test(code)] *)
Definition validateInviteCode (code : string) : bool :=
  Re.test_anchored (Re.times 6 (Re.Class code_char)) code.

(** [isInviteExpired(expiresAt)] *)
Definition isInviteExpired {St : Type} (rt : Runtime) (expiresAt : string)
  : Eff St bool :=
  now <- Date_now ;;
  let expiryDate := Date_parse rt expiresAt in
  ret (date_gt (Some now) expiryDate).

End QRCodeService.

(* ================================================================== *)
(** * Families ([family-service.ts])                                    *)
(* ================================================================== *)

Module FamilyService.

Import Js.

(** The two static maps of the class. *)
Record Store : Type := mkStore {
  families : Map Family.t;
  invites : Map FamilyInvite.t
}.

Definition empty : Store := mkStore [] [].

(** [7 * 24 * 60 * 60 * 1000] *)
Definition seven_days : Z := 7 * 24 * 60 * 60 * 1000.

(** [member.userId === userId] *)
Definition is_user (userId : string) (member : FamilyMember.t) : bool :=
  String.eqb (FamilyMember.userId member) userId.

Section Service.

Variable rt : Runtime.

(** [createFamily(name, createdBy)] *)
Definition createFamily (name createdBy : string) : Eff Store Family.t :=
  t0 <- Date_now ;;
  r0 <- Math_random ;;
  let familyId :=
    "family_" ++ string_of_int t0 ++ "_"
      ++ substring 2 8 (toString36 rt r0) in
  inviteCode <- QRCodeService.generateInviteCode ;;
  t1 <- Date_now ;;
  let expiresAt := toISOString rt (t1 + seven_days) in
  let qrCode := QRCodeService.generateQRCode rt familyId inviteCode expiresAt in
  t2 <- Date_now ;;
  let family :=
    Family.mk familyId name createdBy (toISOString rt t2) inviteCode qrCode
              [] true in
  t3 <- Date_now ;;
  t4 <- Date_now ;;
  let adminMember :=
    FamilyMember.mk ("member_" ++ string_of_int t3) familyId createdBy
      "Family Admin" "admin@family.com" FamilyMember.admin
      (toISOString rt t4) true None in
  let family := Family.set_members family
                  (push (Family.members family) adminMember) in
  t5 <- Date_now ;;
  let invite :=
    FamilyInvite.mk ("invite_" ++ string_of_int t5) familyId inviteCode
      qrCode createdBy expiresAt None 0 true in
  st <- read ;;
  _ <- write (mkStore (set (families st) familyId family) (invites st)) ;;
  st <- read ;;
  _ <- write (mkStore (families st) (set (invites st) inviteCode invite)) ;;
  ret family.

(** [joinFamily(inviteCode, userId, userName, userEmail)] *)
Definition joinFamily (inviteCode userId userName userEmail : string)
  : Eff Store Family.t :=
  st <- read ;;
  match get (invites st) inviteCode with
  | None => throw "Invalid or expired invite code"
  | Some invite =>
      if negb (FamilyInvite.isActive invite)
      then throw "Invalid or expired invite code"
      else
        expired <- QRCodeService.isInviteExpired rt
                     (FamilyInvite.expiresAt invite) ;;
        if expired : bool then throw "Invite code has expired"
        else
          match get (families st) (FamilyInvite.familyId invite) with
          | None => throw "Family not found"
          | Some family =>
              match find (is_user userId) (Family.members family) with
              | Some existingMember =>
                  throw "User is already a member of this family"
              | None =>
                  t0 <- Date_now ;;
                  t1 <- Date_now ;;
                  let newMember :=
                    FamilyMember.mk ("member_" ++ string_of_int t0)
                      (Family.id family) userId userName userEmail
                      FamilyMember.member (toISOString rt t1) true None in
                  let family :=
                    Family.set_members family
                      (push (Family.members family) newMember) in
                  let invite := FamilyInvite.use invite in
                  _ <- write
                         (mkStore
                            (set (families st) (FamilyInvite.familyId invite)
                                 family)
                            (set (invites st) inviteCode invite)) ;;
                  ret family
              end
          end
  end.

(** [joinFamilyByQR(qrData, userId, userName, userEmail)].  The map of
    invites has strings for keys: [get] with any other value finds
    nothing, and [joinFamily] throws. *)
Definition joinFamilyByQR (qrData userId userName userEmail : string)
  : Eff Store Family.t :=
  parsedData <- QRCodeService.parseQRCode rt qrData ;;
  match parsedData with
  | None => throw "Invalid QR code"
  | Some data =>
      match QRCodeService.inviteCode data with
      | Some (JStr inviteCode) =>
          joinFamily inviteCode userId userName userEmail
      | _ => throw "Invalid or expired invite code"
      end
  end.

(** [getFamily(familyId)] *)
Definition getFamily (familyId : string) : Eff Store (option Family.t) :=
  st <- read ;;
  ret (get (families st) familyId).

(** [family.members.some(member => member.userId === userId)] *)
Definition has_member (userId : string) (family : Family.t) : bool :=
  existsb (is_user userId) (Family.members family).

(** [getFamilyByUserId(userId)] *)
Definition getFamilyByUserId (userId : string)
  : Eff Store (option Family.t) :=
  st <- read ;;
  ret (find (has_member userId) (values (families st))).

(** [removeMember(familyId, userId)] *)
Definition removeMember (familyId userId : string) : Eff Store bool :=
  st <- read ;;
  match get (families st) familyId with
  | None => ret false
  | Some family =>
      let family :=
        Family.set_members family
          (filter (fun member => negb (is_user userId member))
                  (Family.members family)) in
      _ <- write (mkStore (set (families st) familyId family) (invites st)) ;;
      ret true
  end.

(** [generateNewInvite(familyId, createdBy)] *)
Definition generateNewInvite (familyId createdBy : string)
  : Eff Store FamilyInvite.t :=
  st <- read ;;
  match get (families st) familyId with
  | None => throw "Family not found"
  | Some family =>
      inviteCode <- QRCodeService.generateInviteCode ;;
      t0 <- Date_now ;;
      let expiresAt := toISOString rt (t0 + seven_days) in
      let qrCode :=
        QRCodeService.generateQRCode rt familyId inviteCode expiresAt in
      t1 <- Date_now ;;
      let invite :=
        FamilyInvite.mk ("invite_" ++ string_of_int t1) familyId inviteCode
          qrCode createdBy expiresAt None 0 true in
      st <- read ;;
      _ <- write (mkStore (families st) (set (invites st) inviteCode invite)) ;;
      ret invite
  end.

End Service.

(** ** Runs of the service

    The calls that write to the maps, and a run of several of them one
    after the other.  A call that throws leaves the service running. *)
Inductive Call : Type :=
| CreateFamily (name createdBy : string)
| JoinFamily (inviteCode userId userName userEmail : string)
| RemoveMember (familyId userId : string)
| GenerateNewInvite (familyId createdBy : string).

Definition perform (rt : Runtime) (call : Call) (w : World Store)
  : World Store :=
  match call with
  | CreateFamily name createdBy => snd (createFamily rt name createdBy w)
  | JoinFamily inviteCode userId userName userEmail =>
      snd (joinFamily rt inviteCode userId userName userEmail w)
  | RemoveMember familyId userId => snd (removeMember familyId userId w)
  | GenerateNewInvite familyId createdBy =>
      snd (generateNewInvite rt familyId createdBy w)
  end.

Definition run_calls (rt : Runtime) (calls : list Call) (w : World Store)
  : World Store :=
  fold_left (fun w call => perform rt call w) calls w.

(** ** What holds of the maps *)

(** No string occurs twice. *)
Fixpoint distinct (xs : list string) : bool :=
  match xs with
  | [] => true
  | x :: xs' => negb (existsb (String.eqb x) xs') && distinct xs'
  end.

(** A family stands under its own id, lists no user twice, its members
    carry its id, and only its creator is an admin. *)
Definition member_ok (family : Family.t) (member : FamilyMember.t) : bool :=
  String.eqb (FamilyMember.familyId member) (Family.id family)
  && match FamilyMember.role member with
     | FamilyMember.admin =>
         String.eqb (FamilyMember.userId member) (Family.createdBy family)
     | FamilyMember.member => true
     end.

Definition family_ok (entry : string * Family.t) : bool :=
  let (key, family) := entry in
  String.eqb key (Family.id family)
  && distinct (List.map FamilyMember.userId (Family.members family))
  && forallb (member_ok family) (Family.members family).

(** An invite stands under its own code. *)
Definition invite_ok (entry : string * FamilyInvite.t) : bool :=
  let (key, invite) := entry in
  String.eqb key (FamilyInvite.inviteCode invite).

Definition consistent (st : Store) : bool :=
  distinct (List.map fst (families st))
  && distinct (List.map fst (invites st))
  && forallb family_ok (families st)
  && forallb invite_ok (invites st).

End FamilyService.

(* ================================================================== *)
(** * The family route ([api/family/route.ts])                          *)
(* ================================================================== *)

Module FamilyRoute.

Import Js.

(** [NextResponse.json({success, data, error}, {status})] *)
Record Response : Type := mkResponse {
  status : nat;
  success : bool;
  data : option (list Family.t);
  error : option string
}.

(** [GET(request)], with [userId] the value of
    [searchParams.get('userId')]: a string, or [null]. *)
Definition GET (userId : option string)
  : Eff FamilyService.Store Response :=
  try_catch
    (match userId with
     | None => ret (mkResponse 400 false None (Some "User ID required"))
     | Some userId =>
         if negb (truthy userId)
         then ret (mkResponse 400 false None (Some "User ID required"))
         else
           family <- FamilyService.getFamilyByUserId userId ;;
           let families :=
             match family with
             | Some f => [f]
             | None => []
             end in
           ret (mkResponse 200 true (Some families) None)
     end)
    (fun message => ret (mkResponse 500 false None (Some message))).

End FamilyRoute.

(* ================================================================== *)
(** * Family meal types ([types.ts])                                    *)
(* ================================================================== *)

Module FamilyMealIngredient.

Record t : Type := mk {
  id : string;
  name : string;
  quantity : string;
  unit : string;
  category : string;
  isAvailable : bool;
  needsShopping : bool
}.

(** [{...ing, id: newId}] *)
Definition with_id (ing : t) (newId : string) : t :=
  mk newId (name ing) (quantity ing) (unit ing) (category ing)
     (isAvailable ing) (needsShopping ing).

End FamilyMealIngredient.

Module FamilyMealNotification.

Record t : Type := mk {
  id : string;
  mealId : string;
  type : string;
  recipients : list string;
  scheduledFor : string;
  message : string;
  sent : bool;
  sentAt : option string
}.

(** [notification.sent = true; notification.sentAt = at] *)
Definition mark_sent (notification : t) (at_ : string) : t :=
  mk (id notification) (mealId notification) (type notification)
     (recipients notification) (scheduledFor notification)
     (message notification) true (Some at_).

End FamilyMealNotification.

Module FamilyMeal.

(** A meal's [notifications] array holds the notification objects
    themselves, which the service's map of notifications holds too; an
    object is named here by its place in the store's heap. *)
Record t : Type := mk {
  id : string;
  familyId : string;
  name : string;
  description : string;
  date : string;
  time : string;
  createdBy : string;
  participants : list string;
  ingredients : list FamilyMealIngredient.t;
  status : string;
  notifications : list nat;
  createdAt : string;
  updatedAt : string
}.

(** [meal.status = s; meal.updatedAt = at] *)
Definition set_status (meal : t) (s at_ : string) : t :=
  mk (id meal) (familyId meal) (name meal) (description meal) (date meal)
     (time meal) (createdBy meal) (participants meal) (ingredients meal)
     s (notifications meal) (createdAt meal) at_.

(** [meal.participants.push(userId); meal.updatedAt = at] *)
Definition add_participant (meal : t) (userId at_ : string) : t :=
  mk (id meal) (familyId meal) (name meal) (description meal) (date meal)
     (time meal) (createdBy meal) (Js.push (participants meal) userId)
     (ingredients meal) (status meal) (notifications meal) (createdAt meal)
     at_.

(** [meal.notifications.push(notification)] *)
Definition add_notification (meal : t) (notification : nat) : t :=
  mk (id meal) (familyId meal) (name meal) (description meal) (date meal)
     (time meal) (createdBy meal) (participants meal) (ingredients meal)
     (status meal) (Js.push (notifications meal) notification)
     (createdAt meal) (updatedAt meal).

End FamilyMeal.

Module ReminderTiming.

Record t : Type := mk {
  meals : Q;
  shopping : Q;
  expiry : Q
}.

(** The same with every field optional, as a request carries it. *)
Record partial : Type := mkPartial {
  meals_opt : option Q;
  shopping_opt : option Q;
  expiry_opt : option Q
}.

End ReminderTiming.

Module NotificationPreferences.

Record t : Type := mk {
  id : string;
  userId : string;
  familyId : option string;
  appNotifications : bool;
  whatsappNotifications : bool;
  emailNotifications : bool;
  mealReminders : bool;
  shoppingReminders : bool;
  expiryAlerts : bool;
  whatsappNumber : option string;
  emailAddress : option string;
  reminderTiming : ReminderTiming.t
}.

End NotificationPreferences.

(** [Partial<NotificationPreferences>]: a field that is absent, or
    [null], is [None]. *)
Module PartialPreferences.

Record t : Type := mk {
  familyId : option string;
  appNotifications : option bool;
  whatsappNotifications : option bool;
  emailNotifications : option bool;
  mealReminders : option bool;
  shoppingReminders : option bool;
  expiryAlerts : option bool;
  whatsappNumber : option string;
  emailAddress : option string;
  reminderTiming : option ReminderTiming.partial
}.

End PartialPreferences.

(* ================================================================== *)
(** * Family meals ([family-meal-service.ts])                           *)
(* ================================================================== *)

Module FamilyMealService.

Import Js.

(** The three static maps of the class, and the notification objects:
    the map of notifications and the meals' arrays name the same
    objects. *)
Record Store : Type := mkStore {
  meals : Map FamilyMeal.t;
  notifications : Map nat;
  heap : list FamilyMealNotification.t;
  preferences : Map NotificationPreferences.t
}.

Definition empty : Store := mkStore [] [] [] [].

(** The object at a place of the heap, and the heap with another object
    at that place. *)
Definition deref (st : Store) (place : nat)
  : option FamilyMealNotification.t :=
  nth_error (heap st) place.

Fixpoint update_at {A : Type} (xs : list A) (place : nat) (x : A) : list A :=
  match xs, place with
  | [], _ => []
  | _ :: xs', O => x :: xs'
  | y :: xs', S place' => y :: update_at xs' place' x
  end.

(** The notifications a meal shows: the objects its array names. *)
Definition meal_notifications (st : Store) (meal : FamilyMeal.t)
  : list FamilyMealNotification.t :=
  flat_map (fun place => match deref st place with
                         | Some notification => [notification]
                         | None => []
                         end)
           (FamilyMeal.notifications meal).

(** [a ?? b] *)
Definition nullish {A : Type} (a : option A) (b : A) : A :=
  match a with Some v => v | None => b end.

(** [a?.field] *)
Definition optional {A B : Type} (a : option A) (field : A -> option B)
  : option B :=
  match a with Some v => field v | None => None end.

Section Service.

Variable rt : Runtime.

(** [ingredients.map(ing => ({...ing, id: `ingredient_...`}))] *)
Fixpoint with_ids (ingredients : list FamilyMealIngredient.t)
  : Eff Store (list FamilyMealIngredient.t) :=
  match ingredients with
  | [] => ret []
  | ing :: rest =>
      t0 <- Date_now ;;
      r0 <- Math_random ;;
      let ing' :=
        FamilyMealIngredient.with_id ing
          ("ingredient_" ++ string_of_int t0 ++ "_"
             ++ substring 2 6 (toString36 rt r0)) in
      rest' <- with_ids rest ;;
      ret (ing' :: rest')
  end.

(** [createFamilyMeal(familyId, name, description, date, time, createdBy,
    ingredients)] *)
Definition createFamilyMeal
  (familyId name description date time createdBy : string)
  (ingredients : list FamilyMealIngredient.t) : Eff Store FamilyMeal.t :=
  t0 <- Date_now ;;
  r0 <- Math_random ;;
  let mealId :=
    "meal_" ++ string_of_int t0 ++ "_"
      ++ substring 2 8 (toString36 rt r0) in
  ingredients' <- with_ids ingredients ;;
  t1 <- Date_now ;;
  t2 <- Date_now ;;
  let meal :=
    FamilyMeal.mk mealId familyId name description date time createdBy
      [createdBy] ingredients' "planned" []
      (toISOString rt t1) (toISOString rt t2) in
  st <- read ;;
  _ <- write (mkStore (set (meals st) mealId meal) (notifications st)
                      (heap st) (preferences st)) ;;
  ret meal.

(** [getFamilyMeals(familyId)] *)
Definition getFamilyMeals (familyId : string)
  : Eff Store (list FamilyMeal.t) :=
  st <- read ;;
  let allMeals := values (meals st) in
  ret (filter (fun meal => String.eqb (FamilyMeal.familyId meal) familyId)
              allMeals).

(** [updateMealStatus(mealId, status)] *)
Definition updateMealStatus (mealId status : string)
  : Eff Store (option FamilyMeal.t) :=
  st <- read ;;
  match get (meals st) mealId with
  | None => ret None
  | Some meal =>
      t0 <- Date_now ;;
      let meal := FamilyMeal.set_status meal status (toISOString rt t0) in
      _ <- write (mkStore (set (meals st) mealId meal) (notifications st)
                          (heap st) (preferences st)) ;;
      ret (Some meal)
  end.

(** [addParticipant(mealId, userId)] *)
Definition addParticipant (mealId userId : string) : Eff Store bool :=
  st <- read ;;
  match get (meals st) mealId with
  | None => ret false
  | Some meal =>
      if negb (includes (FamilyMeal.participants meal) userId) then
        t0 <- Date_now ;;
        let meal :=
          FamilyMeal.add_participant meal userId (toISOString rt t0) in
        _ <- write (mkStore (set (meals st) mealId meal) (notifications st)
                            (heap st) (preferences st)) ;;
        ret true
      else ret true
  end.

(** [createMealNotification(mealId, type, recipients, scheduledFor,
    message)] *)
Definition createMealNotification (mealId type : string)
  (recipients : list string) (scheduledFor message : string)
  : Eff Store FamilyMealNotification.t :=
  t0 <- Date_now ;;
  r0 <- Math_random ;;
  let notificationId :=
    "notif_" ++ string_of_int t0 ++ "_"
      ++ substring 2 6 (toString36 rt r0) in
  let notification :=
    FamilyMealNotification.mk notificationId mealId type recipients
      scheduledFor message false None in
  st <- read ;;
  let place := List.length (heap st) in
  _ <- write (mkStore (meals st) (set (notifications st) notificationId place)
                      (heap st ++ [notification]) (preferences st)) ;;
  st <- read ;;
  match get (meals st) mealId with
  | Some meal =>
      let meal := FamilyMeal.add_notification meal place in
      _ <- write (mkStore (set (meals st) mealId meal) (notifications st)
                          (heap st) (preferences st)) ;;
      ret notification
  | None => ret notification
  end.

(** [getNotificationPreferences(userId)] *)
Definition getNotificationPreferences (userId : string)
  : Eff Store (option NotificationPreferences.t) :=
  st <- read ;;
  ret (get (preferences st) userId).

(** [updateNotificationPreferences(userId, preferences)] *)
Definition updateNotificationPreferences (userId : string)
  (prefs : PartialPreferences.t) : Eff Store NotificationPreferences.t :=
  st <- read ;;
  let existing := get (preferences st) userId in
  let updated :=
    NotificationPreferences.mk
      ("pref_" ++ userId)
      userId
      (PartialPreferences.familyId prefs)
      (nullish (PartialPreferences.appNotifications prefs) true)
      (nullish (PartialPreferences.whatsappNotifications prefs) false)
      (nullish (PartialPreferences.emailNotifications prefs) true)
      (nullish (PartialPreferences.mealReminders prefs) true)
      (nullish (PartialPreferences.shoppingReminders prefs) true)
      (nullish (PartialPreferences.expiryAlerts prefs) true)
      (PartialPreferences.whatsappNumber prefs)
      (PartialPreferences.emailAddress prefs)
      (ReminderTiming.mk
         (nullish (optional (PartialPreferences.reminderTiming prefs)
                            ReminderTiming.meals_opt) 30)
         (nullish (optional (PartialPreferences.reminderTiming prefs)
                            ReminderTiming.shopping_opt) 2)
         (nullish (optional (PartialPreferences.reminderTiming prefs)
                            ReminderTiming.expiry_opt) 1)) in
  _ <- write (mkStore (meals st) (notifications st) (heap st)
                      (set (preferences st) userId updated)) ;;
  ret updated.

(** [sendNotification(notificationId)] *)
Definition sendNotification (notificationId : string) : Eff Store bool :=
  st <- read ;;
  match get (notifications st) notificationId with
  | None => ret false
  | Some place =>
      match deref st place with
      | None => ret false
      | Some notification =>
          t0 <- Date_now ;;
          let notification :=
            FamilyMealNotification.mark_sent notification
              (toISOString rt t0) in
          _ <- write (mkStore (meals st)
                              (set (notifications st) notificationId place)
                              (update_at (heap st) place notification)
                              (preferences st)) ;;
          ret true
      end
  end.

End Service.

End FamilyMealService.

(* ================================================================== *)
(** * The meal status route ([family-meals/[id]/status/route.ts])       *)
(* ================================================================== *)

Module StatusRoute.

Import Js.

(** The body of the request: [await request.json()] and taking
    [status] from it threw an [Error] (the body is not JSON, or it is
    [null]), or gave the value of [status], [None] for [undefined]. *)
Inductive Body : Type :=
| Rejected (message : string)
| Parsed (status : option Json).

(** [NextResponse.json({success, data, error}, {status})] *)
Record Response : Type := mkResponse {
  status : nat;
  success : bool;
  data : option FamilyMeal.t;
  error : option string
}.

Definition validStatuses : list string :=
  ["planned"; "cooking"; "completed"; "cancelled"].

(** [validStatuses.includes(status)]: only a string can be included;
    the answer is the string when it is. *)
Definition valid_status (v : option Json) : option string :=
  match v with
  | Some (JStr s) => if includes validStatuses s then Some s else None
  | _ => None
  end.

Definition bad_request (message : string) : Response :=
  mkResponse 400 false None (Some message).

(** [PATCH(request, { params })] with [params.id = mealId] *)
Definition PATCH (rt : Runtime) (body : Body) (mealId : string)
  : Eff FamilyMealService.Store Response :=
  try_catch
    (match body with
     | Rejected message => throw message
     | Parsed status =>
         if negb (truthy_value status) then
           ret (bad_request "Status is required")
         else
           match valid_status status with
           | None =>
               ret (bad_request
                      "Invalid status. Must be one of: planned, cooking, completed, cancelled")
           | Some s =>
               meal <- FamilyMealService.updateMealStatus rt mealId s ;;
               match meal with
               | None =>
                   ret (mkResponse 404 false None (Some "Meal not found"))
               | Some m => ret (mkResponse 200 true (Some m) None)
               end
           end
     end)
    (fun message => ret (mkResponse 500 false None (Some message))).

End StatusRoute.

(* ================================================================== *)
(** * Sample inputs                                                     *)
(* ================================================================== *)

Module Examples.

Import Ocr.
Open Scope Q_scope.

(** Engine answers. *)
Definition failed (engine : string) : OcrResult :=
  mkOcrResult false None None engine None None.

Definition answer (engine txt : string) (conf : Q) : OcrResult :=
  mkOcrResult true (Some txt) (Some conf) engine None None.

Definition good_primary : OcrResult := answer "ocrspace" "Milk 2.99" 85.

Definition weak_primary : OcrResult := answer "ocrspace" "M1lk 2.99" 65.3.

Definition strong_secondary : OcrResult :=
  answer "tesseract" "Milk 2.99 Bread 1.50" 78.5.

(** An adapter that answers [r] whatever the image. *)
Definition always {Image : Type} (r : OcrResult)
  : Image -> string -> OcrResult :=
  fun _ _ => r.








Definition totals_text : string :=
  "Subtotal 1,000.0
Total 900.0
Total 1,060.0".

End Examples.

Module Examples64.

Import Binary64.

Definition answer (engine txt : string) (conf : float) : Ocr64.OcrResult :=
  Ocr64.mkOcrResult true (Some txt) (Some conf) engine None None.

(** An adapter that answers [r] whatever the image. *)
Definition always {Image : Type} (r : Ocr64.OcrResult)
  : Image -> string -> Ocr64.OcrResult :=
  fun _ _ => r.

(** [65.3] and [78.5] *)
Definition weak_primary : Ocr64.OcrResult :=
  answer "ocrspace" "M1lk 2.99" (ratio 653 10).

Definition strong_secondary : Ocr64.OcrResult :=
  answer "tesseract" "Milk 2.99 Bread 1.50" (ratio 785 10).

(** Two answers whose scores are 21.74 and 21.739999999999997 before
    rounding; computed, the second is the larger.  The confidences are
    [50] and [49.99999999999999]. *)
Definition milk_primary : Ocr64.OcrResult :=
  answer "ocrspace" "M1lk 2.99" (of_Z 50).

Definition milk_secondary : Ocr64.OcrResult :=
  answer "tesseract" "Milk 2 99 Br ea 1 5"
    (ratio 4999999999999999 100000000000000).

(** Two answers with the same text and the confidences
    [50.000000000000028] and [50.000000000000036], one float apart: the
    two computed scores are the same float. *)
Definition close_primary : Ocr64.OcrResult :=
  answer "ocrspace" "M1lk 2.99" (ratio 50000000000000028 1000000000000000).

Definition close_secondary : Ocr64.OcrResult :=
  answer "tesseract" "M1lk 2.99" (ratio 50000000000000036 1000000000000000).

End Examples64.

(* ================================================================== *)
(** * Sample hosts and requests                                         *)
(* ================================================================== *)

Module JsExamples.

Import Js.

(** A runtime that writes a date as its time value in decimal digits. *)
Definition digits_date (text : string) : Date :=
  match NilZero.int_of_string text with
  | Some n => Some (Z.of_int n)
  | None => None
  end.

(** Its JSON is the values of the four fields of a QR code, with bars
    between them. *)
Fixpoint bar_split (cur : string) (text : string) : list string :=
  match text with
  | EmptyString => [cur]
  | String c rest =>
      if Ascii.eqb c "|" then cur :: bar_split EmptyString rest
      else bar_split (cur ++ String c EmptyString) rest
  end.

Definition bar_parse (text : string) : option Json :=
  match bar_split EmptyString text with
  | [type; familyId; inviteCode; expiresAt] =>
      Some (JObj [("type", JStr type); ("familyId", JStr familyId);
                  ("inviteCode", JStr inviteCode);
                  ("expiresAt", JStr expiresAt)])
  | _ => None
  end.

Definition sample_runtime : Runtime :=
  mkRuntime string_of_int digits_date (fun _ => None)
            (fun _ => "0.k3x9q2m7")
            (fun fields => String.concat "|" (List.map snd fields))
            bar_parse.

(** A host whose clock advances by one millisecond per reading and whose
    random numbers run through [0/36, 5/36, 10/36, ...]. *)
Definition sample_host : Host :=
  mkHost (fun n => 1700000000000 + Z.of_nat n)%Z 0
         (fun n => inject_Z (Z.of_nat ((5 * n) mod 36)) / 36)%Q 0.

Definition fresh : World FamilyService.Store :=
  mkWorld sample_host FamilyService.empty.

(** The world after [createFamily("Smith", "alice")]. *)
Definition with_family : World FamilyService.Store :=
  snd (FamilyService.createFamily sample_runtime "Smith" "alice" fresh).

Definition smith_id : string := "family_1700000000000_k3x9q2".

Definition smith_code : string := "FKPUZ4".

(** What a call has returned, for calls that did return. *)
Definition no_family : Family.t :=
  Family.mk EmptyString EmptyString EmptyString EmptyString EmptyString
            EmptyString [] false.

Definition returned (c : Completion Family.t) : Family.t :=
  match c with
  | Return family => family
  | Throw _ => no_family
  end.

Definition found (c : Completion (option Family.t)) : Family.t :=
  match c with
  | Return (Some family) => family
  | _ => no_family
  end.

Definition smith : Family.t :=
  returned (fst (FamilyService.createFamily sample_runtime "Smith" "alice"
                   fresh)).

Definition jones : Family.t :=
  returned (fst (FamilyService.createFamily sample_runtime "Jones" "alice"
                   with_family)).

(** Bob joins the Smiths. *)
Definition join_bob : Completion Family.t * World FamilyService.Store :=
  FamilyService.joinFamily sample_runtime smith_code "bob" "Bob"
    "bob@example.org" with_family.

Definition smith_with_bob : Family.t := returned (fst join_bob).

Definition with_bob : World FamilyService.Store := snd join_bob.

(** QR data that names another family and a far expiry date, with the
    Smiths' invite code. *)
Definition forged_qr : string :=
  "family_invite|family_1|FKPUZ4|9999999999999999".

Definition smith_via_qr : Family.t :=
  returned (fst (FamilyService.joinFamilyByQR sample_runtime forged_qr "bob"
                   "Bob" "bob@example.org" with_family)).

(** Alice creates a second family and leaves the first. *)
Definition two_families : World FamilyService.Store :=
  snd (FamilyService.createFamily sample_runtime "Jones" "alice" with_family).

Definition alice_after_leaving : Family.t :=
  found (fst (FamilyService.getFamilyByUserId "alice"
                (snd (FamilyService.removeMember smith_id "alice"
                        two_families)))).

(** A dinner planned for the Smiths. *)
Definition no_meals : World FamilyMealService.Store :=
  mkWorld sample_host FamilyMealService.empty.

Definition plan_dinner
  : Completion FamilyMeal.t * World FamilyMealService.Store :=
  FamilyMealService.createFamilyMeal sample_runtime smith_id "Dinner"
    "Pasta" "2024-05-01" "19:00" "alice" [] no_meals.

Definition with_dinner : World FamilyMealService.Store := snd plan_dinner.

Definition dinner_id : string := "meal_1700000000000_k3x9q2".

Definition dinner : FamilyMeal.t :=
  FamilyMeal.mk dinner_id smith_id "Dinner" "Pasta" "2024-05-01" "19:00"
    "alice" ["alice"] [] "planned" [] "1700000000001" "1700000000002".

End JsExamples.

(* ================================================================== *)
(** * Properties of the orchestrator                                    *)
(* ================================================================== *)

Import PyStr.

Lemma length_snoc (s : string) (c : ascii) :
  String.length (s ++ String c EmptyString) = S (String.length s).
Proof.
  induction s as [|a s IH]; simpl; [reflexivity | now rewrite IH].
Qed.

(** The code's word count ([split], filter, [len]) is the count of
    whitespace-separated tokens longer than two characters. *)
Lemma valid_words_from (s cur : string) :
  List.length
    (filter (fun w => (2 <? String.length w)%nat) (split_from cur s))
  = Ocr.wordCount_from (String.length cur) s.
Proof.
  revert cur; induction s as [|c s IH]; intros cur; simpl.
  - destruct cur as [|a cur]; simpl; [reflexivity|].
    destruct (2 <? S (String.length cur))%nat; reflexivity.
  - destruct (isspace c).
    + destruct cur as [|a cur]; simpl.
      * apply (IH EmptyString).
      * destruct (2 <? S (String.length cur))%nat; simpl;
          now rewrite (IH EmptyString).
    + rewrite IH, length_snoc. reflexivity.
Qed.

Lemma valid_words_wordCount (txt : string) :
  Ocr.valid_words txt = Ocr.wordCount txt.
Proof. apply (valid_words_from txt EmptyString). Qed.

Lemma Qltb_true (x y : Q) : Ocr.Qltb x y = true <-> (x < y)%Q.
Proof.
  unfold Ocr.Qltb. rewrite negb_true_iff.
  split; intros H.
  - apply Qnot_le_lt. intros Hle.
    apply Qle_bool_iff in Hle. congruence.
  - destruct (Qle_bool y x) eqn:E; [|reflexivity].
    apply Qle_bool_iff in E. exfalso. exact (Qlt_not_le _ _ H E).
Qed.

Lemma Qltb_false (x y : Q) : Ocr.Qltb x y = false <-> (y <= x)%Q.
Proof.
  unfold Ocr.Qltb. rewrite negb_false_iff. apply Qle_bool_iff.
Qed.

Lemma compare_success (ocr tess : Ocr.OcrResult) :
  Ocr.success ocr = true -> Ocr.success tess = true ->
  Ocr.success (Ocr._compare_ocr_results ocr tess) = true.
Proof.
  intros H1 H2. unfold Ocr._compare_ocr_results.
  destruct (Ocr.Qgeb _ _); assumption.
Qed.

Section OrchestratorFacts.

Variable Image : Type.
Variables ocrspace tesseract : Image -> string -> Ocr.OcrResult.
Variable img : Image.
Variable language : string.

Let primary := ocrspace img language.
Let secondary := tesseract img language.

(** The three ways a run goes, by the code's own tests. *)
Lemma run_good_enough :
  Ocr.success primary = true ->
  Ocr.Qltb (Ocr.get (Ocr.confidence primary) 100) Ocr.QUALITY_THRESHOLD = false ->
  Ocr.run ocrspace tesseract img language
  = (Ocr.Returned primary, [Ocr.CallOcrSpace]).
Proof.
  intros Hs Hc. unfold Ocr.run, Ocr._try_multiple_ocr_methods, Ocr.bind,
    Ocr._try_ocrspace_with_fallback. simpl.
  fold primary. rewrite Hs, Hc. reflexivity.
Qed.

Lemma run_hybrid :
  Ocr.success primary = true ->
  Ocr.Qltb (Ocr.get (Ocr.confidence primary) 100) Ocr.QUALITY_THRESHOLD = true ->
  Ocr.run ocrspace tesseract img language
  = (Ocr.Returned (if Ocr.success secondary
                   then Ocr._compare_ocr_results primary secondary
                   else primary),
     [Ocr.CallOcrSpace; Ocr.CallTesseract]).
Proof.
  intros Hs Hc. unfold Ocr.run, Ocr._try_multiple_ocr_methods, Ocr.bind,
    Ocr._try_ocrspace_with_fallback, Ocr._try_tesseract_ocr. simpl.
  fold primary secondary. rewrite Hs, Hc.
  destruct (Ocr.success secondary); reflexivity.
Qed.

Lemma run_primary_failed :
  Ocr.success primary = false ->
  Ocr.run ocrspace tesseract img language
  = (Ocr.Returned secondary, [Ocr.CallOcrSpace; Ocr.CallTesseract]).
Proof.
  intros Hs. unfold Ocr.run, Ocr._try_multiple_ocr_methods, Ocr.bind,
    Ocr._try_ocrspace_with_fallback, Ocr._try_tesseract_ocr. simpl.
  fold primary secondary. rewrite Hs. reflexivity.
Qed.

(** Every run returns a result, and the result is a failure exactly when
    both engines failed. *)
Lemma run_returns_result :
  exists r,
    fst (Ocr.run ocrspace tesseract img language) = Ocr.Returned r
    /\ (Ocr.success r = false <->
        Ocr.success primary = false /\ Ocr.success secondary = false).
Proof.
  destruct (Ocr.success primary) eqn:Hs.
  - destruct (Ocr.Qltb (Ocr.get (Ocr.confidence primary) 100)
                       Ocr.QUALITY_THRESHOLD) eqn:Hc.
    + rewrite run_hybrid by assumption. simpl.
      eexists; split; [reflexivity|].
      destruct (Ocr.success secondary) eqn:Hs2.
      * rewrite compare_success by assumption. intuition congruence.
      * rewrite Hs. intuition congruence.
    + rewrite run_good_enough by assumption. simpl.
      eexists; split; [reflexivity|]. rewrite Hs. intuition congruence.
  - rewrite run_primary_failed by assumption. simpl.
    eexists; split; [reflexivity|]. intuition congruence.
Qed.

(** The earlier snapshot raises nothing either: it returns what the last
    engine it tried has answered. *)
Lemma v1_always_returns (manual : Image -> Ocr.OcrResult) :
  exists r,
    fst (Ocr._try_multiple_ocr_methods_v1 ocrspace tesseract manual
           img language [])
    = Ocr.Returned r
    /\ (r = secondary \/ r = primary \/ r = manual img).
Proof.
  unfold Ocr._try_multiple_ocr_methods_v1, Ocr.bind,
    Ocr._try_ocrspace_with_fallback, Ocr._try_tesseract_ocr,
    Ocr._fallback_text_extraction. simpl. fold primary secondary.
  destruct (Ocr.success secondary); simpl; [eauto|].
  destruct (Ocr.success primary); simpl; eauto.
Qed.

End OrchestratorFacts.

(** ** Binary64 values

    The literals of the scoring code and the scores of two sample answers,
    as mantissa and exponent: [0.40] is [0x1.999999999999ap-2], [0.30] is
    [0x1.3333333333333p-2], and the two scores are the neighbouring floats
    [0x1.5bd70a3d70a3dp+4] and [0x1.5bd70a3d70a3ep+4], which Python prints
    as [21.74] and [21.740000000000002]. *)
Example literals_of_the_score :
  Binary64.ratio 40 100 = S754_finite false 7205759403792794 (-54)
  /\ Binary64.ratio 30 100 = S754_finite false 5404319552844595 (-54)
  /\ Binary64.of_Z 100 = S754_finite false 7036874417766400 (-46)
  /\ Ocr64.QUALITY_THRESHOLD = S754_finite false 4925812092436480 (-46).
Proof. repeat split; vm_compute; reflexivity. Qed.

Example scores_of_the_milk_answers :
  Ocr64.score_of Examples64.milk_primary
  = S754_finite false 6119265993689661 (-48)
  /\ Ocr64.score_of Examples64.milk_secondary
     = S754_finite false 6119265993689662 (-48).
Proof. split; vm_compute; reflexivity. Qed.

(** ** Binary64 comparisons and products *)

(** Swapping the sides of a comparison turns its outcome around. *)
Lemma SFcompare_swap (x y : Binary64.float) :
  SFcompare y x = option_map CompOpp (SFcompare x y).
Proof.
  destruct x as [sx|sx| |sx mx ex], y as [sy|sy| |sy my ey]; simpl;
    try reflexivity;
    try (destruct sx; reflexivity); try (destruct sy; reflexivity);
    try (destruct sx, sy; reflexivity).
  destruct sx, sy; simpl; try reflexivity;
    rewrite (Z.compare_antisym ex ey);
    destruct (ex ?= ey)%Z; simpl; try reflexivity;
    now rewrite (Pos.compare_cont_antisym mx my Eq).
Qed.

Lemma geb_of_eqb (x y : Binary64.float) :
  Binary64.eqb x y = true -> Binary64.geb x y = true.
Proof.
  unfold Binary64.eqb, Binary64.geb, Binary64.leb, SFeqb, SFleb.
  rewrite (SFcompare_swap x y).
  destruct (SFcompare x y) as [[ | | ]|]; simpl; congruence.
Qed.

Lemma geb_of_ltb (x y : Binary64.float) :
  Binary64.ltb y x = true -> Binary64.geb x y = true.
Proof.
  unfold Binary64.ltb, Binary64.geb, Binary64.leb, SFltb, SFleb.
  destruct (SFcompare y x) as [[ | | ]|]; simpl; congruence.
Qed.

Lemma geb_false_of_ltb (x y : Binary64.float) :
  Binary64.ltb x y = true -> Binary64.geb x y = false.
Proof.
  unfold Binary64.ltb, Binary64.geb, Binary64.leb, SFltb, SFleb.
  rewrite (SFcompare_swap x y).
  destruct (SFcompare x y) as [[ | | ]|]; simpl; congruence.
Qed.

Lemma ltb_irrefl (x : Binary64.float) : Binary64.ltb x x = false.
Proof.
  destruct (Binary64.ltb x x) eqn:E; [|reflexivity].
  pose proof (geb_of_ltb _ _ E) as H1.
  pose proof (geb_false_of_ltb _ _ E) as H2. congruence.
Qed.

(** Multiplication is commutative, rounding included. *)
Lemma mul_comm (x y : Binary64.float) : Binary64.mul x y = Binary64.mul y x.
Proof.
  unfold Binary64.mul.
  destruct x as [sx|sx| |sx mx ex], y as [sy|sy| |sy my ey]; simpl;
    try reflexivity; try (now rewrite xorb_comm).
  now rewrite xorb_comm, Pos.mul_comm, Z.add_comm.
Qed.

(** The score the code computes is the specification's formula. *)
Lemma score_of_spec (r : Ocr64.OcrResult) :
  Ocr64.score_of r
  = Ocr64.spec_score (Ocr.get (Ocr64.confidence r) (Binary64.of_Z 0))
                     (Ocr.get (Ocr64.text r) EmptyString).
Proof.
  unfold Ocr64.score_of, Ocr64.spec_score.
  rewrite valid_words_wordCount.
  rewrite (mul_comm (Binary64.ratio 40 100)).
  rewrite !(mul_comm (Binary64.ratio 30 100)).
  reflexivity.
Qed.

Lemma compare64_picks_first (ocr tess : Ocr64.OcrResult) :
  Binary64.geb (Ocr64.score_of ocr) (Ocr64.score_of tess) = true ->
  Ocr64._compare_ocr_results ocr tess
  = Ocr64.mark_hybrid ocr (Ocr64.score_of ocr).
Proof. intros H. unfold Ocr64._compare_ocr_results. now rewrite H. Qed.

Lemma compare64_picks_second (ocr tess : Ocr64.OcrResult) :
  Binary64.geb (Ocr64.score_of ocr) (Ocr64.score_of tess) = false ->
  Ocr64._compare_ocr_results ocr tess
  = Ocr64.mark_hybrid tess (Ocr64.score_of tess).
Proof. intros H. unfold Ocr64._compare_ocr_results. now rewrite H. Qed.

Lemma run64_hybrid (Image : Type)
  (ocrspace tesseract : Image -> string -> Ocr64.OcrResult)
  (img : Image) (language : string) :
  Ocr64.success (ocrspace img language) = true ->
  Binary64.ltb (Ocr.get (Ocr64.confidence (ocrspace img language))
                  (Binary64.of_Z 100))
               Ocr64.QUALITY_THRESHOLD = true ->
  Ocr64.success (tesseract img language) = true ->
  Ocr64.run ocrspace tesseract img language
  = (Ocr64.Returned
       (Ocr64._compare_ocr_results (ocrspace img language)
          (tesseract img language)),
     [Ocr.CallOcrSpace; Ocr.CallTesseract]).
Proof.
  intros Hs Hc Hs2.
  unfold Ocr64.run, Ocr64._try_multiple_ocr_methods, Ocr.bind,
    Ocr64._try_ocrspace_with_fallback, Ocr64._try_tesseract_ocr. simpl.
  rewrite Hs, Hc, Hs2. reflexivity.
Qed.

(** ** The orchestrator against the specification *)

(** C1.  Hybrid mode.  When the primary engine succeeded with a confidence
    below the quality threshold and the secondary engine succeeded as
    well, the orchestrator calls both engines, gives each candidate the
    score [0.40*confidence + 0.30*min(100, len(text)/500*100)
    + 0.30*min(100, wordCount(text)/50*100)], where [wordCount] counts the
    whitespace-separated tokens longer than two characters, and returns
    the candidate with the higher score, marked as hybrid.  The scores
    are the floats Python computes, and it is these that are compared. *)
Theorem C1_hybrid_returns_higher_score
  (Image : Type) (ocrspace tesseract : Image -> string -> Ocr64.OcrResult)
  (img : Image) (language : string) :
  let primary := ocrspace img language in
  let secondary := tesseract img language in
  let score r :=
    Ocr64.spec_score (Ocr.get (Ocr64.confidence r) (Binary64.of_Z 0))
                     (Ocr.get (Ocr64.text r) EmptyString) in
  Ocr64.success primary = true ->
  Binary64.ltb (Ocr.get (Ocr64.confidence primary) (Binary64.of_Z 100))
               Ocr64.QUALITY_THRESHOLD = true ->
  Ocr64.success secondary = true ->
  exists best,
    Ocr64.run ocrspace tesseract img language
    = (Ocr64.Returned best, [Ocr.CallOcrSpace; Ocr.CallTesseract])
    /\ Ocr64.score_of primary = score primary
    /\ Ocr64.score_of secondary = score secondary
    /\ (Binary64.ltb (score secondary) (score primary) = true ->
        best = Ocr64.mark_hybrid primary (score primary))
    /\ (Binary64.ltb (score primary) (score secondary) = true ->
        best = Ocr64.mark_hybrid secondary (score secondary))
    /\ Ocr64.hybrid_mode best = Some true.
Proof.
  intros primary secondary score Hs Hc Hs2.
  exists (Ocr64._compare_ocr_results primary secondary).
  split; [now apply run64_hybrid|].
  split; [apply score_of_spec|]. split; [apply score_of_spec|].
  unfold score. rewrite <- !score_of_spec.
  split; [|split].
  - intros H. apply compare64_picks_first. now apply geb_of_ltb.
  - intros H. apply compare64_picks_second. now apply geb_false_of_ltb.
  - unfold Ocr64._compare_ocr_results.
    destruct (Binary64.geb _ _); reflexivity.
Qed.

Lemma C1_hybrid_returns_higher_score_witness :
  Ocr64.success Examples64.milk_primary = true
  /\ Binary64.ltb
       (Ocr.get (Ocr64.confidence Examples64.milk_primary)
          (Binary64.of_Z 100))
       Ocr64.QUALITY_THRESHOLD = true
  /\ Ocr64.success Examples64.milk_secondary = true
  /\ Binary64.ltb (Ocr64.score_of Examples64.milk_primary)
                  (Ocr64.score_of Examples64.milk_secondary) = true
  /\ Ocr64.run (Examples64.always Examples64.milk_primary)
               (Examples64.always Examples64.milk_secondary) tt "eng"
     = (Ocr64.Returned
          (Ocr64.mark_hybrid Examples64.milk_secondary
             (Ocr64.score_of Examples64.milk_secondary)),
        [Ocr.CallOcrSpace; Ocr.CallTesseract]).
Proof.
  split; [reflexivity|]. split; [vm_compute; reflexivity|].
  split; [reflexivity|]. split; [vm_compute; reflexivity|].
  destruct (C1_hybrid_returns_higher_score Datatypes.unit
              (Examples64.always Examples64.milk_primary)
              (Examples64.always Examples64.milk_secondary) tt "eng")
    as [best [Hrun [_ [E2 [_ [Hsec _]]]]]];
    [reflexivity | vm_compute; reflexivity | reflexivity |].
  rewrite Hrun. rewrite Hsec; [|vm_compute; reflexivity].
  rewrite <- E2. reflexivity.
Defined.

(** C2.  When the primary engine succeeds with a confidence of at least
    70, the orchestrator returns the primary engine's result unchanged and
    the secondary engine is not called.  (The confidence is read with
    [.get('confidence', 100)]: a result without one counts as 100.) *)
Theorem C2_good_primary_returned_alone
  (Image : Type) (ocrspace tesseract : Image -> string -> Ocr.OcrResult)
  (img : Image) (language : string) :
  Ocr.success (ocrspace img language) = true ->
  (70 <= Ocr.get (Ocr.confidence (ocrspace img language)) 100)%Q ->
  Ocr.run ocrspace tesseract img language
  = (Ocr.Returned (ocrspace img language), [Ocr.CallOcrSpace])
  /\ ~ In Ocr.CallTesseract
          (snd (Ocr.run ocrspace tesseract img language)).
Proof.
  intros Hs Hge.
  assert (E : Ocr.run ocrspace tesseract img language
              = (Ocr.Returned (ocrspace img language), [Ocr.CallOcrSpace])).
  { apply run_good_enough; [assumption|].
    apply Qltb_false. unfold Ocr.QUALITY_THRESHOLD. lra. }
  split; [exact E|]. rewrite E. simpl. intros [H|[]]. discriminate H.
Qed.

Lemma C2_good_primary_returned_alone_witness :
  Ocr.success Examples.good_primary = true
  /\ (70 <= Ocr.get (Ocr.confidence Examples.good_primary) 100)%Q
  /\ Ocr.run (Examples.always Examples.good_primary)
             (Examples.always Examples.strong_secondary) tt "eng"
     = (Ocr.Returned Examples.good_primary, [Ocr.CallOcrSpace])
  /\ ~ In Ocr.CallTesseract
          (snd (Ocr.run (Examples.always Examples.good_primary)
                        (Examples.always Examples.strong_secondary) tt "eng")).
Proof.
  split; [reflexivity|]. split; [discriminate|].
  apply (C2_good_primary_returned_alone unit
           (Examples.always Examples.good_primary)
           (Examples.always Examples.strong_secondary) tt "eng");
    [reflexivity | discriminate].
Defined.

(** C3, as the specification states it, fails: with both engines failing
    the orchestrator raises nothing; it returns the secondary engine's
    failure result. *)
Lemma C3_no_error_raised_counterexample :
  Ocr.success (Examples.failed "ocrspace") = false
  /\ Ocr.success (Examples.failed "tesseract") = false
  /\ fst (Ocr.run (Examples.always (Examples.failed "ocrspace"))
                  (Examples.always (Examples.failed "tesseract")) tt "eng")
     = Ocr.Returned (Examples.failed "tesseract")
  /\ fst (Ocr.run (Examples.always (Examples.failed "ocrspace"))
                  (Examples.always (Examples.failed "tesseract")) tt "eng")
     <> Ocr.Raised Ocr.OcrUnavailable.
Proof.
  repeat split; try reflexivity. discriminate.
Qed.

(** C3, amended.  If the primary engine fails outright, the orchestrator
    calls the secondary engine and returns its result unchanged, without
    the scoring comparison.  The orchestrator raises no error: it always
    returns a result, and that result is a failure (its success flag is
    false) if and only if both engines fail. *)
Theorem C3_fallback_and_failure_result
  (Image : Type) (ocrspace tesseract : Image -> string -> Ocr.OcrResult)
  (img : Image) (language : string) :
  (Ocr.success (ocrspace img language) = false ->
   Ocr.run ocrspace tesseract img language
   = (Ocr.Returned (tesseract img language),
      [Ocr.CallOcrSpace; Ocr.CallTesseract]))
  /\ exists r,
       fst (Ocr.run ocrspace tesseract img language) = Ocr.Returned r
       /\ (Ocr.success r = false <->
           Ocr.success (ocrspace img language) = false
           /\ Ocr.success (tesseract img language) = false).
Proof.
  split; [apply run_primary_failed | apply run_returns_result].
Qed.

Lemma C3_fallback_and_failure_result_witness :
  Ocr.success (Examples.failed "ocrspace") = false
  /\ Ocr.run (Examples.always (Examples.failed "ocrspace"))
             (Examples.always Examples.strong_secondary) tt "eng"
     = (Ocr.Returned Examples.strong_secondary,
        [Ocr.CallOcrSpace; Ocr.CallTesseract]).
Proof.
  split; [reflexivity|].
  apply (proj1 (C3_fallback_and_failure_result unit
                  (Examples.always (Examples.failed "ocrspace"))
                  (Examples.always Examples.strong_secondary) tt "eng")).
  reflexivity.
Defined.

(** C10.  When the two scores are equal the comparison returns the primary
    engine's result (the test is [>=]), and so does the orchestrator in
    hybrid mode; and every comparison returns one of its two inputs, with
    [hybrid_mode] set to [True] and its score recorded.  The scores are
    the floats Python computes. *)
Theorem C10_tie_goes_to_primary
  (Image : Type) (ocrspace tesseract : Image -> string -> Ocr64.OcrResult)
  (img : Image) (language : string) :
  let ocr_result := ocrspace img language in
  let tesseract_result := tesseract img language in
  (Binary64.eqb (Ocr64.score_of ocr_result)
                (Ocr64.score_of tesseract_result) = true ->
   Ocr64._compare_ocr_results ocr_result tesseract_result
   = Ocr64.mark_hybrid ocr_result (Ocr64.score_of ocr_result)
   /\ (Ocr64.success ocr_result = true ->
       Binary64.ltb (Ocr.get (Ocr64.confidence ocr_result)
                       (Binary64.of_Z 100))
                    Ocr64.QUALITY_THRESHOLD = true ->
       Ocr64.success tesseract_result = true ->
       fst (Ocr64.run ocrspace tesseract img language)
       = Ocr64.Returned
           (Ocr64.mark_hybrid ocr_result (Ocr64.score_of ocr_result))))
  /\ (exists winner,
        (winner = ocr_result \/ winner = tesseract_result)
        /\ Ocr64._compare_ocr_results ocr_result tesseract_result
           = Ocr64.mark_hybrid winner (Ocr64.score_of winner))
  /\ Ocr64.hybrid_mode
       (Ocr64._compare_ocr_results ocr_result tesseract_result)
     = Some true.
Proof.
  intros ocr_result tesseract_result.
  split; [|split].
  - intros H.
    assert (E : Ocr64._compare_ocr_results ocr_result tesseract_result
                = Ocr64.mark_hybrid ocr_result (Ocr64.score_of ocr_result))
      by (apply compare64_picks_first; now apply geb_of_eqb).
    split; [exact E|]. intros Hs Hc Hs2.
    rewrite run64_hybrid by assumption. simpl.
    fold ocr_result tesseract_result. now rewrite E.
  - unfold Ocr64._compare_ocr_results. destruct (Binary64.geb _ _).
    + exists ocr_result. split; [now left | reflexivity].
    + exists tesseract_result. split; [now right | reflexivity].
  - unfold Ocr64._compare_ocr_results.
    destruct (Binary64.geb _ _); reflexivity.
Qed.

Lemma C10_tie_goes_to_primary_witness :
  Binary64.eqb (Ocr64.score_of Examples64.close_primary)
               (Ocr64.score_of Examples64.close_secondary) = true
  /\ Ocr64._compare_ocr_results Examples64.close_primary
       Examples64.close_secondary
     = Ocr64.mark_hybrid Examples64.close_primary
         (Ocr64.score_of Examples64.close_primary)
  /\ fst (Ocr64.run (Examples64.always Examples64.close_primary)
            (Examples64.always Examples64.close_secondary) tt "eng")
     = Ocr64.Returned
         (Ocr64.mark_hybrid Examples64.close_primary
            (Ocr64.score_of Examples64.close_primary)).
Proof.
  split; [vm_compute; reflexivity|].
  destruct (proj1 (C10_tie_goes_to_primary Datatypes.unit
                     (Examples64.always Examples64.close_primary)
                     (Examples64.always Examples64.close_secondary)
                     tt "eng"))
    as [Hcmp Hrun]; [vm_compute; reflexivity|].
  split; [exact Hcmp|].
  apply Hrun; vm_compute; reflexivity.
Defined.

(* ================================================================== *)
(** * Properties of the receipt parser                                  *)
(* ================================================================== *)

Import Parser.
Open Scope list_scope.

(** ** Line Classifier *)


(** ** Hierarchical items *)




(** ** Totals Extractor *)

Lemma search_mono (f g : string -> bool) (s : string) :
  (forall u, f u = true -> g u = true) ->
  search f s = true -> search g s = true.
Proof.
  intros Hfg. induction s as [|c s IH]; simpl.
  - rewrite !orb_false_r. apply Hfg.
  - intros H. apply orb_true_iff in H. apply orb_true_iff.
    destruct H as [H|H]; [left; now apply Hfg | right; now apply IH].
Qed.

Lemma startswith_prefix (p s : string) :
  startswith p s = true -> exists r, s = (p ++ r)%string.
Proof.
  revert s; induction p as [|a p IH]; intros s; simpl.
  - intros _. now exists s.
  - destruct s as [|b s]; [discriminate|].
    intros H. apply andb_true_iff in H. destruct H as [Hab H].
    apply Ascii.eqb_eq in Hab. subst b.
    destruct (IH s H) as [r ->]. now exists r.
Qed.

(** A literal "subtotal" is a "total" prefixed by "sub". *)
Lemma subtotal_is_sub_total (low : string) :
  contains "subtotal" low = true -> has_subtotal low = true.
Proof.
  unfold contains, has_subtotal. apply search_mono.
  intros u Hu. apply startswith_prefix in Hu. destruct Hu as [r ->].
  reflexivity.
Qed.

Lemma keyword_total_no_subtotal (raw : string) :
  keyword_of raw = Some KTotal ->
  contains "subtotal" (lower raw) = false.
Proof.
  unfold keyword_of. intros H.
  destruct (contains "subtotal" (lower raw)) eqn:E; [|reflexivity].
  apply subtotal_is_sub_total in E. rewrite E in H.
  rewrite andb_false_r in H.
  destruct (contains "balance due" (lower raw)); discriminate H.
Qed.

Lemma total_entry_total (lr : ReceiptLine * Role) (v : Q) :
  total_entry lr = Some (KTotal, v) ->
  snd lr = Noise
  /\ keyword_of (rawText (fst lr)) = Some KTotal
  /\ amount_of (rawText (fst lr)) = Some v.
Proof.
  unfold total_entry. destruct (snd lr); try discriminate.
  destruct (keyword_of (rawText (fst lr))) as [k|]; [|discriminate].
  destruct (amount_of (rawText (fst lr))) as [a|]; [|discriminate].
  intros H. inversion H; subst. repeat split.
Qed.

Lemma record_total_other (t : Totals) (lr : ReceiptLine * Role) :
  (forall v, total_entry lr <> Some (KTotal, v)) ->
  t_total (record_total t lr) = t_total t.
Proof.
  intros H. unfold record_total.
  destruct (total_entry lr) as [[k v]|]; [|reflexivity].
  destruct k; try reflexivity. exfalso. now apply (H v).
Qed.

Lemma fold_no_total (cls : list (ReceiptLine * Role)) (t : Totals) :
  no_total_line cls ->
  t_total (fold_left record_total cls t) = t_total t.
Proof.
  revert t; induction cls as [|lr cls IH]; intros t H; simpl; [reflexivity|].
  rewrite IH.
  - apply record_total_other. intros v. apply H. now left.
  - intros lr' v Hin. apply H. now right.
Qed.

(** The total is the value of the last qualifying line, when there is
    one. *)
Lemma total_of_last (before after : list (ReceiptLine * Role))
  (lr : ReceiptLine * Role) (v : Q) (t : Totals) :
  total_entry lr = Some (KTotal, v) ->
  no_total_line after ->
  t_total (fold_left record_total (before ++ lr :: after) t) = Some v.
Proof.
  intros He Hafter. rewrite fold_left_app. simpl.
  rewrite fold_no_total by assumption.
  unfold record_total. now rewrite He.
Qed.

Lemma total_origin (cls : list (ReceiptLine * Role)) (t : Totals) (v : Q) :
  t_total (fold_left record_total cls t) = Some v ->
  (t_total t = Some v /\ no_total_line cls)
  \/ exists before lr after,
       cls = before ++ lr :: after
       /\ total_entry lr = Some (KTotal, v)
       /\ no_total_line after.
Proof.
  revert t; induction cls as [|x cls IH]; intros t H; simpl in H.
  - left. split; [assumption | intros lr v' []].
  - destruct (IH _ H) as [[Ht Hno]|[before [lr [after [-> [He Hno]]]]]].
    + unfold record_total in Ht.
      destruct (total_entry x) as [[k w]|] eqn:Ex.
      * destruct k; simpl in Ht.
        -- right. exists [], x, cls. inversion Ht; subst. auto.
        -- left. split; [assumption|].
           intros lr v' [<-|Hin]; [congruence | now apply Hno].
        -- left. split; [assumption|].
           intros lr v' [<-|Hin]; [congruence | now apply Hno].
      * left. split; [assumption|].
        intros lr v' [<-|Hin]; [congruence | now apply Hno].
    + right. exists (x :: before), lr, after. auto.
Qed.

(** C6.  The total never comes from a line containing "subtotal"; the
    keyword of a line is decided in the order total (not prefixed by
    "sub"), subtotal, balance due; commas are stripped before the number
    is parsed, so "1,060.0" in a total line is 1060.0; and of several
    qualifying total lines the last in document order gives the value. *)
Theorem C6_totals_extractor :
  (forall (cls : list (ReceiptLine * Role)) (v : Q),
     t_total (extract_totals cls) = Some v ->
     exists before l after,
       cls = before ++ (l, Noise) :: after
       /\ keyword_of (rawText l) = Some KTotal
       /\ amount_of (rawText l) = Some v
       /\ contains "subtotal" (lower (rawText l)) = false
       /\ no_total_line after)
  /\ (forall (before after : list (ReceiptLine * Role)) (l : ReceiptLine)
        (v : Q),
        keyword_of (rawText l) = Some KTotal ->
        amount_of (rawText l) = Some v ->
        no_total_line after ->
        t_total (extract_totals (before ++ (l, Noise) :: after)) = Some v)
  /\ (forall raw : string,
        let low := lower raw in
        (contains "total" low = true -> has_subtotal low = false ->
         keyword_of raw = Some KTotal)
        /\ (has_subtotal low = true -> keyword_of raw = Some KSubtotal)
        /\ (contains "total" low = false -> has_subtotal low = false ->
            contains "balance due" low = true ->
            keyword_of raw = Some KBalanceDue))
  /\ (forall t : string,
        parse_price t = parse_decimal (strip_commas (strip_dollar t)))
  /\ (exists v, amount_of "Total    1,060.0" = Some v /\ (v == 1060.0)%Q).
Proof.
  split; [|split; [|split; [|split]]].
  - intros cls v H. unfold extract_totals in H.
    apply total_origin in H.
    destruct H as [[Ht _]|[before [[l r] [after [-> [He Hno]]]]]];
      [discriminate Ht|].
    destruct (total_entry_total _ _ He) as [Hr [Hk Ha]].
    simpl in Hr, Hk, Ha. subst r.
    exists before, l, after. repeat split; try assumption.
    now apply keyword_total_no_subtotal.
  - intros before after l v Hk Ha Hno. unfold extract_totals.
    apply total_of_last; [|assumption].
    unfold total_entry. simpl. now rewrite Hk, Ha.
  - intros raw low. unfold keyword_of. fold low. repeat split.
    + intros H1 H2. now rewrite H1, H2.
    + intros H. rewrite H, andb_false_r. reflexivity.
    + intros H1 H2 H3. now rewrite H1, H2, H3.
  - reflexivity.
  - vm_compute. eexists; split; reflexivity.
Qed.

Lemma C6_totals_extractor_witness :
  t_total (extract_totals (classify_lines (receipt_lines Examples.totals_text)))
  = Some 1060.0%Q.
Proof.
  change (classify_lines (receipt_lines Examples.totals_text))
    with ([(mkLine "Subtotal 1,000.0" 0 true 1, Noise);
           (mkLine "Total 900.0" 0 true 2, Noise)]
          ++ (mkLine "Total 1,060.0" 0 true 3, Noise) :: []).
  apply (proj1 (proj2 C6_totals_extractor)).
  - reflexivity.
  - reflexivity.
  - intros lr v [].
Defined.

(** ** Strings *)

Lemma append_nil_r (s : string) : (s ++ "")%string = s.
Proof. induction s as [|c s IH]; simpl; [reflexivity | now rewrite IH]. Qed.

Lemma append_assoc (a b c : string) :
  ((a ++ b) ++ c)%string = (a ++ (b ++ c))%string.
Proof. induction a as [|x a IH]; simpl; [reflexivity | now rewrite IH]. Qed.

(* ================================================================== *)
(** * Further properties of the orchestrator                            *)
(* ================================================================== *)

Lemma len_nonneg (s : string) : (0 <= Ocr.len s)%Q.
Proof.
  unfold Ocr.len. change 0%Q with (inject_Z 0).
  rewrite <- Zle_Qle. apply Nat2Z.is_nonneg.
Qed.

Lemma py_min_cap (x : Q) :
  (0 <= x)%Q -> (0 <= Ocr.py_min 100 x)%Q /\ (Ocr.py_min 100 x <= 100)%Q.
Proof.
  intros Hx. unfold Ocr.py_min. destruct (Ocr.Qltb x 100) eqn:E.
  - apply Qltb_true in E. split; [assumption | now apply Qlt_le_weak].
  - split; lra.
Qed.

(** X1.  The score of a candidate lies between 0 and 100 whenever its
    confidence does (a missing confidence counts as 0): the length and
    word components are each capped at 100 and the weights add up
    to 1. *)
Theorem score_of_in_range (r : Ocr.OcrResult) :
  (0 <= Ocr.get (Ocr.confidence r) 0)%Q ->
  (Ocr.get (Ocr.confidence r) 0 <= 100)%Q ->
  (0 <= Ocr.score_of r)%Q /\ (Ocr.score_of r <= 100)%Q.
Proof.
  intros Hlo Hhi. unfold Ocr.score_of.
  set (txt := Ocr.get (Ocr.text r) EmptyString).
  set (conf := Ocr.get (Ocr.confidence r) 0%Q) in *.
  assert (Hl : (0 <= Ocr.len txt / 500 * 100)%Q).
  { pose proof (len_nonneg txt) as H. 
    setoid_replace (Ocr.len txt / 500 * 100)%Q with (Ocr.len txt * (1 # 5))%Q
      by field. lra. }
  assert (Hw : (0 <= inject_Z (Z.of_nat (Ocr.valid_words txt)) / 50 * 100)%Q).
  { assert (H : (0 <= inject_Z (Z.of_nat (Ocr.valid_words txt)))%Q).
    { change 0%Q with (inject_Z 0). rewrite <- Zle_Qle.
      apply Nat2Z.is_nonneg. }
    setoid_replace (inject_Z (Z.of_nat (Ocr.valid_words txt)) / 50 * 100)%Q
      with (inject_Z (Z.of_nat (Ocr.valid_words txt)) * 2)%Q by field.
    lra. }
  destruct (py_min_cap _ Hl) as [A1 A2].
  destruct (py_min_cap _ Hw) as [B1 B2].
  split; lra.
Qed.

Lemma score_of_in_range_witness :
  (0 <= Ocr.score_of Examples.weak_primary)%Q
  /\ (Ocr.score_of Examples.weak_primary <= 100)%Q.
Proof.
  apply (score_of_in_range Examples.weak_primary); vm_compute; discriminate.
Defined.

Lemma score_of_mark_hybrid64 (r : Ocr64.OcrResult) (s : Binary64.float) :
  Ocr64.score_of (Ocr64.mark_hybrid r s) = Ocr64.score_of r.
Proof. reflexivity. Qed.

(** X2.  The number [_compare_ocr_results] stores under
    ['comparison_score'] is the returned candidate's own score, as
    computed, and neither candidate's computed score is greater. *)
Theorem compare_records_best_score (a b : Ocr64.OcrResult) :
  exists s,
    Ocr64.comparison_score (Ocr64._compare_ocr_results a b) = Some s
    /\ s = Ocr64.score_of (Ocr64._compare_ocr_results a b)
    /\ Binary64.ltb s (Ocr64.score_of a) = false
    /\ Binary64.ltb s (Ocr64.score_of b) = false.
Proof.
  destruct (Binary64.geb (Ocr64.score_of a) (Ocr64.score_of b)) eqn:H.
  - rewrite compare64_picks_first by assumption.
    exists (Ocr64.score_of a). rewrite score_of_mark_hybrid64.
    repeat split; [apply ltb_irrefl|].
    destruct (Binary64.ltb (Ocr64.score_of a) (Ocr64.score_of b)) eqn:E;
      [|reflexivity].
    apply geb_false_of_ltb in E. congruence.
  - rewrite compare64_picks_second by assumption.
    exists (Ocr64.score_of b). rewrite score_of_mark_hybrid64.
    repeat split; [|apply ltb_irrefl].
    destruct (Binary64.ltb (Ocr64.score_of b) (Ocr64.score_of a)) eqn:E;
      [|reflexivity].
    apply geb_of_ltb in E. congruence.
Qed.

(** X3.  When one computed score is below the other, the comparison does
    not depend on which engine's result is passed first: both orders
    return the same dictionary. *)
Theorem compare_order_irrelevant (a b : Ocr64.OcrResult) :
  Binary64.ltb (Ocr64.score_of a) (Ocr64.score_of b)
  || Binary64.ltb (Ocr64.score_of b) (Ocr64.score_of a) = true ->
  Ocr64._compare_ocr_results a b = Ocr64._compare_ocr_results b a.
Proof.
  intros H. apply orb_true_iff in H. destruct H as [H|H].
  - rewrite (compare64_picks_second a b) by now apply geb_false_of_ltb.
    rewrite (compare64_picks_first b a) by now apply geb_of_ltb.
    reflexivity.
  - rewrite (compare64_picks_first a b) by now apply geb_of_ltb.
    rewrite (compare64_picks_second b a) by now apply geb_false_of_ltb.
    reflexivity.
Qed.

Lemma compare_order_irrelevant_witness :
  Ocr64._compare_ocr_results Examples64.milk_primary Examples64.milk_secondary
  = Ocr64._compare_ocr_results Examples64.milk_secondary
      Examples64.milk_primary.
Proof.
  apply (compare_order_irrelevant Examples64.milk_primary
           Examples64.milk_secondary).
  vm_compute. reflexivity.
Defined.

(** With equal computed scores the order does matter: each order returns
    its first argument.  The two confidences differ, the two computed
    scores do not. *)
Example equal_scores_first_argument_wins :
  Ocr64._compare_ocr_results Examples64.close_primary
    Examples64.close_secondary
  = Ocr64.mark_hybrid Examples64.close_primary
      (Ocr64.score_of Examples64.close_primary)
  /\ Ocr64._compare_ocr_results Examples64.close_secondary
       Examples64.close_primary
     = Ocr64.mark_hybrid Examples64.close_secondary
         (Ocr64.score_of Examples64.close_secondary).
Proof. split; vm_compute; reflexivity. Qed.

Section OrchestratorCalls.

Variable Image : Type.
Variables ocrspace tesseract : Image -> string -> Ocr.OcrResult.
Variable manual : Image -> Ocr.OcrResult.
Variable img : Image.
Variable language : string.

Let primary := ocrspace img language.
Let secondary := tesseract img language.

(** X4.  Engine calls of a run.  OCR.space is called first and exactly
    once; Tesseract is called at most once, after it, and exactly when
    OCR.space failed or answered with a confidence below the threshold;
    the manual extraction is never called. *)
Theorem hybrid_engine_calls :
  snd (Ocr.run ocrspace tesseract img language)
  = (if Ocr.success primary
        && Ocr.Qgeb (Ocr.get (Ocr.confidence primary) 100)
                    Ocr.QUALITY_THRESHOLD
     then [Ocr.CallOcrSpace]
     else [Ocr.CallOcrSpace; Ocr.CallTesseract])
  /\ ~ In Ocr.CallManual (snd (Ocr.run ocrspace tesseract img language)).
Proof.
  assert (E : forall x y, Ocr.Qgeb x y = negb (Ocr.Qltb x y)).
  { intros x y. unfold Ocr.Qgeb, Ocr.Qltb. now rewrite negb_involutive. }
  rewrite E.
  destruct (Ocr.success primary) eqn:Hs.
  - destruct (Ocr.Qltb (Ocr.get (Ocr.confidence primary) 100)
                       Ocr.QUALITY_THRESHOLD) eqn:Hc.
    + rewrite run_hybrid by assumption. simpl.
      split; [reflexivity|]. intuition discriminate.
    + rewrite run_good_enough by assumption. simpl.
      split; [reflexivity|]. intuition discriminate.
  - rewrite run_primary_failed by assumption. simpl.
    split; [reflexivity|]. intuition discriminate.
Qed.

(** X5.  When the adapters answer without a ['hybrid_mode'] key, the
    returned dictionary carries [hybrid_mode = True] exactly when the
    comparison took place: OCR.space succeeded below the threshold and
    Tesseract succeeded too. *)
Theorem hybrid_flag_iff_compared (r : Ocr.OcrResult) :
  Ocr.hybrid_mode primary = None ->
  Ocr.hybrid_mode secondary = None ->
  fst (Ocr.run ocrspace tesseract img language) = Ocr.Returned r ->
  (Ocr.hybrid_mode r = Some true
   <-> Ocr.success primary = true
       /\ (Ocr.get (Ocr.confidence primary) 100 < Ocr.QUALITY_THRESHOLD)%Q
       /\ Ocr.success secondary = true).
Proof.
  subst primary secondary. intros Hp Hq Hr.
  destruct (Ocr.success (ocrspace img language)) eqn:Hs.
  - destruct (Ocr.Qltb (Ocr.get (Ocr.confidence (ocrspace img language)) 100)
                       Ocr.QUALITY_THRESHOLD) eqn:Hc.
    + rewrite run_hybrid in Hr by assumption. simpl in Hr.
      apply Qltb_true in Hc.
      destruct (Ocr.success (tesseract img language)) eqn:Hs2;
        injection Hr as Hr; subst r.
      * split; [intros _; repeat split; assumption|]. intros _.
        unfold Ocr._compare_ocr_results.
        destruct (Ocr.Qgeb _ _); reflexivity.
      * rewrite Hp. split; [discriminate|]. intros [_ [_ H]]. discriminate.
    + rewrite run_good_enough in Hr by assumption. simpl in Hr.
      injection Hr as Hr. subst r. apply Qltb_false in Hc.
      rewrite Hp. split; [discriminate|]. intros [_ [H _]].
      exfalso. exact (Qlt_not_le _ _ H Hc).
  - rewrite run_primary_failed in Hr by assumption. simpl in Hr.
    injection Hr as Hr. subst r. rewrite Hq.
    split; [discriminate|]. intros [H _]. discriminate.
Qed.

(** X6.  The two snapshots of the orchestrator agree whenever exactly one
    engine succeeds: the Tesseract-first version with its manual last
    resort and the OCR.space-first hybrid version return the same
    dictionary, the successful engine's. *)
Theorem snapshots_agree_on_single_success :
  Ocr.success primary <> Ocr.success secondary ->
  fst (Ocr._try_multiple_ocr_methods_v1 ocrspace tesseract manual
         img language [])
  = fst (Ocr.run ocrspace tesseract img language)
  /\ exists r,
       fst (Ocr.run ocrspace tesseract img language) = Ocr.Returned r
       /\ Ocr.success r = true
       /\ (r = primary \/ r = secondary).
Proof.
  intros Hne.
  unfold Ocr._try_multiple_ocr_methods_v1, Ocr.bind,
    Ocr._try_ocrspace_with_fallback, Ocr._try_tesseract_ocr,
    Ocr._fallback_text_extraction, Ocr.ret. simpl. fold primary secondary.
  destruct (Ocr.success secondary) eqn:Hs2;
    destruct (Ocr.success primary) eqn:Hs1; try congruence; simpl.
  - rewrite run_primary_failed by assumption. simpl.
    split; [reflexivity|]. exists secondary. auto.
  - destruct (Ocr.Qltb (Ocr.get (Ocr.confidence primary) 100)
                       Ocr.QUALITY_THRESHOLD) eqn:Hc.
    + rewrite run_hybrid by assumption. simpl. fold secondary.
      rewrite Hs2. split; [reflexivity|]. exists primary. auto.
    + rewrite run_good_enough by assumption. simpl.
      split; [reflexivity|]. exists primary. auto.
Qed.

(** X7.  In the Tesseract-first snapshot the engines are tried in the
    order Tesseract, OCR.space, manual extraction, each at most once; the
    manual extraction is reached exactly when both engines failed, and an
    engine's success is always what is returned. *)
Theorem v1_manual_is_last_resort :
  let out := Ocr._try_multiple_ocr_methods_v1 ocrspace tesseract manual
               img language [] in
  (In Ocr.CallManual (snd out)
   <-> Ocr.success primary = false /\ Ocr.success secondary = false)
  /\ (exists n, snd out
        = firstn (S n) [Ocr.CallTesseract; Ocr.CallOcrSpace; Ocr.CallManual])
  /\ (Ocr.success secondary = true -> fst out = Ocr.Returned secondary)
  /\ (Ocr.success secondary = false -> Ocr.success primary = true ->
      fst out = Ocr.Returned primary)
  /\ (Ocr.success secondary = false -> Ocr.success primary = false ->
      fst out = Ocr.Returned (manual img)).
Proof.
  unfold Ocr._try_multiple_ocr_methods_v1, Ocr.bind,
    Ocr._try_ocrspace_with_fallback, Ocr._try_tesseract_ocr,
    Ocr._fallback_text_extraction, Ocr.ret. simpl. fold primary secondary.
  assert (Hprefix : forall n : nat,
            (exists m, firstn (S n) [Ocr.CallTesseract; Ocr.CallOcrSpace;
                                     Ocr.CallManual]
                       = firstn (S m) [Ocr.CallTesseract; Ocr.CallOcrSpace;
                                       Ocr.CallManual])) by eauto.
  destruct (Ocr.success secondary) eqn:Hs2; simpl.
  - split; [|split; [exact (Hprefix 0%nat)|repeat split; congruence]].
    split; [intros [H|[]]; discriminate | intros [_ H]; discriminate].
  - destruct (Ocr.success primary) eqn:Hs1; simpl.
    + split; [|split; [exact (Hprefix 1%nat)|repeat split; congruence]].
      split; [intros [H|[H|[]]]; discriminate | intros [H _]; discriminate].
    + split; [|split; [exact (Hprefix 2%nat)|repeat split; congruence]].
      split; [auto | intros _; right; right; left; reflexivity].
Qed.

End OrchestratorCalls.

Lemma hybrid_flag_iff_compared_witness :
  Ocr.hybrid_mode
    (Ocr._compare_ocr_results Examples.weak_primary Examples.strong_secondary)
  = Some true
  <-> Ocr.success Examples.weak_primary = true
      /\ (Ocr.get (Ocr.confidence Examples.weak_primary) 100
          < Ocr.QUALITY_THRESHOLD)%Q
      /\ Ocr.success Examples.strong_secondary = true.
Proof.
  apply (hybrid_flag_iff_compared Datatypes.unit
           (Examples.always Examples.weak_primary)
           (Examples.always Examples.strong_secondary) tt "eng"
           (Ocr._compare_ocr_results Examples.weak_primary
              Examples.strong_secondary)); reflexivity.
Defined.

Lemma snapshots_agree_on_single_success_witness :
  fst (Ocr._try_multiple_ocr_methods_v1
         (Examples.always (Examples.failed "ocrspace"))
         (Examples.always Examples.strong_secondary)
         (fun _ : Datatypes.unit => Examples.failed "manual") tt "eng" [])
  = fst (Ocr.run (Examples.always (Examples.failed "ocrspace"))
           (Examples.always Examples.strong_secondary) tt "eng")
  /\ exists r,
       fst (Ocr.run (Examples.always (Examples.failed "ocrspace"))
              (Examples.always Examples.strong_secondary) tt "eng")
       = Ocr.Returned r
       /\ Ocr.success r = true
       /\ (r = Examples.always (Examples.failed "ocrspace") tt "eng"
           \/ r = Examples.always Examples.strong_secondary tt "eng").
Proof.
  apply (snapshots_agree_on_single_success Datatypes.unit
           (Examples.always (Examples.failed "ocrspace"))
           (Examples.always Examples.strong_secondary)
           (fun _ : Datatypes.unit => Examples.failed "manual") tt "eng").
  discriminate.
Defined.

(* ================================================================== *)
(** * Regular expressions                                               *)
(* ================================================================== *)

Lemma append_empty (s1 s2 : string) :
  (s1 ++ s2)%string = EmptyString -> s1 = EmptyString /\ s2 = EmptyString.
Proof. destruct s1; simpl; [auto | discriminate]. Qed.

Lemma nullable_lang (r : Re.regex) :
  Re.nullable r = true <-> Re.lang r EmptyString.
Proof.
  induction r as [| |p|r1 IH1 r2 IH2|r1 IH1 r2 IH2|r IH]; simpl.
  - split; [discriminate | intros H; inversion H].
  - split; [constructor | reflexivity].
  - split; [discriminate | intros H; inversion H].
  - rewrite andb_true_iff, IH1, IH2. split.
    + intros [H1 H2]. exact (Re.lang_cat _ _ _ _ H1 H2).
    + intros H. inversion H as [| |? ? s1 s2 H1 H2| | | |]; subst.
      match goal with
      | E : (_ ++ _)%string = EmptyString |- _ =>
          apply append_empty in E; destruct E; subst
      end. auto.
  - rewrite orb_true_iff, IH1, IH2. split.
    + intros [H|H]; [now apply Re.lang_alt_l | now apply Re.lang_alt_r].
    + intros H. inversion H; subst; auto.
  - split; [constructor | reflexivity].
Qed.

Lemma deriv_sound (r : Re.regex) (c : ascii) (s : string) :
  Re.lang (Re.deriv c r) s -> Re.lang r (String c s).
Proof.
  revert s.
  induction r as [| |p|r1 IH1 r2 IH2|r1 IH1 r2 IH2|r IH]; simpl; intros s H.
  - inversion H.
  - inversion H.
  - destruct (p c) eqn:E; inversion H; subst. now constructor.
  - assert (Hcat : forall t, Re.lang (Re.Cat (Re.deriv c r1) r2) t ->
                             Re.lang (Re.Cat r1 r2) (String c t)).
    { intros t Ht. inversion Ht as [| |? ? s1 s2 H1 H2| | | |]; subst.
      apply (Re.lang_cat r1 r2 (String c s1) s2); auto. }
    destruct (Re.nullable r1) eqn:E.
    + inversion H as [| | |? ? ? H1|? ? ? H1| |]; subst.
      * now apply Hcat.
      * apply nullable_lang in E.
        apply (Re.lang_cat r1 r2 EmptyString (String c s)); auto.
    + now apply Hcat.
  - inversion H; subst; [apply Re.lang_alt_l | apply Re.lang_alt_r]; auto.
  - inversion H as [| |? ? s1 s2 H1 H2| | | |]; subst.
    apply (Re.lang_star_cons r (String c s1) s2); auto.
Qed.

Lemma deriv_complete (r : Re.regex) (t : string) :
  Re.lang r t ->
  forall c s, t = String c s -> Re.lang (Re.deriv c r) s.
Proof.
  induction 1 as [|p a Hp|r1 r2 s1 s2 H1 IH1 H2 IH2|r1 r2 s0 H0 IH0
                  |r1 r2 s0 H0 IH0|r0|r0 s1 s2 H1 IH1 H2 IH2];
    intros c s E; simpl.
  - discriminate.
  - injection E as -> <-. rewrite Hp. constructor.
  - destruct s1 as [|a s1]; simpl in E.
    + subst s2. apply nullable_lang in H1. rewrite H1.
      apply Re.lang_alt_r. now apply IH2.
    + injection E as -> <-.
      assert (Hc : Re.lang (Re.Cat (Re.deriv c r1) r2) (s1 ++ s2)).
      { apply Re.lang_cat; auto. }
      destruct (Re.nullable r1); [now apply Re.lang_alt_l | assumption].
  - apply Re.lang_alt_l. now apply IH0.
  - apply Re.lang_alt_r. now apply IH0.
  - discriminate.
  - destruct s1 as [|a s1]; simpl in E.
    + now apply IH2.
    + injection E as -> <-. apply Re.lang_cat; auto.
Qed.

(** The matcher decides membership in the pattern's language. *)
Lemma fullmatch_lang (r : Re.regex) (s : string) :
  Re.fullmatch r s = true <-> Re.lang r s.
Proof.
  revert r; induction s as [|c s IH]; intros r; simpl.
  - apply nullable_lang.
  - rewrite IH. split.
    + apply deriv_sound.
    + intros H. now apply (deriv_complete r (String c s) H).
Qed.

Lemma lang_any_star (s : string) : Re.lang (Re.Star Re.any_char) s.
Proof.
  induction s as [|c s IH]; [constructor|].
  apply (Re.lang_star_cons _ (String c EmptyString) s); [|assumption].
  now constructor.
Qed.

(** [re.search] finds a match somewhere in the string. *)
Lemma search_lang (r : Re.regex) (s : string) :
  Re.search r s = true
  <-> exists pre m post, s = (pre ++ m ++ post)%string /\ Re.lang r m.
Proof.
  unfold Re.search. rewrite fullmatch_lang. split.
  - intros H. inversion H as [| |? ? pre s2 _ H2| | | |]; subst.
    inversion H2 as [| |? ? m post Hm _| | | |]; subst. eauto.
  - intros (pre & m & post & -> & Hm).
    apply Re.lang_cat; [apply lang_any_star|].
    apply Re.lang_cat; [assumption | apply lang_any_star].
Qed.

Lemma lang_chr (a : ascii) (s : string) :
  Re.lang (Re.chr a) s <-> s = String a EmptyString.
Proof.
  unfold Re.chr. split.
  - intros H. inversion H as [|p c Hc| | | | |]; subst.
    apply Ascii.eqb_eq in Hc. now subst.
  - intros ->. constructor. apply Ascii.eqb_refl.
Qed.

Lemma lang_class (p : ascii -> bool) (s : string) :
  Re.lang (Re.Class p) s <-> exists c, s = String c EmptyString /\ p c = true.
Proof.
  split.
  - intros H. inversion H; subst. eauto.
  - intros (c & -> & Hc). now constructor.
Qed.

(** [r+] ends with a string of [r]. *)
Lemma lang_plus_last (r : Re.regex) (s : string) :
  Re.lang (Re.plus r) s ->
  exists s1 s2, s = (s1 ++ s2)%string /\ Re.lang r s2.
Proof.
  unfold Re.plus. intros H.
  inversion H as [| |? ? s1 s2 H1 H2| | | |]; subst. clear H.
  remember (Re.Star r) as rs eqn:Ers. revert s1 H1.
  induction H2 as [| | | | | r0 | r0 t1 t2 Ht1 _ Ht2 IH]; try discriminate;
    intros s1 H1.
  - exists EmptyString, s1. rewrite append_nil_r. auto.
  - injection Ers as ->. destruct (IH eq_refl t1 Ht1) as (u1 & u2 & E & Hu).
    exists (s1 ++ u1)%string, u2. rewrite E, append_assoc. auto.
Qed.

Lemma search_app (here : string -> bool) (pre s : string) :
  here s = true -> PyStr.search here (pre ++ s) = true.
Proof.
  intros H. induction pre as [|c pre IH]; simpl.
  - destruct s; simpl; rewrite H; reflexivity.
  - rewrite IH. apply orb_true_r.
Qed.

Lemma search_found (here : string -> bool) (s : string) :
  PyStr.search here s = true ->
  exists pre rest, s = (pre ++ rest)%string /\ here rest = true.
Proof.
  induction s as [|c s IH]; simpl.
  - rewrite orb_false_r. intros H. exists EmptyString, EmptyString. auto.
  - destruct (here (String c s)) eqn:E; simpl.
    + intros _. exists EmptyString, (String c s). auto.
    + intros H. destruct (IH H) as (pre & rest & -> & Hr).
      exists (String c pre), rest. auto.
Qed.

(* ================================================================== *)
(** * Properties of the quoted parser fragments                         *)
(* ================================================================== *)

Lemma lang_times2 (r : Re.regex) (s : string) :
  Re.lang (Re.times 2 r) s ->
  exists s1 s2, s = (s1 ++ s2)%string /\ Re.lang r s1 /\ Re.lang r s2.
Proof.
  simpl. intros H.
  inversion H as [| |? ? s1 t H1 Ht| | | |]; subst.
  inversion Ht as [| |? ? s2 e H2 He| | | |]; subst.
  inversion He; subst. rewrite append_nil_r. eauto.
Qed.

(** The price pattern is found exactly where a digit, a full stop and
    two digits follow one another. *)
Lemma sub_has_price_decimals (s : string) :
  ParserSource.sub_has_price s
  = PyStr.search ParserSource.decimals_here s.
Proof.
  apply eq_true_iff_eq. unfold ParserSource.sub_has_price.
  rewrite search_lang. split.
  - intros (pre & m & post & -> & Hm).
    unfold ParserSource.price_pattern in Hm.
    inversion Hm as [| |? ? o m1 Ho Hm1| | | |]; subst. clear Hm.
    inversion Hm1 as [| |? ? ds m2 Hds Hm2| | | |]; subst. clear Hm1.
    inversion Hm2 as [| |? ? dt dd Hdt Hdd| | | |]; subst. clear Hm2.
    apply lang_chr in Hdt. subst dt.
    apply lang_plus_last in Hds. destruct Hds as (u1 & u2 & -> & Hu2).
    apply lang_class in Hu2. destruct Hu2 as (a & -> & Ha).
    apply lang_times2 in Hdd. destruct Hdd as (c1 & c2 & -> & Hc1 & Hc2).
    apply lang_class in Hc1. destruct Hc1 as (c & -> & Hc).
    apply lang_class in Hc2. destruct Hc2 as (d & -> & Hd).
    replace (pre ++ (o ++ (u1 ++ String a "") ++ "." ++ String c "" ++ String d "")
               ++ post)%string
      with ((pre ++ o ++ u1)
              ++ String a (String "." (String c (String d post))))%string
      by (now rewrite !append_assoc).
    apply search_app. simpl. now rewrite Ha, Hc, Hd.
  - intros H. apply search_found in H. destruct H as (pre & rest & -> & Hr).
    destruct rest as [|a [|b [|c [|d post]]]]; try discriminate.
    simpl in Hr. apply andb_true_iff in Hr. destruct Hr as [Hr Hd].
    apply andb_true_iff in Hr. destruct Hr as [Hr Hc].
    apply andb_true_iff in Hr. destruct Hr as [Ha Hb].
    apply Ascii.eqb_eq in Hb. subst b.
    exists pre, (String a (String "." (String c (String d EmptyString)))), post.
    split; [reflexivity|].
    unfold ParserSource.price_pattern.
    apply (Re.lang_cat _ _ EmptyString); [apply Re.lang_alt_l; constructor|].
    apply (Re.lang_cat _ _ (String a EmptyString)).
    { apply (Re.lang_cat _ _ (String a EmptyString) EmptyString);
        [now constructor | constructor]. }
    apply (Re.lang_cat _ _ (String "." EmptyString));
      [now apply lang_chr|].
    apply (Re.lang_cat _ _ (String c EmptyString)); [now constructor|].
    apply (Re.lang_cat _ _ (String d EmptyString) EmptyString);
      [now constructor | constructor].
Qed.

(** X8.  A sub-item line keeps a price of its own exactly when a digit, a
    full stop and two digits follow one another somewhere in it; any
    other line, such as one priced ["$12"] or ["1.5"], takes the price of
    its parent and its name from [_clean_sub_item_name], and the
    extractor is not consulted. *)
Theorem sub_item_price_needs_two_decimals (Price : Type)
  (extract_price_and_quantity : string -> Q * Price * string)
  (clean_item_name _clean_sub_item_name : string -> string)
  (price : Price) (next_stripped : string) :
  ParserSource.sub_item_name_and_price extract_price_and_quantity
    clean_item_name _clean_sub_item_name price next_stripped
  = if PyStr.search ParserSource.decimals_here next_stripped
    then (clean_item_name (snd (extract_price_and_quantity next_stripped)),
          snd (fst (extract_price_and_quantity next_stripped)))
    else (_clean_sub_item_name next_stripped, price).
Proof.
  unfold ParserSource.sub_item_name_and_price.
  rewrite sub_has_price_decimals.
  destruct (PyStr.search ParserSource.decimals_here next_stripped);
    [|reflexivity].
  destruct (extract_price_and_quantity next_stripped) as [[q p] n].
  reflexivity.
Qed.

Lemma lower_app (s t : string) :
  PyStr.lower (s ++ t) = (PyStr.lower s ++ PyStr.lower t)%string.
Proof. induction s as [|c s IH]; simpl; [reflexivity | now rewrite IH]. Qed.

Lemma lang_lit_i (w s : string) :
  Re.lang (Re.lit_i w) s -> PyStr.lower s = PyStr.lower w.
Proof.
  revert s; induction w as [|a w IH]; intros s H; simpl in H.
  - inversion H; subst. reflexivity.
  - inversion H as [| |? ? s1 s2 H1 H2| | | |]; subst.
    unfold Re.chr_i in H1. apply lang_class in H1.
    destruct H1 as (c & -> & Hc). apply Ascii.eqb_eq in Hc.
    simpl. rewrite (IH _ H2). now rewrite Hc.
Qed.

Lemma startswith_app (p r : string) : PyStr.startswith p (p ++ r) = true.
Proof.
  induction p as [|a p IH]; simpl; [reflexivity|].
  now rewrite Ascii.eqb_refl, IH.
Qed.

Lemma contains_app (p pre post : string) :
  PyStr.contains p (pre ++ p ++ post) = true.
Proof. unfold PyStr.contains. apply search_app, startswith_app. Qed.

Lemma contains_app_r (p s t : string) :
  PyStr.contains p s = true -> PyStr.contains p (s ++ t) = true.
Proof.
  unfold PyStr.contains. intros H. apply search_found in H.
  destruct H as (pre & rest & -> & Hr).
  apply startswith_prefix in Hr. destruct Hr as [r ->].
  rewrite !append_assoc. apply search_app, startswith_app.
Qed.

Lemma contains_app_l (p s t : string) :
  PyStr.contains p t = true -> PyStr.contains p (s ++ t) = true.
Proof.
  unfold PyStr.contains. intros H. apply search_found in H.
  destruct H as (pre & rest & -> & Hr).
  rewrite <- append_assoc. now apply search_app.
Qed.

(** X9.  The promotional pattern skips a line only if the line spells
    out the word ["buy"] and, after it, ["get"] or ["receive"], in any
    mix of upper and lower case.  Abbreviations and misread words
    (["BOGO"], ["Duy Ona Gel One"]) do not have them, so such lines are
    not skipped. *)
Theorem promo_line_needs_buy_and_get (line : string) :
  ParserSource.is_promo_line line = true ->
  PyStr.contains "buy" (PyStr.lower line) = true
  /\ (PyStr.contains "get" (PyStr.lower line) = true
      \/ PyStr.contains "receive" (PyStr.lower line) = true).
Proof.
  unfold ParserSource.is_promo_line, Re.match_to_end.
  rewrite fullmatch_lang. intros H.
  inversion H as [| |? ? body nl Hbody _| | | |]; subst. clear H.
  unfold ParserSource.promo_pattern in Hbody.
  inversion Hbody as [| |? ? x0 m1 _ Hm1| | | |]; subst. clear Hbody.
  inversion Hm1 as [| |? ? b m2 Hb Hm2| | | |]; subst. clear Hm1.
  inversion Hm2 as [| |? ? sp m3 _ Hm3| | | |]; subst. clear Hm2.
  inversion Hm3 as [| |? ? n1 m4 _ Hm4| | | |]; subst. clear Hm3.
  inversion Hm4 as [| |? ? seps m5 _ Hm5| | | |]; subst. clear Hm4.
  inversion Hm5 as [| |? ? g m6 Hg _| | | |]; subst. clear Hm5.
  apply (lang_lit_i "buy") in Hb. simpl in Hb.
  split.
  - rewrite !lower_app, Hb. apply contains_app_r, contains_app.
  - assert (Hgl : PyStr.lower g = "get" \/ PyStr.lower g = "receive").
    { inversion Hg as [| | |? ? ? Hg1|? ? ? Hg1| |]; subst;
        [apply (lang_lit_i "get") in Hg1
        |apply (lang_lit_i "receive") in Hg1]; simpl in Hg1; auto. }
    rewrite !lower_app.
    destruct Hgl as [Hgl|Hgl]; [left|right]; rewrite Hgl;
      apply contains_app_r; do 4 apply contains_app_l; apply contains_app.
Qed.

Lemma promo_line_needs_buy_and_get_witness :
  PyStr.contains "buy" (PyStr.lower "Buy 2 Get 1 Free") = true
  /\ (PyStr.contains "get" (PyStr.lower "Buy 2 Get 1 Free") = true
      \/ PyStr.contains "receive" (PyStr.lower "Buy 2 Get 1 Free") = true).
Proof.
  apply (promo_line_needs_buy_and_get "Buy 2 Get 1 Free"). reflexivity.
Defined.

(* ================================================================== *)
(** * Properties of the Tesseract variant score                         *)
(* ================================================================== *)

(** X10.  The text-length bonus of a variant is capped: the score is
    never below [0.7 * confidence] nor above [0.7 * confidence + 9], it
    reaches the cap at 300 characters, and a variant of 20 characters or
    fewer never replaces the best result, whatever its confidence. *)
Theorem variant_score_capped (avg_confidence : Q) (text_length : nat) :
  (avg_confidence * 0.7 <= Tesseract.variant_score avg_confidence text_length)%Q
  /\ (Tesseract.variant_score avg_confidence text_length
      <= avg_confidence * 0.7 + 9)%Q
  /\ ((300 <= text_length)%nat ->
      (Tesseract.variant_score avg_confidence text_length
       == avg_confidence * 0.7 + 9)%Q)
  /\ ((text_length <= 20)%nat ->
      forall best_score best_result extracted_text variant_name,
        Tesseract.select_variant best_score best_result extracted_text
          avg_confidence text_length variant_name = best_result).
Proof.
  unfold Tesseract.variant_score.
  set (l := inject_Z (Z.of_nat text_length)).
  assert (Hl : (0 <= l)%Q).
  { unfold l. change 0%Q with (inject_Z 0). rewrite <- Zle_Qle.
    apply Nat2Z.is_nonneg. }
  assert (Hd : (l / 10 == l * (1 # 10))%Q) by field.
  unfold Ocr.py_min.
  destruct (Ocr.Qltb 30 (l / 10)) eqn:E.
  - apply Qltb_true in E. repeat split; try lra.
    intros Hle best_score best_result extracted_text variant_name.
    unfold Tesseract.select_variant.
    apply Nat.ltb_ge in Hle. rewrite Hle, andb_false_r. reflexivity.
  - apply Qltb_false in E. repeat split; try lra.
    + intros H300. assert (H : (300 <= l)%Q).
      { unfold l. change 300%Q with (inject_Z 300). rewrite <- Zle_Qle. lia. }
      lra.
    + intros Hle best_score best_result extracted_text variant_name.
      unfold Tesseract.select_variant.
      apply Nat.ltb_ge in Hle. rewrite Hle, andb_false_r. reflexivity.
Qed.

(* ================================================================== *)
(** * Properties of the invite codes                                    *)
(* ================================================================== *)

Lemma lang_times_class (p : ascii -> bool) (n : nat) (s : string) :
  Re.lang (Re.times n (Re.Class p)) s
  <-> String.length s = n /\ PyStr.forall_chars p s = true.
Proof.
  revert s; induction n as [|n IH]; intros s; simpl.
  - split.
    + intros H. inversion H; subst. auto.
    + intros [H _]. destruct s; [constructor | discriminate].
  - split.
    + intros H. inversion H as [| |? ? s1 s2 H1 H2| | | |]; subst.
      apply lang_class in H1. destruct H1 as (c & -> & Hc).
      apply IH in H2. destruct H2 as [Hl Hf]. simpl.
      now rewrite Hl, Hc, Hf.
    + intros [Hl Hf]. destruct s as [|c s]; [discriminate|].
      simpl in Hl, Hf. apply andb_true_iff in Hf. destruct Hf as [Hc Hf].
      apply (Re.lang_cat _ _ (String c EmptyString) s); [now constructor|].
      apply IH. split; [lia | assumption].
Qed.

(** X11.  [validateInviteCode] accepts exactly the strings of six
    characters each of which is an upper-case letter [A]-[Z] or a digit;
    in particular a seventh character, even a line break, is refused. *)
Theorem validateInviteCode_six_code_chars (code : string) :
  QRCodeService.validateInviteCode code
  = (String.length code =? 6)%nat
    && PyStr.forall_chars QRCodeService.code_char code.
Proof.
  apply eq_true_iff_eq. unfold QRCodeService.validateInviteCode,
    Re.test_anchored.
  rewrite fullmatch_lang, lang_times_class, andb_true_iff, Nat.eqb_eq.
  reflexivity.
Qed.

Lemma chars_are_code_chars (n : nat) :
  (n < 36)%nat ->
  exists c, String.get n QRCodeService.chars = Some c
            /\ QRCodeService.code_char c = true.
Proof.
  intros Hn.
  assert (H : forallb (fun k => match String.get k QRCodeService.chars with
                                | Some c => QRCodeService.code_char c
                                | None => false
                                end) (seq 0 36) = true)
    by (vm_compute; reflexivity).
  rewrite forallb_forall in H. specialize (H n).
  destruct (String.get n QRCodeService.chars) as [c|].
  - exists c. split; [reflexivity|]. apply H. apply in_seq. lia.
  - assert (F : false = true) by (apply H; apply in_seq; lia).
    discriminate.
Qed.

(** A random number of [[0, 1)] picks one of the 36 characters. *)
Lemma pick_in_range (r : Q) :
  (0 <= r)%Q -> (r < 1)%Q ->
  exists c, QRCodeService.pick r = String c EmptyString
            /\ QRCodeService.code_char c = true.
Proof.
  intros Hlo Hhi. unfold QRCodeService.pick.
  change (inject_Z (Z.of_nat (String.length QRCodeService.chars)))
    with (inject_Z 36).
  set (i := Qfloor (r * inject_Z 36)).
  assert (H0 : (0 <= i)%Z).
  { change 0%Z with (Qfloor (inject_Z 0)). apply Qfloor_resp_le.
    change (inject_Z 0) with 0%Q. change (inject_Z 36) with 36%Q.
    nra. }
  assert (H36 : (i < 36)%Z).
  { rewrite Zlt_Qlt. apply Qle_lt_trans with (r * inject_Z 36)%Q.
    - apply Qfloor_le.
    - change (inject_Z 36) with 36%Q. lra. }
  unfold Js.charAt. destruct (i <? 0)%Z eqn:E; [apply Z.ltb_lt in E; lia|].
  assert (Hn : (Z.to_nat i < 36)%nat) by lia.
  destruct (chars_are_code_chars _ Hn) as (c & Hg & Hc).
  rewrite Hg. eauto.
Qed.

Lemma generate_from_run (St : Type) (n : nat) (result : string)
  (w : Js.World St) :
  (forall k, 0 <= Js.random (Js.host w) k)%Q ->
  (forall k, Js.random (Js.host w) k < 1)%Q ->
  exists code h,
    QRCodeService.generate_from n result w
    = (Js.Return (result ++ code)%string, Js.mkWorld h (Js.store w))
    /\ String.length code = n
    /\ PyStr.forall_chars QRCodeService.code_char code = true
    /\ Js.clock h = Js.clock (Js.host w)
    /\ Js.clock_reads h = Js.clock_reads (Js.host w)
    /\ Js.random h = Js.random (Js.host w).
Proof.
  revert result w. induction n as [|n IH]; intros result w Hlo Hhi; simpl.
  - exists EmptyString, (Js.host w). rewrite append_nil_r.
    destruct w; repeat split; reflexivity.
  - unfold Js.bind, Js.Math_random.
    destruct (pick_in_range _ (Hlo (Js.random_draws (Js.host w)))
                (Hhi (Js.random_draws (Js.host w)))) as (c & Hp & Hc).
    rewrite Hp.
    destruct (IH (result ++ String c EmptyString)%string
                 (Js.mkWorld (Js.draw (Js.host w)) (Js.store w)) Hlo Hhi)
      as (code & h & E & Hl & Hf & H1 & H2 & H3).
    exists (String c code), h. rewrite E, append_assoc. simpl.
    rewrite Hl, Hc, Hf. repeat split; assumption.
Qed.

(** X12.  Whatever numbers of [[0, 1)] [Math.random()] returns,
    [generateInviteCode] returns a code that [validateInviteCode]
    accepts; it reads no clock and writes nothing. *)
Theorem generated_invite_code_is_valid (St : Type) (w : Js.World St) :
  (forall k, 0 <= Js.random (Js.host w) k)%Q ->
  (forall k, Js.random (Js.host w) k < 1)%Q ->
  exists code w',
    QRCodeService.generateInviteCode w = (Js.Return code, w')
    /\ QRCodeService.validateInviteCode code = true
    /\ Js.store w' = Js.store w
    /\ Js.clock_reads (Js.host w') = Js.clock_reads (Js.host w).
Proof.
  intros Hlo Hhi.
  destruct (generate_from_run St 6 EmptyString w Hlo Hhi)
    as (code & h & E & Hl & Hf & _ & H2 & _).
  exists code, (Js.mkWorld h (Js.store w)).
  unfold QRCodeService.generateInviteCode. rewrite E.
  split; [reflexivity|]. split; [|split; [reflexivity | exact H2]].
  unfold QRCodeService.validateInviteCode, Re.test_anchored.
  apply fullmatch_lang, lang_times_class. split; assumption.
Qed.

Lemma sample_random_in_range (k : nat) :
  (0 <= Js.random JsExamples.sample_host k)%Q
  /\ (Js.random JsExamples.sample_host k < 1)%Q.
Proof.
  change (Js.random JsExamples.sample_host k)
    with (inject_Z (Z.of_nat ((5 * k) mod 36)) / 36)%Q.
  set (n := ((5 * k) mod 36)%nat).
  assert (Hn : (n < 36)%nat) by (apply Nat.mod_upper_bound; discriminate).
  assert (H0 : (0 <= inject_Z (Z.of_nat n))%Q).
  { change 0%Q with (inject_Z 0). rewrite <- Zle_Qle. lia. }
  assert (H1 : (inject_Z (Z.of_nat n) < 36)%Q).
  { change 36%Q with (inject_Z 36). rewrite <- Zlt_Qlt. lia. }
  assert (Hd : (inject_Z (Z.of_nat n) / 36
                == inject_Z (Z.of_nat n) * (1 # 36))%Q) by field.
  split; rewrite Hd; lra.
Qed.

Lemma generated_invite_code_is_valid_witness :
  exists code w',
    QRCodeService.generateInviteCode JsExamples.fresh = (Js.Return code, w')
    /\ QRCodeService.validateInviteCode code = true
    /\ Js.store w' = Js.store JsExamples.fresh
    /\ Js.clock_reads (Js.host w')
       = Js.clock_reads (Js.host JsExamples.fresh).
Proof.
  apply (generated_invite_code_is_valid FamilyService.Store JsExamples.fresh).
  - intros k. apply sample_random_in_range.
  - intros k. apply sample_random_in_range.
Defined.

(* ================================================================== *)
(** * Properties of the family service                                  *)
(* ================================================================== *)

(** ** Maps *)

Lemma get_set_same (V : Type) (m : Js.Map V) (k : string) (v : V) :
  Js.get (Js.set m k v) k = Some v.
Proof.
  induction m as [|[k0 v0] m IH]; simpl.
  - now rewrite String.eqb_refl.
  - destruct (String.eqb k0 k) eqn:E; simpl; rewrite E; [reflexivity | exact IH].
Qed.

Lemma distinct_snoc (xs : list string) (x : string) :
  FamilyService.distinct (xs ++ [x])
  = FamilyService.distinct xs && negb (existsb (String.eqb x) xs).
Proof.
  induction xs as [|y xs IH]; simpl; [reflexivity|].
  rewrite IH, existsb_app. simpl. rewrite orb_false_r.
  rewrite (String.eqb_sym x y).
  destruct (existsb (String.eqb y) xs), (String.eqb y x),
    (FamilyService.distinct xs), (existsb (String.eqb x) xs); reflexivity.
Qed.

(** The keys after [set]: the same, or one more at the end. *)
Lemma keys_set (V : Type) (m : Js.Map V) (k : string) (v : V) :
  List.map fst (Js.set m k v)
  = if existsb (String.eqb k) (List.map fst m)
    then List.map fst m
    else List.map fst m ++ [k].
Proof.
  induction m as [|[k0 v0] m IH]; simpl; [reflexivity|].
  rewrite (String.eqb_sym k k0).
  destruct (String.eqb k0 k) eqn:E; simpl; [reflexivity|].
  rewrite IH. destruct (existsb (String.eqb k) (List.map fst m)); reflexivity.
Qed.

Lemma distinct_keys_set (V : Type) (m : Js.Map V) (k : string) (v : V) :
  FamilyService.distinct (List.map fst m) = true ->
  FamilyService.distinct (List.map fst (Js.set m k v)) = true.
Proof.
  intros H. rewrite keys_set.
  destruct (existsb (String.eqb k) (List.map fst m)) eqn:E; [assumption|].
  now rewrite distinct_snoc, H, E.
Qed.

(** A property of the entries survives [set] when the new entry has
    it. *)
Lemma forallb_set (V : Type) (ok : string * V -> bool) (m : Js.Map V)
  (k : string) (v : V) :
  forallb ok m = true -> ok (k, v) = true ->
  forallb ok (Js.set m k v) = true.
Proof.
  intros Hm Hv. induction m as [|[k0 v0] m IH]; simpl.
  - now rewrite Hv.
  - simpl in Hm. apply andb_true_iff in Hm. destruct Hm as [H0 Hm].
    destruct (String.eqb k0 k) eqn:E; simpl.
    + apply String.eqb_eq in E. subst k0. now rewrite Hv, Hm.
    + now rewrite H0, IH.
Qed.

Lemma get_forallb (V : Type) (ok : string * V -> bool) (m : Js.Map V)
  (k : string) (v : V) :
  forallb ok m = true -> Js.get m k = Some v -> ok (k, v) = true.
Proof.
  induction m as [|[k0 v0] m IH]; simpl; [discriminate|].
  intros H. apply andb_true_iff in H. destruct H as [H0 Hm].
  destruct (String.eqb k0 k) eqn:E.
  - apply String.eqb_eq in E. subst k0. intros Hv. injection Hv as <-.
    assumption.
  - now apply IH.
Qed.

(** ** The calls, case by case *)

Arguments Js.date_gt : simpl never.
Arguments Js.string_of_int : simpl never.

Section FamilyFacts.

Import Js.

Variable rt : Runtime.

(** What [joinFamily] does, test by test. *)
Lemma joinFamily_run (inviteCode userId userName userEmail : string)
  (w : World FamilyService.Store) :
  FamilyService.joinFamily rt inviteCode userId userName userEmail w
  = match get (FamilyService.invites (store w)) inviteCode with
    | None => (Throw "Invalid or expired invite code", w)
    | Some invite =>
        if negb (FamilyInvite.isActive invite)
        then (Throw "Invalid or expired invite code", w)
        else
          let w1 := mkWorld (tick (host w)) (store w) in
          if date_gt (Some (now (host w)))
                     (Date_parse rt (FamilyInvite.expiresAt invite))
          then (Throw "Invite code has expired", w1)
          else
            match get (FamilyService.families (store w))
                      (FamilyInvite.familyId invite) with
            | None => (Throw "Family not found", w1)
            | Some family =>
                match find (FamilyService.is_user userId)
                           (Family.members family) with
                | Some _ =>
                    (Throw "User is already a member of this family", w1)
                | None =>
                    let newMember :=
                      FamilyMember.mk
                        ("member_" ++ string_of_int (now (tick (host w))))
                        (Family.id family) userId userName userEmail
                        FamilyMember.member
                        (toISOString rt (now (tick (tick (host w)))))
                        true None in
                    let family' :=
                      Family.set_members family
                        (Family.members family ++ [newMember]) in
                    (Return family',
                     mkWorld (tick (tick (tick (host w))))
                       (FamilyService.mkStore
                          (set (FamilyService.families (store w))
                               (FamilyInvite.familyId invite) family')
                          (set (FamilyService.invites (store w))
                               inviteCode (FamilyInvite.use invite))))
                end
            end
    end.
Proof.
  unfold FamilyService.joinFamily, QRCodeService.isInviteExpired, bind,
    Date_now, read, write, ret, throw.
  cbn -[date_gt String.append string_of_int].
  destruct (get (FamilyService.invites (store w)) inviteCode) as [invite|];
    [|reflexivity].
  destruct (FamilyInvite.isActive invite);
    cbn -[date_gt String.append string_of_int]; [|reflexivity].
  destruct (date_gt (Some (now (host w)))
                    (Date_parse rt (FamilyInvite.expiresAt invite)));
    [reflexivity|].
  destruct (get (FamilyService.families (store w)) _) as [family|];
    [|reflexivity].
  destruct (find _ _); reflexivity.
Qed.

(** What [createFamily] returns and writes. *)
Lemma createFamily_run (name createdBy : string)
  (w : World FamilyService.Store) :
  exists familyId inviteCode qrCode createdAt memberId joinedAt inviteId h,
    FamilyService.createFamily rt name createdBy w
    = (Return
         (Family.mk familyId name createdBy createdAt inviteCode qrCode
            [FamilyMember.mk memberId familyId createdBy "Family Admin"
               "admin@family.com" FamilyMember.admin joinedAt true None]
            true),
       mkWorld h
         (FamilyService.mkStore
            (set (FamilyService.families (store w)) familyId
               (Family.mk familyId name createdBy createdAt inviteCode qrCode
                  [FamilyMember.mk memberId familyId createdBy "Family Admin"
                     "admin@family.com" FamilyMember.admin joinedAt true None]
                  true))
            (set (FamilyService.invites (store w)) inviteCode
               (FamilyInvite.mk inviteId familyId inviteCode qrCode createdBy
                  (toISOString rt
                     (clock (host w) (S (clock_reads (host w)))
                      + FamilyService.seven_days))
                  None 0 true)))).
Proof.
  unfold FamilyService.createFamily, QRCodeService.generateInviteCode, bind,
    Date_now, Math_random, read, write, ret.
  cbn -[String.append string_of_int substring QRCodeService.pick
        FamilyService.seven_days Z.add].
  do 8 eexists. reflexivity.
Qed.

(** What [removeMember] returns and writes. *)
Lemma removeMember_run (familyId userId : string)
  (w : World FamilyService.Store) :
  FamilyService.removeMember familyId userId w
  = match get (FamilyService.families (store w)) familyId with
    | None => (Return false, w)
    | Some family =>
        (Return true,
         mkWorld (host w)
           (FamilyService.mkStore
              (set (FamilyService.families (store w)) familyId
                 (Family.set_members family
                    (filter (fun member =>
                               negb (FamilyService.is_user userId member))
                            (Family.members family))))
              (FamilyService.invites (store w))))
    end.
Proof.
  unfold FamilyService.removeMember, bind, read, write, ret. simpl.
  destruct (get (FamilyService.families (store w)) familyId); reflexivity.
Qed.

(** What [generateNewInvite] returns and writes. *)
Lemma generateNewInvite_run (familyId createdBy : string)
  (w : World FamilyService.Store) :
  match get (FamilyService.families (store w)) familyId with
  | None =>
      FamilyService.generateNewInvite rt familyId createdBy w
      = (Throw "Family not found", w)
  | Some _ =>
      exists inviteCode qrCode expiresAt inviteId h,
        FamilyService.generateNewInvite rt familyId createdBy w
        = (Return (FamilyInvite.mk inviteId familyId inviteCode qrCode
                     createdBy expiresAt None 0 true),
           mkWorld h
             (FamilyService.mkStore (FamilyService.families (store w))
                (set (FamilyService.invites (store w)) inviteCode
                   (FamilyInvite.mk inviteId familyId inviteCode qrCode
                      createdBy expiresAt None 0 true))))
  end.
Proof.
  unfold FamilyService.generateNewInvite, QRCodeService.generateInviteCode,
    bind, Date_now, Math_random, read, write, ret, throw.
  cbn -[String.append string_of_int substring QRCodeService.pick
        FamilyService.seven_days Z.add].
  destruct (get (FamilyService.families (store w)) familyId); [|reflexivity].
  cbn -[String.append string_of_int substring QRCodeService.pick
        FamilyService.seven_days Z.add].
  do 5 eexists. reflexivity.
Qed.

End FamilyFacts.

(** ** Members *)

Lemma find_is_user_none (userId : string) (ms : list FamilyMember.t) :
  find (FamilyService.is_user userId) ms = None ->
  existsb (String.eqb userId) (List.map FamilyMember.userId ms) = false.
Proof.
  induction ms as [|m ms IH]; simpl; [reflexivity|].
  unfold FamilyService.is_user at 1.
  rewrite (String.eqb_sym userId).
  destruct (String.eqb (FamilyMember.userId m) userId); [discriminate|].
  exact IH.
Qed.

Lemma find_none_existsb (A : Type) (p : A -> bool) (xs : list A) :
  find p xs = None <-> existsb p xs = false.
Proof.
  induction xs as [|x xs IH]; simpl; [tauto|].
  destruct (p x); simpl; [split; discriminate | exact IH].
Qed.

Lemma existsb_filter_out (userId : string) (ms : list FamilyMember.t) :
  existsb (FamilyService.is_user userId)
    (filter (fun member => negb (FamilyService.is_user userId member)) ms)
  = false.
Proof.
  induction ms as [|m ms IH]; simpl; [reflexivity|].
  destruct (FamilyService.is_user userId m) eqn:E; simpl; [exact IH|].
  now rewrite E.
Qed.

Lemma existsb_map_filter (x : string) (p : FamilyMember.t -> bool)
  (ms : list FamilyMember.t) :
  existsb (String.eqb x) (List.map FamilyMember.userId ms) = false ->
  existsb (String.eqb x) (List.map FamilyMember.userId (filter p ms)) = false.
Proof.
  induction ms as [|m ms IH]; simpl; [reflexivity|].
  intros H. apply orb_false_iff in H. destruct H as [H1 H2].
  destruct (p m); simpl; [rewrite H1|]; now apply IH.
Qed.

Lemma distinct_filter (p : FamilyMember.t -> bool)
  (ms : list FamilyMember.t) :
  FamilyService.distinct (List.map FamilyMember.userId ms) = true ->
  FamilyService.distinct (List.map FamilyMember.userId (filter p ms)) = true.
Proof.
  induction ms as [|m ms IH]; simpl; [reflexivity|].
  intros H. apply andb_true_iff in H. destruct H as [H1 H2].
  destruct (p m); simpl; [|now apply IH].
  rewrite IH by assumption. rewrite andb_true_r.
  apply negb_true_iff in H1. apply negb_true_iff.
  now apply existsb_map_filter.
Qed.

Lemma forallb_filter (A : Type) (ok p : A -> bool) (xs : list A) :
  forallb ok xs = true -> forallb ok (filter p xs) = true.
Proof.
  induction xs as [|x xs IH]; simpl; [reflexivity|].
  intros H. apply andb_true_iff in H. destruct H as [H1 H2].
  destruct (p x); simpl; [rewrite H1|]; now apply IH.
Qed.

Lemma set_members_same (family : Family.t) :
  Family.set_members family (Family.members family) = family.
Proof. destruct family; reflexivity. Qed.

(** Writing back what was there changes nothing. *)
Lemma set_set_back (V : Type) (m : Js.Map V) (k : string) (v v' : V) :
  Js.get m k = Some v -> Js.set (Js.set m k v') k v = m.
Proof.
  induction m as [|[k0 v0] m IH]; simpl; [discriminate|].
  destruct (String.eqb k0 k) eqn:E; simpl; rewrite E.
  - intros H. injection H as ->. reflexivity.
  - intros H. now rewrite IH.
Qed.

(** With distinct keys, an entry of the map is what [get] finds. *)
Lemma in_get (V : Type) (m : Js.Map V) (k : string) (v : V) :
  FamilyService.distinct (List.map fst m) = true ->
  In (k, v) m -> Js.get m k = Some v.
Proof.
  induction m as [|[k0 v0] m IH]; simpl; [tauto|].
  intros Hd [H|H].
  - injection H as -> ->. now rewrite String.eqb_refl.
  - apply andb_true_iff in Hd. destruct Hd as [Hn Hd].
    destruct (String.eqb k0 k) eqn:E.
    + apply String.eqb_eq in E. subst k0. exfalso.
      apply negb_true_iff in Hn.
      assert (Hx : existsb (String.eqb k) (List.map fst m) = true).
      { apply existsb_exists. exists k. split; [|apply String.eqb_refl].
        apply in_map_iff. now exists (k, v). }
      congruence.
    + now apply IH.
Qed.

Lemma find_values_set (V : Type) (p : V -> bool) (m : Js.Map V)
  (k : string) (v : V) :
  find p (Js.values m) = None -> p v = true ->
  find p (Js.values (Js.set m k v)) = Some v.
Proof.
  unfold Js.values.
  induction m as [|[k0 v0] m IH]; simpl; intros Hn Hv.
  - now rewrite Hv.
  - destruct (p v0) eqn:E0; [discriminate|].
    destruct (String.eqb k0 k); simpl; [now rewrite Hv|].
    rewrite E0. now apply IH.
Qed.

Section FamilyTheorems.

Import Js.

Variable rt : Runtime.

(** Each call keeps the maps consistent. *)
Lemma perform_consistent (call : FamilyService.Call)
  (w : World FamilyService.Store) :
  FamilyService.consistent (store w) = true ->
  FamilyService.consistent (store (FamilyService.perform rt call w)) = true.
Proof.
  unfold FamilyService.consistent. intros H.
  apply andb_true_iff in H. destruct H as [H Hi].
  apply andb_true_iff in H. destruct H as [H Hf].
  apply andb_true_iff in H. destruct H as [Hkf Hki].
  destruct call as [name createdBy|inviteCode userId userName userEmail
                   |familyId userId|familyId createdBy];
    cbn [FamilyService.perform].
  - destruct (createFamily_run rt name createdBy w)
      as (fid & code & qr & cr & mid & jn & iid & h & E).
    rewrite E. simpl.
    rewrite distinct_keys_set, distinct_keys_set by assumption. simpl.
    rewrite forallb_set, forallb_set; try assumption; try reflexivity.
    + simpl. apply String.eqb_refl.
    + simpl. unfold FamilyService.member_ok. simpl.
      now rewrite !String.eqb_refl.
  - rewrite joinFamily_run.
    destruct (get (FamilyService.invites (store w)) inviteCode)
      as [invite|] eqn:Ei; simpl;
      [|now rewrite Hkf, Hki, Hf, Hi].
    destruct (FamilyInvite.isActive invite); simpl;
      [|now rewrite Hkf, Hki, Hf, Hi].
    destruct (date_gt _ _); simpl; [now rewrite Hkf, Hki, Hf, Hi|].
    destruct (get (FamilyService.families (store w))
                  (FamilyInvite.familyId invite)) as [family|] eqn:Ef;
      simpl; [|now rewrite Hkf, Hki, Hf, Hi].
    destruct (find (FamilyService.is_user userId) (Family.members family))
      eqn:Em; simpl; [now rewrite Hkf, Hki, Hf, Hi|].
    rewrite distinct_keys_set, distinct_keys_set by assumption. simpl.
    pose proof (get_forallb _ _ _ _ _ Hf Ef) as Hok.
    pose proof (get_forallb _ _ _ _ _ Hi Ei) as Hiok.
    simpl in Hok, Hiok.
    apply andb_true_iff in Hok. destruct Hok as [Hok Hms].
    apply andb_true_iff in Hok. destruct Hok as [Hid Hdis].
    rewrite forallb_set, forallb_set; try assumption; try reflexivity.
    simpl. rewrite Hid. simpl.
    rewrite List.map_app. simpl. rewrite distinct_snoc, Hdis. simpl.
    rewrite (find_is_user_none _ _ Em). simpl.
    rewrite forallb_app. simpl.
    unfold FamilyService.member_ok at 2. simpl.
    rewrite String.eqb_refl. simpl. rewrite andb_true_r.
    exact Hms.
  - rewrite removeMember_run.
    destruct (get (FamilyService.families (store w)) familyId)
      as [family|] eqn:Ef; simpl; [|now rewrite Hkf, Hki, Hf, Hi].
    rewrite distinct_keys_set by assumption. rewrite Hki, Hi. simpl.
    rewrite andb_true_r.
    pose proof (get_forallb _ _ _ _ _ Hf Ef) as Hok. simpl in Hok.
    apply andb_true_iff in Hok. destruct Hok as [Hok Hms].
    apply andb_true_iff in Hok. destruct Hok as [Hid Hdis].
    apply forallb_set; [assumption|]. simpl. rewrite Hid. simpl.
    rewrite distinct_filter by assumption. simpl.
    apply forallb_filter.
    exact Hms.
  - pose proof (generateNewInvite_run rt familyId createdBy w) as R.
    destruct (get (FamilyService.families (store w)) familyId)
      as [family|] eqn:Ef.
    + destruct R as (code & qr & ex & iid & h & E). rewrite E. simpl.
      rewrite Hkf, Hf. rewrite distinct_keys_set by assumption. simpl.
      apply forallb_set; [assumption|]. simpl. apply String.eqb_refl.
    + rewrite R. simpl. now rewrite Hkf, Hki, Hf, Hi.
Qed.

(** X13.  A [joinFamily] that throws has written nothing: both maps are
    as they were, and the message is one of the four the method knows. *)
Theorem joinFamily_failure_writes_nothing
  (inviteCode userId userName userEmail : string)
  (w : World FamilyService.Store) (message : string) :
  fst (FamilyService.joinFamily rt inviteCode userId userName userEmail w)
  = Throw message ->
  store (snd (FamilyService.joinFamily rt inviteCode userId userName
                userEmail w))
  = store w
  /\ In message ["Invalid or expired invite code"; "Invite code has expired";
                 "Family not found";
                 "User is already a member of this family"].
Proof.
  rewrite joinFamily_run.
  destruct (get (FamilyService.invites (store w)) inviteCode) as [invite|];
    simpl; [|intros H; injection H as <-; auto].
  destruct (FamilyInvite.isActive invite); simpl;
    [|intros H; injection H as <-; auto].
  destruct (date_gt _ _); simpl; [intros H; injection H as <-; auto|].
  destruct (get (FamilyService.families (store w)) _) as [family|];
    simpl; [|intros H; injection H as <-; auto].
  destruct (find _ _); simpl; [intros H; injection H as <-; auto 6|].
  discriminate.
Qed.

(** X14.  However the service is called, starting from empty maps, a
    family never lists a user twice; it stands under its own id, its
    members carry that id, nobody but its creator is an admin, and every
    invite stands under its own code. *)
Theorem service_runs_keep_maps_consistent
  (calls : list FamilyService.Call) (h : Host) :
  FamilyService.consistent
    (store (FamilyService.run_calls rt calls
              (mkWorld h FamilyService.empty)))
  = true.
Proof.
  assert (H : forall w,
             FamilyService.consistent (store w) = true ->
             FamilyService.consistent
               (store (FamilyService.run_calls rt calls w)) = true).
  { induction calls as [|call calls IH]; intros w Hw; simpl.
    - exact Hw.
    - apply IH. now apply perform_consistent. }
  apply H. reflexivity.
Qed.

(** What a successful [joinFamily] has found and written. *)
Lemma joinFamily_returned
  (inviteCode userId userName userEmail : string)
  (w w1 : World FamilyService.Store) (family' : Family.t) :
  FamilyService.joinFamily rt inviteCode userId userName userEmail w
  = (Return family', w1) ->
  exists invite family newMember,
    get (FamilyService.invites (store w)) inviteCode = Some invite
    /\ FamilyInvite.isActive invite = true
    /\ get (FamilyService.families (store w)) (FamilyInvite.familyId invite)
       = Some family
    /\ find (FamilyService.is_user userId) (Family.members family) = None
    /\ FamilyMember.userId newMember = userId
    /\ family' = Family.set_members family
                   (Family.members family ++ [newMember])
    /\ store w1
       = FamilyService.mkStore
           (set (FamilyService.families (store w))
                (FamilyInvite.familyId invite) family')
           (set (FamilyService.invites (store w)) inviteCode
                (FamilyInvite.use invite)).
Proof.
  rewrite joinFamily_run.
  destruct (get (FamilyService.invites (store w)) inviteCode) as [invite|];
    [|discriminate].
  destruct (FamilyInvite.isActive invite) eqn:Ea; simpl; [|discriminate].
  destruct (date_gt _ _); [discriminate|].
  destruct (get (FamilyService.families (store w)) _) as [family|] eqn:Ef;
    [|discriminate].
  destruct (find _ _) eqn:Em; [discriminate|].
  intros H. injection H as <- <-.
  eexists invite, family, _. simpl.
  repeat split; try reflexivity; assumption.
Qed.

Lemma is_user_filter_new (userId : string) (ms : list FamilyMember.t)
  (m : FamilyMember.t) :
  find (FamilyService.is_user userId) ms = None ->
  FamilyMember.userId m = userId ->
  filter (fun member => negb (FamilyService.is_user userId member))
         (ms ++ [m])
  = ms.
Proof.
  intros Hn Hm. rewrite filter_app. simpl.
  unfold FamilyService.is_user at 2. rewrite Hm, String.eqb_refl. simpl.
  rewrite app_nil_r. clear - Hn.
  induction ms as [|x ms IH]; simpl in *; [reflexivity|].
  destruct (FamilyService.is_user userId x); [discriminate|]. simpl.
  now rewrite IH.
Qed.

(** X15.  Joining and then removing the same user is a round trip: when
    [joinFamily] has returned a family, [removeMember] with that family's
    id and the user's id returns [true] and leaves the map of families
    exactly as it was before the join. *)
Theorem join_then_remove_restores_families
  (inviteCode userId userName userEmail : string)
  (w : World FamilyService.Store) (family' : Family.t) :
  let joined :=
    FamilyService.joinFamily rt inviteCode userId userName userEmail w in
  FamilyService.consistent (store w) = true ->
  fst joined = Return family' ->
  fst (FamilyService.removeMember (Family.id family') userId (snd joined))
  = Return true
  /\ FamilyService.families
       (store (snd (FamilyService.removeMember (Family.id family') userId
                      (snd joined))))
     = FamilyService.families (store w).
Proof.
  intros joined Hc Hj.
  assert (Hj' : joined = (Return family', snd joined))
    by (rewrite <- Hj; apply surjective_pairing).
  subst joined. revert Hj'.
  generalize (snd (FamilyService.joinFamily rt inviteCode userId userName
                     userEmail w)) as w1.
  clear Hj. intros w1 Hj.
  destruct (joinFamily_returned _ _ _ _ _ _ _ Hj)
    as (invite & family & newMember & Ei & _ & Ef & Em & Hu & -> & Hs).
  unfold FamilyService.consistent in Hc.
  apply andb_true_iff in Hc. destruct Hc as [Hc _].
  apply andb_true_iff in Hc. destruct Hc as [_ Hf].
  pose proof (get_forallb _ _ _ _ _ Hf Ef) as Hok. simpl in Hok.
  apply andb_true_iff in Hok. destruct Hok as [Hok _].
  apply andb_true_iff in Hok. destruct Hok as [Hid _].
  apply String.eqb_eq in Hid.
  rewrite removeMember_run, Hs. simpl. rewrite <- Hid, get_set_same. simpl.
  split; [reflexivity|].
  rewrite is_user_filter_new by assumption.
  change (Family.set_members
            (Family.set_members family (Family.members family ++ [newMember]))
            (Family.members family))
    with (Family.set_members family (Family.members family)).
  rewrite set_members_same. now apply set_set_back.
Qed.

(** X16.  An invite is never used up.  After one user has joined with a
    code, a second user who is not yet in the family and presents the same
    code, at whatever later time, either joins too or is told that the
    code has expired: [usedCount] and [maxUses] refuse nobody. *)
Theorem invite_is_never_used_up
  (inviteCode user1 name1 email1 user2 name2 email2 : string)
  (w w2 : World FamilyService.Store) (family1 : Family.t) :
  let joined :=
    FamilyService.joinFamily rt inviteCode user1 name1 email1 w in
  fst joined = Return family1 ->
  store w2 = store (snd joined) ->
  FamilyService.has_member user2 family1 = false ->
  (exists family2,
     fst (FamilyService.joinFamily rt inviteCode user2 name2 email2 w2)
     = Return family2
     /\ FamilyService.has_member user1 family2 = true
     /\ FamilyService.has_member user2 family2 = true)
  \/ fst (FamilyService.joinFamily rt inviteCode user2 name2 email2 w2)
     = Throw "Invite code has expired".
Proof.
  intros joined Hj Hs2 Hm2.
  assert (Hj' : joined = (Return family1, snd joined))
    by (rewrite <- Hj; apply surjective_pairing).
  subst joined. revert Hs2 Hj'.
  generalize (snd (FamilyService.joinFamily rt inviteCode user1 name1 email1
                     w)) as w1.
  clear Hj. intros w1 Hs2 Hj.
  destruct (joinFamily_returned _ _ _ _ _ _ _ Hj)
    as (invite & family & newMember & Ei & Ea & Ef & Em & Hu & -> & Hs).
  rewrite joinFamily_run, Hs2, Hs. simpl.
  rewrite get_set_same. simpl. rewrite Ea. simpl.
  destruct (date_gt _ _); [right; reflexivity|]. left.
  rewrite get_set_same.
  unfold FamilyService.has_member in Hm2. simpl in Hm2.
  apply find_none_existsb in Hm2. simpl. rewrite Hm2. simpl.
  eexists. split; [reflexivity|].
  unfold FamilyService.has_member, FamilyService.is_user. simpl.
  rewrite !existsb_app. simpl. rewrite Hu, !String.eqb_refl. simpl.
  rewrite !orb_true_r. auto.
Qed.

(** X17.  A new family's invite code works for seven days, to the
    millisecond.  With a runtime that reads back the expiry date it
    wrote, any user other than the creator who presents the code joins
    the creator's family when the clock shows at most the time of issue
    plus seven days, and is told that the code has expired after
    that. *)
Theorem fresh_invite_lasts_seven_days
  (name createdBy userId userName userEmail : string)
  (w w' : World FamilyService.Store) :
  let created := FamilyService.createFamily rt name createdBy w in
  let expiry :=
    (clock (host w) (S (clock_reads (host w))) + FamilyService.seven_days)%Z in
  Date_parse rt (toISOString rt expiry) = Some expiry ->
  userId <> createdBy ->
  store w' = store (snd created) ->
  exists family,
    fst created = Return family
    /\ FamilyService.has_member createdBy family = true
    /\ ((now (host w') <= expiry)%Z ->
        exists family',
          fst (FamilyService.joinFamily rt (Family.inviteCode family) userId
                 userName userEmail w')
          = Return family'
          /\ Family.id family' = Family.id family
          /\ FamilyService.has_member createdBy family' = true
          /\ FamilyService.has_member userId family' = true)
    /\ ((expiry < now (host w'))%Z ->
        fst (FamilyService.joinFamily rt (Family.inviteCode family) userId
               userName userEmail w')
        = Throw "Invite code has expired").
Proof.
  intros created expiry Hrt Hne Hs. subst created.
  destruct (createFamily_run rt name createdBy w)
    as (fid & code & qr & cr & mid & jn & iid & h & E).
  fold expiry in E. rewrite E in *. simpl in Hs.
  eexists. split; [reflexivity|].
  assert (Hu : (createdBy =? userId) = false).
  { apply String.eqb_neq. congruence. }
  split; [unfold FamilyService.has_member; simpl;
          unfold FamilyService.is_user; simpl;
          now rewrite String.eqb_refl|].
  simpl. rewrite joinFamily_run, Hs. simpl.
  rewrite !get_set_same. simpl. rewrite Hrt.
  unfold FamilyService.is_user at 1 2. simpl. rewrite Hu.
  unfold date_gt. split.
  - intros Hle. apply Z.ltb_ge in Hle. rewrite Hle.
    eexists. split; [reflexivity|]. simpl.
    unfold FamilyService.has_member, FamilyService.is_user. simpl.
    rewrite !String.eqb_refl. simpl. rewrite orb_true_r. auto.
  - intros Hlt. apply Z.ltb_lt in Hlt. now rewrite Hlt.
Qed.

(** X18.  After [removeMember(familyId, userId)], looking the user up
    with [getFamilyByUserId] never answers with that family, whether the
    removal returned [true] or [false]. *)
Theorem removed_member_is_not_found_there (familyId userId : string)
  (w : World FamilyService.Store) (family : Family.t) :
  FamilyService.consistent (store w) = true ->
  fst (FamilyService.getFamilyByUserId userId
         (snd (FamilyService.removeMember familyId userId w)))
  = Return (Some family) ->
  String.eqb (Family.id family) familyId = false.
Proof.
  intros Hc Hg. apply String.eqb_neq. intros Hid.
  assert (Hc' : FamilyService.consistent
                  (store (snd (FamilyService.removeMember familyId userId w)))
                = true).
  { exact (perform_consistent
             (FamilyService.RemoveMember familyId userId) w Hc). }
  unfold FamilyService.getFamilyByUserId, bind, read, ret in Hg.
  simpl in Hg. injection Hg as Hg.
  apply find_some in Hg. destruct Hg as [Hin Hmem].
  unfold values in Hin. apply in_map_iff in Hin.
  destruct Hin as [[k f] [Hf Hin]]. simpl in Hf. subst f.
  unfold FamilyService.consistent in Hc'.
  apply andb_true_iff in Hc'. destruct Hc' as [Hc' _].
  apply andb_true_iff in Hc'. destruct Hc' as [Hc' Hok].
  apply andb_true_iff in Hc'. destruct Hc' as [Hkeys _].
  pose proof (in_get _ _ _ _ Hkeys Hin) as Hget.
  assert (Hk : k = familyId).
  { rewrite forallb_forall in Hok. specialize (Hok _ Hin). simpl in Hok.
    apply andb_true_iff in Hok. destruct Hok as [Hok _].
    apply andb_true_iff in Hok. destruct Hok as [Hk _].
    apply String.eqb_eq in Hk. congruence. }
  subst k. rewrite removeMember_run in Hget.
  destruct (get (FamilyService.families (store w)) familyId)
    as [family0|] eqn:E0; simpl in Hget.
  - rewrite get_set_same in Hget. injection Hget as <-.
    unfold FamilyService.has_member in Hmem. simpl in Hmem.
    now rewrite existsb_filter_out in Hmem.
  - congruence.
Qed.

(** X19.  A user who is in no family and creates one is found in it:
    [createFamily] returns a family whose only member is the creator, as
    admin, and afterwards both [getFamilyByUserId(createdBy)] and
    [getFamily(family.id)] answer with that family. *)
Theorem creator_finds_created_family (name createdBy : string)
  (w : World FamilyService.Store) :
  fst (FamilyService.getFamilyByUserId createdBy w) = Return None ->
  exists family w1,
    FamilyService.createFamily rt name createdBy w = (Return family, w1)
    /\ List.map (fun m => (FamilyMember.userId m, FamilyMember.role m))
                (Family.members family)
       = [(createdBy, FamilyMember.admin)]
    /\ fst (FamilyService.getFamilyByUserId createdBy w1)
       = Return (Some family)
    /\ fst (FamilyService.getFamily (Family.id family) w1)
       = Return (Some family).
Proof.
  intros Hn.
  destruct (createFamily_run rt name createdBy w)
    as (fid & code & qr & cr & mid & jn & iid & h & E).
  rewrite E. do 2 eexists. split; [reflexivity|].
  split; [reflexivity|].
  unfold FamilyService.getFamilyByUserId, FamilyService.getFamily, bind,
    read, ret in *. simpl in *. injection Hn as Hn.
  rewrite get_set_same. split; [|reflexivity].
  f_equal. apply find_values_set; [assumption|].
  unfold FamilyService.has_member, FamilyService.is_user. simpl.
  now rewrite String.eqb_refl.
Qed.

(** A family stored under a new key goes to the end of the map. *)
Lemma find_values_set_new (V : Type) (p : V -> bool) (m : Js.Map V)
  (k : string) (v x : V) :
  find p (Js.values m) = Some x -> Js.get m k = None ->
  find p (Js.values (Js.set m k v)) = Some x.
Proof.
  unfold Js.values.
  induction m as [|[k0 v0] m IH]; simpl; [discriminate|].
  destruct (String.eqb k0 k); [discriminate|]. simpl.
  destruct (p v0); [auto|]. apply IH.
Qed.

(** X25.  The family route reports one family at most, the one created
    first.  A user who is in no family and creates two, the second under
    an id not yet in use, is answered 200 with the first family alone;
    the second, of which the user is the admin too, is not reported. *)
Theorem second_family_is_not_listed (name1 name2 userId : string)
  (w : World FamilyService.Store) (first second : Family.t) :
  let created1 := FamilyService.createFamily rt name1 userId w in
  let created2 :=
    FamilyService.createFamily rt name2 userId (snd created1) in
  truthy userId = true ->
  fst (FamilyService.getFamilyByUserId userId w) = Return None ->
  fst created1 = Return first ->
  fst created2 = Return second ->
  get (FamilyService.families (store (snd created1))) (Family.id second)
  = None ->
  FamilyService.has_member userId second = true
  /\ exists response,
       fst (FamilyRoute.GET (Some userId) (snd created2)) = Return response
       /\ FamilyRoute.status response = 200%nat
       /\ FamilyRoute.data response = Some [first].
Proof.
  intros created1 created2 Ht Hn H1 H2 Hnew. subst created1 created2.
  destruct (createFamily_run rt name1 userId w)
    as (fid & code & qr & cr & mid & jn & iid & h & E1).
  rewrite E1 in *. cbn [fst snd] in *. injection H1 as <-.
  match type of H2 with
  | fst (FamilyService.createFamily rt name2 userId ?w1) = _ =>
      destruct (createFamily_run rt name2 userId w1)
        as (fid2 & code2 & qr2 & cr2 & mid2 & jn2 & iid2 & h2 & E2)
  end.
  rewrite E2 in *. cbn [fst snd] in *. injection H2 as <-.
  cbn [store FamilyService.families Family.id] in Hnew.
  assert (Hm : forall f c q r i j n,
             FamilyService.has_member userId
               (Family.mk f n userId r c q
                  [FamilyMember.mk i f userId "Family Admin"
                     "admin@family.com" FamilyMember.admin j true None] true)
             = true).
  { intros. unfold FamilyService.has_member, FamilyService.is_user. simpl.
    now rewrite String.eqb_refl. }
  split; [apply Hm|].
  unfold FamilyRoute.GET, try_catch, bind, FamilyService.getFamilyByUserId,
    read, ret in *.
  rewrite Ht. simpl in *. injection Hn as Hn.
  erewrite find_values_set_new;
    [|apply find_values_set; [exact Hn | apply Hm] | exact Hnew].
  eexists. split; [reflexivity|]. split; reflexivity.
Qed.

(** What [parseQRCode] does. *)
Lemma parseQRCode_run (St : Type) (qrData : string) (w : World St) :
  QRCodeService.parseQRCode rt qrData w
  = match JSON_parse rt qrData with
    | Some (JObj fields) =>
        match get fields "type" with
        | Some (JStr type) =>
            if String.eqb type "family_invite" then
              (if date_gt (Some (now (host w)))
                          (new_Date rt (get fields "expiresAt"))
               then Return None
               else Return (Some (QRCodeService.mkQRData
                                    (get fields "familyId")
                                    (get fields "inviteCode")
                                    (get fields "expiresAt"))),
               mkWorld (tick (host w)) (store w))
            else (Return None, w)
        | _ => (Return None, w)
        end
    | _ => (Return None, w)
    end.
Proof.
  unfold QRCodeService.parseQRCode, try_catch, parse, bind, property, ret,
    throw, Date_now.
  destruct (JSON_parse rt qrData) as [[|b|n|s0|items|fields]|];
    try reflexivity.
  destruct (get fields "type") as [[|b|n|s0|items|fs]|]; try reflexivity.
  cbn [QRCodeService.is_not_family_invite].
  destruct (String.eqb s0 "family_invite"); [|reflexivity].
  cbn [negb fst snd host store].
  destruct (date_gt (Some (now (host w)))
                    (new_Date rt (get fields "expiresAt"))); reflexivity.
Qed.

Lemma joinFamilyByQR_run (qrData userId userName userEmail : string)
  (w : World FamilyService.Store) :
  FamilyService.joinFamilyByQR rt qrData userId userName userEmail w
  = match QRCodeService.parseQRCode rt qrData w with
    | (Return (Some data), w1) =>
        match QRCodeService.inviteCode data with
        | Some (JStr inviteCode) =>
            FamilyService.joinFamily rt inviteCode userId userName userEmail w1
        | _ => (Throw "Invalid or expired invite code", w1)
        end
    | (Return None, w1) => (Throw "Invalid QR code", w1)
    | (Throw message, w1) => (Throw message, w1)
    end.
Proof.
  unfold FamilyService.joinFamilyByQR, bind at 1.
  destruct (QRCodeService.parseQRCode rt qrData w) as [[[data|]|m] w1];
    try reflexivity.
  destruct (QRCodeService.inviteCode data) as [[|b|n|s0|items|fs]|];
    reflexivity.
Qed.

(** X26.  A QR code gives no more than the invite code in it.
    [joinFamilyByQR] returns a family only when the QR data is an object
    of type ['family_invite'] whose [inviteCode] is a string, and then
    it does exactly what [joinFamily] does with that code one clock
    reading later: the [familyId] and the [expiresAt] the QR data claims
    neither choose the family nor prolong the invite. *)
Theorem qr_join_is_join_by_code
  (qrData userId userName userEmail : string)
  (w : World FamilyService.Store) (family : Family.t) :
  fst (FamilyService.joinFamilyByQR rt qrData userId userName userEmail w)
  = Return family ->
  exists fields inviteCode,
    JSON_parse rt qrData = Some (JObj fields)
    /\ get fields "type" = Some (JStr "family_invite")
    /\ get fields "inviteCode" = Some (JStr inviteCode)
    /\ FamilyService.joinFamilyByQR rt qrData userId userName userEmail w
       = FamilyService.joinFamily rt inviteCode userId userName userEmail
           (mkWorld (tick (host w)) (store w)).
Proof.
  rewrite joinFamilyByQR_run, parseQRCode_run.
  destruct (JSON_parse rt qrData) as [[|b|n|s0|items|fields]|];
    try discriminate.
  destruct (get fields "type") as [[|b|n|s0|items|fs]|] eqn:Et;
    try discriminate.
  destruct (String.eqb s0 "family_invite") eqn:Es; [|discriminate].
  apply String.eqb_eq in Es. subst s0.
  destruct (date_gt (Some (now (host w)))
                    (new_Date rt (get fields "expiresAt")));
    [discriminate|].
  cbn [QRCodeService.inviteCode].
  destruct (get fields "inviteCode") as [[|b|n|code|items|fs]|] eqn:Ec;
    try discriminate.
  intros _. exists fields, code. repeat split; assumption.
Qed.

(** X27.  The QR code of a new family works like its invite code, for
    seven days.  With a runtime that reads back the JSON and the expiry
    date it wrote, another user who presents the QR code joins the
    creator's family while the clock shows at most the time of issue plus
    seven days; once that time has passed the QR code is refused as
    ['Invalid QR code']. *)
Theorem fresh_qr_code_lasts_seven_days
  (name createdBy userId userName userEmail : string)
  (w w' : World FamilyService.Store) (family : Family.t) :
  let created := FamilyService.createFamily rt name createdBy w in
  let expiry :=
    (clock (host w) (S (clock_reads (host w))) + FamilyService.seven_days)%Z in
  fst created = Return family ->
  Date_parse rt (toISOString rt expiry) = Some expiry ->
  JSON_parse rt (Family.qrCode family)
  = Some (JObj [("type", JStr "family_invite");
                ("familyId", JStr (Family.id family));
                ("inviteCode", JStr (Family.inviteCode family));
                ("expiresAt", JStr (toISOString rt expiry))]) ->
  userId <> createdBy ->
  store w' = store (snd created) ->
  ((now (host w') <= expiry)%Z ->
   (clock (host w') (S (clock_reads (host w'))) <= expiry)%Z ->
   exists family',
     fst (FamilyService.joinFamilyByQR rt (Family.qrCode family) userId
            userName userEmail w')
     = Return family'
     /\ Family.id family' = Family.id family
     /\ FamilyService.has_member createdBy family' = true
     /\ FamilyService.has_member userId family' = true)
  /\ ((expiry < now (host w'))%Z ->
      fst (FamilyService.joinFamilyByQR rt (Family.qrCode family) userId
             userName userEmail w')
      = Throw "Invalid QR code").
Proof.
  intros created expiry Hc Hrt Hjson Hne Hs. subst created.
  destruct (createFamily_run rt name createdBy w)
    as (fid & code & qr & cr & mid & jn & iid & h & E).
  fold expiry in E. rewrite E in *. cbn [fst snd] in *.
  injection Hc as <-. cbn [Family.qrCode Family.id Family.inviteCode] in *.
  assert (Hu : (createdBy =? userId) = false).
  { apply String.eqb_neq. congruence. }
  rewrite joinFamilyByQR_run, parseQRCode_run, Hjson.
  cbn [get String.eqb Ascii.eqb Bool.eqb new_Date].
  rewrite Hrt. unfold date_gt at 1 2. split.
  - intros Hle1 Hle2. apply Z.ltb_ge in Hle1. rewrite Hle1.
    cbn [QRCodeService.inviteCode].
    rewrite joinFamily_run. cbn [host store]. rewrite Hs. cbn [store].
    cbn [FamilyService.invites FamilyService.families].
    rewrite !get_set_same.
    cbn [FamilyInvite.isActive FamilyInvite.expiresAt FamilyInvite.familyId
         negb].
    rewrite Hrt.
    change (now (tick (host w')))
      with (clock (host w') (S (clock_reads (host w')))).
    unfold date_gt. apply Z.ltb_ge in Hle2. rewrite Hle2.
    cbn [Family.members find]. unfold FamilyService.is_user at 1.
    cbn [FamilyMember.userId]. rewrite Hu.
    eexists. split; [reflexivity|]. cbn [fst].
    unfold FamilyService.has_member, FamilyService.is_user. simpl.
    rewrite !String.eqb_refl. simpl. rewrite orb_true_r. auto.
  - intros Hlt. apply Z.ltb_lt in Hlt. now rewrite Hlt.
Qed.

End FamilyTheorems.

Lemma joinFamily_failure_writes_nothing_witness :
  Js.store
    (snd (FamilyService.joinFamily JsExamples.sample_runtime
            JsExamples.smith_code "alice" "Alice" "alice@example.org"
            JsExamples.with_family))
  = Js.store JsExamples.with_family
  /\ In "User is already a member of this family"
        ["Invalid or expired invite code"; "Invite code has expired";
         "Family not found"; "User is already a member of this family"].
Proof.
  apply (joinFamily_failure_writes_nothing JsExamples.sample_runtime
           JsExamples.smith_code "alice" "Alice" "alice@example.org"
           JsExamples.with_family
           "User is already a member of this family").
  vm_compute. reflexivity.
Defined.

Lemma join_then_remove_restores_families_witness :
  fst (FamilyService.removeMember (Family.id JsExamples.smith_with_bob)
         "bob" JsExamples.with_bob)
  = Js.Return true
  /\ FamilyService.families
       (Js.store
          (snd (FamilyService.removeMember
                  (Family.id JsExamples.smith_with_bob) "bob"
                  JsExamples.with_bob)))
     = FamilyService.families (Js.store JsExamples.with_family).
Proof.
  apply (join_then_remove_restores_families JsExamples.sample_runtime
           JsExamples.smith_code "bob" "Bob" "bob@example.org"
           JsExamples.with_family JsExamples.smith_with_bob);
    vm_compute; reflexivity.
Defined.

Lemma invite_is_never_used_up_witness :
  (exists family2,
     fst (FamilyService.joinFamily JsExamples.sample_runtime
            JsExamples.smith_code "carol" "Carol" "carol@example.org"
            JsExamples.with_bob)
     = Js.Return family2
     /\ FamilyService.has_member "bob" family2 = true
     /\ FamilyService.has_member "carol" family2 = true)
  \/ fst (FamilyService.joinFamily JsExamples.sample_runtime
            JsExamples.smith_code "carol" "Carol" "carol@example.org"
            JsExamples.with_bob)
     = Js.Throw "Invite code has expired".
Proof.
  apply (invite_is_never_used_up JsExamples.sample_runtime
           JsExamples.smith_code "bob" "Bob" "bob@example.org"
           "carol" "Carol" "carol@example.org"
           JsExamples.with_family JsExamples.with_bob
           JsExamples.smith_with_bob); vm_compute; reflexivity.
Defined.

Lemma fresh_invite_lasts_seven_days_witness :
  exists family,
    fst (FamilyService.createFamily JsExamples.sample_runtime "Smith" "alice"
           JsExamples.fresh)
    = Js.Return family
    /\ FamilyService.has_member "alice" family = true
    /\ ((Js.now (Js.host JsExamples.with_family)
         <= Js.clock (Js.host JsExamples.fresh) 1
            + FamilyService.seven_days)%Z ->
        exists family',
          fst (FamilyService.joinFamily JsExamples.sample_runtime
                 (Family.inviteCode family) "bob" "Bob" "bob@example.org"
                 JsExamples.with_family)
          = Js.Return family'
          /\ Family.id family' = Family.id family
          /\ FamilyService.has_member "alice" family' = true
          /\ FamilyService.has_member "bob" family' = true)
    /\ ((Js.clock (Js.host JsExamples.fresh) 1 + FamilyService.seven_days
         < Js.now (Js.host JsExamples.with_family))%Z ->
        fst (FamilyService.joinFamily JsExamples.sample_runtime
               (Family.inviteCode family) "bob" "Bob" "bob@example.org"
               JsExamples.with_family)
        = Js.Throw "Invite code has expired").
Proof.
  apply (fresh_invite_lasts_seven_days JsExamples.sample_runtime "Smith"
           "alice" "bob" "Bob" "bob@example.org" JsExamples.fresh
           JsExamples.with_family);
    [vm_compute; reflexivity | discriminate | vm_compute; reflexivity].
Defined.

Lemma removed_member_is_not_found_there_witness :
  String.eqb (Family.id JsExamples.alice_after_leaving) JsExamples.smith_id
  = false.
Proof.
  apply (removed_member_is_not_found_there JsExamples.sample_runtime
           JsExamples.smith_id "alice"
           JsExamples.two_families JsExamples.alice_after_leaving);
    vm_compute; reflexivity.
Defined.

Lemma creator_finds_created_family_witness :
  exists family w1,
    FamilyService.createFamily JsExamples.sample_runtime "Smith" "alice"
      JsExamples.fresh
    = (Js.Return family, w1)
    /\ List.map (fun m => (FamilyMember.userId m, FamilyMember.role m))
                (Family.members family)
       = [("alice", FamilyMember.admin)]
    /\ fst (FamilyService.getFamilyByUserId "alice" w1)
       = Js.Return (Some family)
    /\ fst (FamilyService.getFamily (Family.id family) w1)
       = Js.Return (Some family).
Proof.
  apply (creator_finds_created_family JsExamples.sample_runtime "Smith"
           "alice" JsExamples.fresh).
  vm_compute. reflexivity.
Defined.

Lemma qr_join_is_join_by_code_witness :
  exists fields inviteCode,
    Js.JSON_parse JsExamples.sample_runtime JsExamples.forged_qr
    = Some (Js.JObj fields)
    /\ Js.get fields "type" = Some (Js.JStr "family_invite")
    /\ Js.get fields "inviteCode" = Some (Js.JStr inviteCode)
    /\ FamilyService.joinFamilyByQR JsExamples.sample_runtime
         JsExamples.forged_qr "bob" "Bob" "bob@example.org"
         JsExamples.with_family
       = FamilyService.joinFamily JsExamples.sample_runtime inviteCode "bob"
           "Bob" "bob@example.org"
           (Js.mkWorld (Js.tick (Js.host JsExamples.with_family))
                       (Js.store JsExamples.with_family)).
Proof.
  apply (qr_join_is_join_by_code JsExamples.sample_runtime
           JsExamples.forged_qr "bob" "Bob" "bob@example.org"
           JsExamples.with_family JsExamples.smith_via_qr).
  vm_compute. reflexivity.
Defined.

Lemma fresh_qr_code_lasts_seven_days_witness :
  ((Js.now (Js.host JsExamples.with_family)
    <= Js.clock (Js.host JsExamples.fresh) 1 + FamilyService.seven_days)%Z ->
   (Js.clock (Js.host JsExamples.with_family)
             (S (Js.clock_reads (Js.host JsExamples.with_family)))
    <= Js.clock (Js.host JsExamples.fresh) 1 + FamilyService.seven_days)%Z ->
   exists family',
     fst (FamilyService.joinFamilyByQR JsExamples.sample_runtime
            (Family.qrCode JsExamples.smith) "bob" "Bob" "bob@example.org"
            JsExamples.with_family)
     = Js.Return family'
     /\ Family.id family' = Family.id JsExamples.smith
     /\ FamilyService.has_member "alice" family' = true
     /\ FamilyService.has_member "bob" family' = true)
  /\ ((Js.clock (Js.host JsExamples.fresh) 1 + FamilyService.seven_days
       < Js.now (Js.host JsExamples.with_family))%Z ->
      fst (FamilyService.joinFamilyByQR JsExamples.sample_runtime
             (Family.qrCode JsExamples.smith) "bob" "Bob" "bob@example.org"
             JsExamples.with_family)
      = Js.Throw "Invalid QR code").
Proof.
  apply (fresh_qr_code_lasts_seven_days JsExamples.sample_runtime "Smith"
           "alice" "bob" "Bob" "bob@example.org" JsExamples.fresh
           JsExamples.with_family JsExamples.smith);
    [vm_compute; reflexivity | vm_compute; reflexivity
    | vm_compute; reflexivity | discriminate | vm_compute; reflexivity].
Defined.

Lemma second_family_is_not_listed_witness :
  FamilyService.has_member "alice" JsExamples.jones = true
  /\ exists response,
       fst (FamilyRoute.GET (Some "alice") JsExamples.two_families)
       = Js.Return response
       /\ FamilyRoute.status response = 200%nat
       /\ FamilyRoute.data response = Some [JsExamples.smith].
Proof.
  apply (second_family_is_not_listed JsExamples.sample_runtime "Smith"
           "Jones" "alice" JsExamples.fresh JsExamples.smith
           JsExamples.jones); vm_compute; reflexivity.
Defined.

(* ================================================================== *)
(** * Properties of the family meal service                             *)
(* ================================================================== *)

Lemma includes_in (xs : list string) (x : string) :
  Js.includes xs x = true <-> In x xs.
Proof.
  unfold Js.includes. rewrite existsb_exists. split.
  - intros (y & Hy & E). apply String.eqb_eq in E. now subst.
  - intros H. exists x. split; [assumption | apply String.eqb_refl].
Qed.

Lemma nth_error_snoc (A : Type) (xs : list A) (x : A) :
  nth_error (xs ++ [x]) (List.length xs) = Some x.
Proof. induction xs as [|y xs IH]; simpl; [reflexivity | exact IH]. Qed.

Lemma update_at_snoc (A : Type) (xs : list A) (x y : A) :
  FamilyMealService.update_at (xs ++ [x]) (List.length xs) y = xs ++ [y].
Proof.
  induction xs as [|z xs IH]; simpl; [reflexivity | now rewrite IH].
Qed.

Section MealFacts.

Import Js.

Variable rt : Runtime.

(** X20.  [updateNotificationPreferences] does not merge.  What it
    returns and stores is built from the request alone: the preferences
    stored before play no part, and a field the request leaves out falls
    back to its default ([whatsappNotifications] to [false], the contact
    details to nothing) even when an earlier update had set it. *)
Theorem preferences_update_does_not_merge (userId : string)
  (first second : PartialPreferences.t)
  (w : World FamilyMealService.Store) :
  let w1 :=
    snd (FamilyMealService.updateNotificationPreferences userId first w) in
  exists updated,
    fst (FamilyMealService.updateNotificationPreferences userId second w1)
    = Return updated
    /\ fst (FamilyMealService.updateNotificationPreferences userId second w)
       = Return updated
    /\ fst (FamilyMealService.getNotificationPreferences userId
              (snd (FamilyMealService.updateNotificationPreferences userId
                      second w1)))
       = Return (Some updated)
    /\ NotificationPreferences.whatsappNotifications updated
       = FamilyMealService.nullish
           (PartialPreferences.whatsappNotifications second) false
    /\ NotificationPreferences.whatsappNumber updated
       = PartialPreferences.whatsappNumber second
    /\ NotificationPreferences.emailAddress updated
       = PartialPreferences.emailAddress second.
Proof.
  unfold FamilyMealService.updateNotificationPreferences,
    FamilyMealService.getNotificationPreferences, bind, read, write, ret.
  simpl. eexists. split; [reflexivity|]. split; [reflexivity|].
  rewrite get_set_same. repeat split; reflexivity.
Qed.

(** What [addParticipant] does. *)
Lemma addParticipant_run (mealId userId : string)
  (w : World FamilyMealService.Store) :
  FamilyMealService.addParticipant rt mealId userId w
  = match get (FamilyMealService.meals (store w)) mealId with
    | None => (Return false, w)
    | Some meal =>
        if includes (FamilyMeal.participants meal) userId
        then (Return true, w)
        else
          (Return true,
           mkWorld (tick (host w))
             (FamilyMealService.mkStore
                (set (FamilyMealService.meals (store w)) mealId
                   (FamilyMeal.add_participant meal userId
                      (toISOString rt (now (host w)))))
                (FamilyMealService.notifications (store w))
                (FamilyMealService.heap (store w))
                (FamilyMealService.preferences (store w))))
    end.
Proof.
  unfold FamilyMealService.addParticipant, bind, read, write, ret, Date_now.
  simpl.
  destruct (get (FamilyMealService.meals (store w)) mealId) as [meal|];
    [|reflexivity].
  destruct (includes (FamilyMeal.participants meal) userId); reflexivity.
Qed.

(** X21.  [addParticipant] is idempotent and never lists a user twice:
    a second call with the same arguments changes nothing at all, and
    when the meal exists its participants afterwards are the old ones,
    in order, with the user added at the end unless already there. *)
Theorem addParticipant_is_idempotent (mealId userId : string)
  (w : World FamilyMealService.Store) :
  let w1 := snd (FamilyMealService.addParticipant rt mealId userId w) in
  snd (FamilyMealService.addParticipant rt mealId userId w1) = w1
  /\ fst (FamilyMealService.addParticipant rt mealId userId w1)
     = fst (FamilyMealService.addParticipant rt mealId userId w)
  /\ forall meal,
       get (FamilyMealService.meals (store w)) mealId = Some meal ->
       exists meal1,
         get (FamilyMealService.meals (store w1)) mealId = Some meal1
         /\ FamilyMeal.participants meal1
            = (if includes (FamilyMeal.participants meal) userId
               then FamilyMeal.participants meal
               else FamilyMeal.participants meal ++ [userId])
         /\ (FamilyService.distinct (FamilyMeal.participants meal) = true ->
             FamilyService.distinct (FamilyMeal.participants meal1) = true).
Proof.
  intros w1. subst w1. rewrite (addParticipant_run mealId userId w).
  destruct (get (FamilyMealService.meals (store w)) mealId) as [meal|] eqn:E.
  - destruct (includes (FamilyMeal.participants meal) userId) eqn:Ei; simpl.
    + rewrite addParticipant_run, E, Ei. simpl.
      repeat split. intros meal0 H. injection H as <-.
      exists meal. rewrite Ei. auto.
    + rewrite addParticipant_run. simpl. rewrite get_set_same. simpl.
      unfold push.
      assert (Hin : includes (FamilyMeal.participants meal ++ [userId]) userId
                    = true).
      { apply includes_in, in_or_app. right. now left. }
      rewrite Hin. simpl. repeat split.
      intros meal0 H. injection H as <-. rewrite Ei.
      eexists. split; [reflexivity|]. split; [reflexivity|]. simpl.
      unfold push. intros Hd. rewrite distinct_snoc, Hd.
      unfold includes in Ei. now rewrite Ei.
  - simpl. rewrite addParticipant_run, E. simpl.
    repeat split. intros meal H. discriminate.
Qed.

(** X22.  The notification a meal lists and the notification the service
    sends are one object.  After [createMealNotification] for an existing
    meal and [sendNotification] with the new notification's id, the last
    notification the meal shows is that notification marked as sent,
    though [sendNotification] has not written to the map of meals. *)
Theorem sent_notification_shows_in_meal
  (mealId type : string) (recipients : list string)
  (scheduledFor message : string)
  (w : World FamilyMealService.Store) (meal : FamilyMeal.t) :
  get (FamilyMealService.meals (store w)) mealId = Some meal ->
  exists notification w1,
    FamilyMealService.createMealNotification rt mealId type recipients
      scheduledFor message w
    = (Return notification, w1)
    /\ FamilyMealNotification.sent notification = false
    /\ fst (FamilyMealService.sendNotification rt
              (FamilyMealNotification.id notification) w1)
       = Return true
    /\ let w2 :=
         snd (FamilyMealService.sendNotification rt
                (FamilyMealNotification.id notification) w1) in
       FamilyMealService.meals (store w2) = FamilyMealService.meals (store w1)
       /\ exists meal2 earlier sentAt,
            get (FamilyMealService.meals (store w2)) mealId = Some meal2
            /\ FamilyMealService.meal_notifications (store w2) meal2
               = earlier
                 ++ [FamilyMealNotification.mark_sent notification sentAt].
Proof.
  intros Hm.
  unfold FamilyMealService.createMealNotification,
    FamilyMealService.sendNotification, bind, read, write, ret, Date_now,
    Math_random.
  cbn -[String.append string_of_int substring set get nth_error
        FamilyMealService.update_at FamilyMealService.meal_notifications].
  rewrite Hm.
  cbn -[String.append string_of_int substring set get nth_error
        FamilyMealService.update_at FamilyMealService.meal_notifications].
  do 2 eexists. split; [reflexivity|]. split; [reflexivity|].
  cbn -[String.append string_of_int substring set get nth_error
        FamilyMealService.update_at FamilyMealService.meal_notifications].
  rewrite get_set_same.
  unfold FamilyMealService.deref.
  cbn -[String.append string_of_int substring set get nth_error
        FamilyMealService.update_at FamilyMealService.meal_notifications].
  rewrite nth_error_snoc.
  cbn -[String.append string_of_int substring set get nth_error
        FamilyMealService.update_at FamilyMealService.meal_notifications].
  split; [reflexivity|]. split; [reflexivity|].
  rewrite get_set_same. do 3 eexists. split; [reflexivity|].
  unfold FamilyMealService.meal_notifications, FamilyMealService.deref.
  cbn -[String.append string_of_int substring set get nth_error
        FamilyMealService.update_at].
  unfold push. rewrite flat_map_app. simpl.
  rewrite update_at_snoc, nth_error_snoc. simpl.
  reflexivity.
Qed.

(** What [updateMealStatus] does. *)
Lemma updateMealStatus_run (mealId status : string)
  (w : World FamilyMealService.Store) :
  FamilyMealService.updateMealStatus rt mealId status w
  = match get (FamilyMealService.meals (store w)) mealId with
    | None => (Return None, w)
    | Some meal =>
        let meal' :=
          FamilyMeal.set_status meal status
            (toISOString rt (now (host w))) in
        (Return (Some meal'),
         mkWorld (tick (host w))
           (FamilyMealService.mkStore
              (set (FamilyMealService.meals (store w)) mealId meal')
              (FamilyMealService.notifications (store w))
              (FamilyMealService.heap (store w))
              (FamilyMealService.preferences (store w))))
    end.
Proof.
  unfold FamilyMealService.updateMealStatus, bind, read, write, ret,
    Date_now. simpl.
  destruct (get (FamilyMealService.meals (store w)) mealId); reflexivity.
Qed.

Lemma valid_status_some (v : option Json) (s : string) :
  StatusRoute.valid_status v = Some s
  <-> v = Some (JStr s) /\ In s StatusRoute.validStatuses.
Proof.
  destruct v as [[| b | n | s0 | items | fields]|];
    unfold StatusRoute.valid_status;
    try (split; [discriminate | intros [H _]; discriminate]).
  destruct (includes StatusRoute.validStatuses s0) eqn:E.
  - apply includes_in in E. split.
    + intros H. injection H as <-. auto.
    + intros [H _]. injection H as <-. reflexivity.
  - split; [discriminate|]. intros [H Hin]. injection H as <-.
    apply includes_in in Hin. congruence.
Qed.

(** X23.  The status route always answers, with 200, 400, 404 or 500.
    It answers 200 exactly when the body carries a [status] that is one
    of the four strings ["planned"], ["cooking"], ["completed"],
    ["cancelled"] and the meal exists; then the meal it returns is the
    stored one and has that status.  Any other answer leaves the maps
    untouched. *)
Theorem status_route_answers (body : StatusRoute.Body) (mealId : string)
  (w : World FamilyMealService.Store) :
  exists response,
    fst (StatusRoute.PATCH rt body mealId w) = Return response
    /\ In (StatusRoute.status response) [200; 400; 404; 500]%nat
    /\ (StatusRoute.status response = 200%nat
        <-> exists s,
              body = StatusRoute.Parsed (Some (JStr s))
              /\ In s StatusRoute.validStatuses
              /\ get (FamilyMealService.meals (store w)) mealId <> None)
    /\ (StatusRoute.status response <> 200%nat ->
        store (snd (StatusRoute.PATCH rt body mealId w)) = store w)
    /\ (forall meal,
          StatusRoute.data response = Some meal ->
          StatusRoute.status response = 200%nat
          /\ body = StatusRoute.Parsed
                      (Some (JStr (FamilyMeal.status meal)))
          /\ get (FamilyMealService.meals
                    (store (snd (StatusRoute.PATCH rt body mealId w))))
                 mealId
             = Some meal).
Proof.
  unfold StatusRoute.PATCH, try_catch.
  destruct body as [message|v].
  - eexists. split; [reflexivity|]. simpl. repeat split; auto.
    + discriminate.
    + intros (s & H & _). discriminate.
    + discriminate.
    + discriminate.
    + discriminate.
  - destruct (truthy_value v) eqn:Et; simpl.
    + destruct (StatusRoute.valid_status v) as [s|] eqn:Ev.
      * apply valid_status_some in Ev. destruct Ev as [-> Hin].
        unfold bind. rewrite updateMealStatus_run.
        destruct (get (FamilyMealService.meals (store w)) mealId)
          as [meal|] eqn:Em; simpl.
        -- eexists. split; [reflexivity|]. simpl. repeat split; auto.
           ++ intros _. exists s. repeat split; auto. discriminate.
           ++ congruence.
           ++ injection H as <-. reflexivity.
           ++ injection H as <-. apply get_set_same.
        -- eexists. split; [reflexivity|]. simpl. repeat split; auto.
           ++ discriminate.
           ++ intros (s' & H & _ & Hn). congruence.
           ++ discriminate.
           ++ discriminate.
           ++ discriminate.
      * eexists. split; [reflexivity|]. simpl. repeat split; auto.
        -- discriminate.
        -- intros (s & H & Hin & _). injection H as ->.
           assert (H : StatusRoute.valid_status (Some (JStr s))
                       = Some s) by (apply valid_status_some; auto).
           congruence.
        -- discriminate.
        -- discriminate.
        -- discriminate.
    + eexists. split; [reflexivity|]. simpl. repeat split; auto.
      * discriminate.
      * intros (s & H & Hin & _). injection H as ->. simpl in Et.
        destruct Hin as [<-|[<-|[<-|[<-|[]]]]]; discriminate.
      * discriminate.
      * discriminate.
      * discriminate.
Qed.

(** [with_ids] gives every ingredient a new id and changes nothing
    else; it writes nothing. *)
Lemma with_ids_run (ingredients : list FamilyMealIngredient.t)
  (w : World FamilyMealService.Store) :
  exists ingredients' h,
    FamilyMealService.with_ids rt ingredients w
    = (Return ingredients', mkWorld h (store w))
    /\ List.map (fun ing => FamilyMealIngredient.with_id ing EmptyString)
                ingredients'
       = List.map (fun ing => FamilyMealIngredient.with_id ing EmptyString)
                  ingredients.
Proof.
  revert w. induction ingredients as [|ing rest IH]; intros w; simpl.
  - exists [], (host w). destruct w. split; reflexivity.
  - unfold bind, Date_now, Math_random. simpl.
    destruct (IH (mkWorld (draw (tick (host w))) (store w)))
      as (rest' & h & E & Hm).
    rewrite E. unfold ret. simpl.
    do 2 eexists. split; [reflexivity|]. simpl. now rewrite Hm.
Qed.

Lemma in_values_set (V : Type) (m : Js.Map V) (k : string) (v : V) :
  In v (values (set m k v)).
Proof.
  unfold values. induction m as [|[k0 v0] m IH]; simpl; [now left|].
  destruct (String.eqb k0 k); simpl; [now left | now right].
Qed.

(** X24.  A meal that has been created is listed.  [createFamilyMeal]
    returns a planned meal whose only participant is its creator and
    whose ingredients are the given ones with ids of their own;
    afterwards [getFamilyMeals] lists that meal for its family and for no
    other, and never lists a meal under a family that is not its own. *)
Theorem created_meal_is_listed
  (familyId name description date time createdBy : string)
  (ingredients : list FamilyMealIngredient.t)
  (w : World FamilyMealService.Store) :
  exists meal w1,
    FamilyMealService.createFamilyMeal rt familyId name description date
      time createdBy ingredients w
    = (Return meal, w1)
    /\ FamilyMeal.participants meal = [createdBy]
    /\ FamilyMeal.status meal = "planned"
    /\ List.map (fun ing => FamilyMealIngredient.with_id ing EmptyString)
                (FamilyMeal.ingredients meal)
       = List.map (fun ing => FamilyMealIngredient.with_id ing EmptyString)
                  ingredients
    /\ forall family,
       exists listed,
         fst (FamilyMealService.getFamilyMeals family w1) = Return listed
         /\ (In meal listed <-> family = familyId)
         /\ (forall other, In other listed ->
                           FamilyMeal.familyId other = family).
Proof.
  unfold FamilyMealService.createFamilyMeal, bind, Date_now, Math_random.
  cbn -[String.append string_of_int substring FamilyMealService.with_ids].
  destruct (with_ids_run ingredients
              (mkWorld (draw (tick (host w))) (store w)))
    as (ings' & h & E & Hm).
  rewrite E.
  cbn -[String.append string_of_int substring FamilyMealService.with_ids].
  do 2 eexists. split; [reflexivity|].
  split; [reflexivity|]. split; [reflexivity|]. split; [exact Hm|].
  intros family.
  unfold FamilyMealService.getFamilyMeals, bind, read, ret.
  cbn -[String.append string_of_int substring set values].
  eexists. split; [reflexivity|]. split.
  - rewrite filter_In. split.
    + intros [_ H]. simpl in H. apply String.eqb_eq in H. now symmetry.
    + intros ->. split; [apply in_values_set|]. simpl.
      apply String.eqb_refl.
  - intros other H. apply filter_In in H. destruct H as [_ H].
    now apply String.eqb_eq in H.
Qed.

End MealFacts.

Lemma sent_notification_shows_in_meal_witness :
  exists notification w1,
    FamilyMealService.createMealNotification JsExamples.sample_runtime
      JsExamples.dinner_id "app" ["alice"] "2024-05-01T18:30" "Dinner at 7"
      JsExamples.with_dinner
    = (Js.Return notification, w1)
    /\ FamilyMealNotification.sent notification = false
    /\ fst (FamilyMealService.sendNotification JsExamples.sample_runtime
              (FamilyMealNotification.id notification) w1)
       = Js.Return true
    /\ let w2 :=
         snd (FamilyMealService.sendNotification JsExamples.sample_runtime
                (FamilyMealNotification.id notification) w1) in
       FamilyMealService.meals (Js.store w2)
       = FamilyMealService.meals (Js.store w1)
       /\ exists meal2 earlier sentAt,
            Js.get (FamilyMealService.meals (Js.store w2))
                   JsExamples.dinner_id
            = Some meal2
            /\ FamilyMealService.meal_notifications (Js.store w2) meal2
               = earlier
                 ++ [FamilyMealNotification.mark_sent notification sentAt].
Proof.
  apply (sent_notification_shows_in_meal JsExamples.sample_runtime
           JsExamples.dinner_id "app" ["alice"] "2024-05-01T18:30"
           "Dinner at 7" JsExamples.with_dinner JsExamples.dinner).
  vm_compute. reflexivity.
Defined.
